(** * BAG2_TEMPLATES_EC: layout templates of the CML transmitter

    A shallow embedding of the arithmetic and the bookkeeping of
    [abs_templates_ec/serdes/tx_cml.py], [layout_scripts/serdes.py] and
    [test_scripts/analogbase.py].  The templates call into the BAG layout
    framework ([AnalogBaseInfo], [RoutingGrid], [TemplateBase], ...), which
    is not part of the repository: its methods appear here as section
    variables or as symbolic terms, and what the templates themselves
    compute is translated statement by statement. *)

From Stdlib Require Import PrimFloat.
From Stdlib Require SpecFloat FloatOps Uint63.
From Stdlib Require Import ZArith QArith Qfield Lia.
From stdpp Require Import base tactics option list gmap strings pretty.

Local Open Scope Z_scope.

(** ** Python results

    A call either returns or raises.  Loops without a static bound run on
    fuel (one unit per iteration of the body); [None] means that the fuel
    ran out before the loop left. *)

Inductive exn : Type :=
| ValueError
| ZeroDivisionError
| TypeError
| KeyError
| IndexError
| OverflowError.

Inductive result (A : Type) : Type :=
| Ok (a : A)
| Raise (e : exn).

Arguments Ok {A} a.
Arguments Raise {A} e.

Global Instance result_ret : MRet result := fun A a => Ok a.

Global Instance result_bind : MBind result := fun A B k r =>
  match r with
  | Ok a => k a
  | Raise e => Raise e
  end.

(** Python's [a % b] and [a // b] on integers: floor division, the sign of
    the remainder follows the divisor, and a zero divisor raises.  For a
    nonzero divisor they are [Z.modulo] and [Z.div]. *)

Definition py_mod (a b : Z) : result Z :=
  if b =? 0 then Raise ZeroDivisionError else Ok (a mod b).

Definition py_floordiv (a b : Z) : result Z :=
  if b =? 0 then Raise ZeroDivisionError else Ok (a / b).

(** ** CMLCorePMOS: the finger-count search *)

Module FingerCount.

Section Search.

(** [layout_info.get_total_width(fg, guard_ring_nf=...)] of the
framework's [AnalogBaseInfo]. *)
Variable get_total_width : Z -> Z -> Z.
Variable guard_ring_nf : Z.
Variable num_pitch : Z.

(** The loop state is the pair [(fg_tot, cur_width)]. *)
Definition loop_cond (st : Z * Z) : bool := snd st >? num_pitch.

Definition loop_body (st : Z * Z) : Z * Z :=
let fg_tot := fst st - 1 in
(fg_tot, get_total_width fg_tot guard_ring_nf).

(** [while cur_width > num_pitch: fg_tot -= 1; cur_width = ...] *)
Fixpoint while_loop (fuel : nat) (st : Z * Z) : option (Z * Z) :=
if loop_cond st then
match fuel with
| O => None
| S fuel' => while_loop fuel' (loop_body st)
end
else Some st.

(** [fg_tot = num_pitch; cur_width = get_total_width(fg_tot, ...)] *)
Definition loop_init : Z * Z :=
(num_pitch, get_total_width num_pitch guard_ring_nf).

Definition search (fuel : nat) : option (Z * Z) := while_loop fuel loop_init.

(** The state after [n] runs of the body. *)
Definition state_after (n : nat) : Z * Z := Nat.iter n loop_body loop_init.

End Search.

Section Solve.

Variable get_total_width : Z -> Z -> Z.

(** Lines 334-349 of [_draw_layout_helper], from [tot_width_unit] on.
[tot_width_unit] stands for [int(round(tot_width / res))], a float
computation whose integer result is taken as given. *)
Definition solve_fg_tot (fuel : nat) (tot_width_unit sd_pitch guard_ring_nf : Z)
: option (result Z) :=
match py_mod tot_width_unit sd_pitch with
| Raise e => Some (Raise e)
| Ok r =>
if negb (r =? 0) then Some (Raise ValueError)
else
  match py_floordiv tot_width_unit sd_pitch with
  | Raise e => Some (Raise e)
  | Ok num_pitch =>
    match search get_total_width guard_ring_nf num_pitch fuel with
    | None => None
    | Some (fg_tot, cur_width) =>
      if negb (cur_width =? num_pitch) then Some (Raise ValueError)
      else Some (Ok fg_tot)
    end
  end
end.

End Solve.

End FingerCount.

(** ** Python floats

    A Python float is an IEEE 754 binary64 number; these are the kernel's
    primitive floats, and [*] and [/] on them round as the processor
    does. *)

(** An integer as an unrounded binary number. *)
Definition Z2SF (z : Z) : SpecFloat.spec_float :=
  match z with
  | Z0 => SpecFloat.S754_zero false
  | Zpos m => SpecFloat.S754_finite false m 0
  | Zneg m => SpecFloat.S754_finite true m 0
  end.

(** [a / b] on two integers: a zero divisor raises; otherwise the exact
    quotient is rounded once to the nearest float, ties to even, and a
    quotient beyond the range of the floats raises OverflowError. *)
Definition py_int_truediv (a b : Z) : result float :=
  if b =? 0 then Raise ZeroDivisionError
  else
    match SpecFloat.SFdiv FloatOps.prec FloatOps.emax (Z2SF a) (Z2SF b) with
    | SpecFloat.S754_infinity _ => Raise OverflowError
    | q => Ok (FloatOps.SF2Prim q)
    end.

(** [a / b] on two floats: a divisor equal to zero (of either sign)
    raises, and nothing else does. *)
Definition py_truediv (a b : float) : result float :=
  if (b =? 0)%float then Raise ZeroDivisionError else Ok (a / b)%float.

(** [float(n)] for the length [n] of a list.  A list has fewer than
    [2^63] items, so the conversion rounds to the nearest float and
    cannot raise OverflowError. *)
Definition float_of_len (n : Z) : float := of_uint63 (Uint63.of_Z n).

(** ** Dictionaries on the heap

    [em_specs] is a Python dictionary, passed by reference, copied with
    [.copy()] and updated in place.  A heap maps the address of each
    dictionary to its contents.  The electromigration limits it holds are
    Python floats (a limit written as an integer is read as the float
    that [*=] converts it to). *)

Module Store.

Definition loc : Type := positive.

(** A computation reads and updates the heap and returns or raises; the
    heap is kept when it raises. *)
Definition py (A : Type) : Type :=
  gmap positive (gmap string float) -> result A * gmap positive (gmap string float).

Global Instance py_ret : MRet py := fun A a h => (Ok a, h).

Global Instance py_bind : MBind py := fun A B k m h =>
  match m h with
  | (Ok a, h') => k a h'
  | (Raise e, h') => (Raise e, h')
  end.

Definition lift {A : Type} (r : result A) : py A := fun h => (r, h).

(** The contents of the dictionary at [l]. *)
Definition get_dict (l : loc) : py (gmap string float) := fun h => (Ok (h !!! l), h).

(** [d.copy()]: a new dictionary with the same items, at an address
    that is not in use. *)
Definition copy_at (l : loc) (h : gmap positive (gmap string float))
  : loc * gmap positive (gmap string float) :=
  let l' := fresh (dom h) in (l', <[l' := h !!! l]> h).

Definition dict_copy (l : loc) : py loc := fun h =>
  let '(l', h') := copy_at l h in (Ok l', h').

(** [d[key] = v] *)
Definition set_item (l : loc) (key : string) (v : float) : py unit := fun h =>
  (Ok tt, <[l := <[key := v]> (h !!! l)]> h).

End Store.

(** ** CMLCorePMOS._draw_layout_helper *)

Module CMLCorePMOS.

Import Store.

(** What the template uses of the framework's [AnalogBaseInfo]. *)
Record AnalogBaseInfo : Type := {
  sd_pitch_unit : Z;
  get_total_width : Z -> Z -> Z;
  mconn_port_layer : Z;
}.

(** What the template uses of the framework's [RoutingGrid].
    [get_min_track_width layer bot_w specs] is the call
    [get_min_track_width(layer, bot_w=..., **specs)]. *)
Record RoutingGrid : Type := {
  get_min_track_width : Z -> option Z -> gmap string float -> Z;
  get_num_space_tracks : Z -> Z -> Z;
}.

Section Helper.

Variable track_index : Type.
Variable grid : RoutingGrid.
(** [AnalogBaseInfo(self.grid, lch, guard_ring_nf)] *)
Variable new_AnalogBaseInfo : Q -> Z -> AnalogBaseInfo.

(** The keyword arguments of [_draw_layout_helper].  [tot_width_unit]
    is [int(round(tot_width / res))]; [em_specs] is the address of the
    caller's dictionary. *)
Record params : Type := {
  lch : Q;
  w : Z;
  fg : Z;
  fg_ref : Z;
  output_tracks : list track_index;
  em_specs : loc;
  threshold : string;
  input_width : Z;
  input_space : Z;
  ntap_w : Z;
  guard_ring_nf : Z;
  tot_width_unit : Z;
  show_pins : bool;
}.

(** The values the helper has computed when it calls [draw_base], and
    the arguments of that call. *)
Record base_layout : Type := {
  fg_tot : Z;
  hm_width : Z;
  hm_space : Z;
  vm_width : Z;
  ref_em_specs : loc;
  hm_width_ref : Z;
  hm_space_ref : Z;
  eff_input_space : Z;
  pw_list : list Z;
  pth_list : list string;
  pg_tracks : list Z;
  pds_tracks : list Z;
}.

Definition em_keys : list string := ["idc"; "iac_rms"; "iac_peak"].

(** [for key in [...]: if key in ref_em_specs:
      ref_em_specs[key] *= num_seg / cur_ratio]
    with [num_seg] the length of a list and [cur_ratio] a float. *)
Fixpoint scale_keys (ref : loc) (num_seg : Z) (cur_ratio : float)
    (keys : list string) : py unit :=
  match keys with
  | [] => mret tt
  | key :: rest =>
    d ← get_dict ref;
    _ ← match d !! key with
        | Some v =>
          f ← lift (py_truediv (float_of_len num_seg) cur_ratio);
          set_item ref key (v * f)%float
        | None => mret tt
        end;
    scale_keys ref num_seg cur_ratio rest
  end.

(** Lines 351-382: from the EM specs to the call of [draw_base]. *)
Definition tracks_from_em_specs (p : params) (layout_info : AnalogBaseInfo)
    (fg_tot : Z) : py base_layout :=
  let hm_layer := mconn_port_layer layout_info + 1 in
  specs ← get_dict (em_specs p);
  let hm_width := get_min_track_width grid hm_layer None specs in
  let hm_space := get_num_space_tracks grid hm_layer hm_width in
  let vm_layer := hm_layer + 1 in
  vm_width ← lift (match specs !! "bot_w" with
                   | Some _ => Raise TypeError
                   | None => Ok (get_min_track_width grid vm_layer (Some hm_width) specs)
                   end);
  cur_ratio ← lift (py_int_truediv (fg p) (fg_ref p));
  let num_seg := Z.of_nat (length (output_tracks p)) in
  ref ← dict_copy (em_specs p);
  _ ← scale_keys ref num_seg cur_ratio em_keys;
  ref_specs ← get_dict ref;
  let hm_width_ref := get_min_track_width grid hm_layer None ref_specs in
  let hm_space_ref := get_num_space_tracks grid hm_layer hm_width_ref in
  let input_space := Z.max (Z.max (input_space p) hm_space_ref) hm_space in
  mret {|
    fg_tot := fg_tot;
    hm_width := hm_width;
    hm_space := hm_space;
    vm_width := vm_width;
    ref_em_specs := ref;
    hm_width_ref := hm_width_ref;
    hm_space_ref := hm_space_ref;
    eff_input_space := input_space;
    pw_list := [w p; w p; w p];
    pth_list := [threshold p; threshold p; threshold p];
    pg_tracks := [input_width p; input_space + hm_width_ref + hm_space; input_width p];
    pds_tracks := [input_space + hm_width;
                   2 * hm_width + hm_space + input_space;
                   input_space + hm_width];
  |}.

(** The helper up to [draw_base]; what follows (track ids, transistor
    connections, pins) only hands these values to the framework. *)
Definition _draw_layout_helper (fuel : nat) (p : params)
    (h : gmap positive (gmap string float))
  : option (result base_layout * gmap positive (gmap string float)) :=
  let layout_info := new_AnalogBaseInfo (lch p) (guard_ring_nf p) in
  match FingerCount.solve_fg_tot (get_total_width layout_info) fuel
          (tot_width_unit p) (sd_pitch_unit layout_info) (guard_ring_nf p) with
  | None => None
  | Some (Raise e) => Some (Raise e, h)
  | Some (Ok fg_tot) => Some (tracks_from_em_specs p layout_info fg_tot h)
  end.

End Helper.

End CMLCorePMOS.

(** ** Wires and pins

    Wire arrays and track ids are objects of the framework.  They are kept
    as symbolic terms that record which framework call made them, so that
    two wires are equal exactly when they were made the same way. *)

#[warnings="-register-all"]
Inductive warr : Type :=
| ResPort (row col : Z) (top : bool)
    (** [get_res_ports(row, col)]: the bottom or the top port *)
| ConnectToTracks (ws : list warr) (tid : track_id)
| ConnectWires (ws : list warr)
| SubPin (k : nat)
    (** the pins of the substrate contact *)
with track_id : Type :=
| NearestTrackID (layer : Z) (w : warr) (width : Z)
    (** [TrackID(layer, coord_to_nearest_track(layer, w.middle), width)] *)
| TrackIdOf (w : warr).
    (** [w.track_id] *)

(** One [add_pin(name, wire, show=...)]. *)
Record pin : Type := {
  pin_name : string;
  pin_warr : warr;
  pin_show : bool;
}.

(** ['bot<%d>' % i] and the like. *)
Definition indexed_name (base : string) (i : Z) : string :=
  base +:+ "<" +:+ pretty i +:+ ">".

(** ** LoadResistor *)

Module LoadResistor.

Section Template.

(** [self.bot_layer_id] and [self.w_tracks] of [ResArrayBase]; the
    helper unpacks [w_tracks] into four widths. *)
Variable bot_layer_id : Z.
Variable w_tracks : Z * Z * Z * Z.

Definition _export_to_vm (port : warr) : warr :=
  let '(_, vm_width, xm_width, ym_width) := w_tracks in
  let bot_layer := bot_layer_id in
  fold_left
    (fun warr '(next_layer, next_width) =>
       ConnectToTracks [warr] (NearestTrackID next_layer warr next_width))
    (zip (seqZ (bot_layer + 1) 3) [vm_width; xm_width; ym_width])
    port.

(** What [draw_layout] leaves behind: the size of the array handed to
    [draw_array] and the pins, in the order they were added. *)
Record layout : Type := {
  array_nx : Z;
  array_ny : Z;
  pins : list pin;
}.

(** The body of the loop over the columns. *)
Definition column_pins (nx ndum : Z) (show_pins : bool) (idx : Z) : list pin :=
  let bot := _export_to_vm (ResPort 0 idx false) in
  let top := _export_to_vm (ResPort 0 idx true) in
  if (idx <? ndum) || (idx >=? nx + ndum) then
    [ {| pin_name := "dummy"; pin_warr := ConnectWires [bot; top];
         pin_show := show_pins |} ]
  else
    [ {| pin_name := indexed_name "bot" (idx - ndum); pin_warr := bot;
         pin_show := show_pins |};
      {| pin_name := indexed_name "top" (idx - ndum); pin_warr := top;
         pin_show := show_pins |} ].

Definition draw_layout (nx ndum : Z) (show_pins : bool) : layout :=
  {| array_nx := nx + 2 * ndum;
     array_ny := 1;
     pins := seqZ 0 (nx + 2 * ndum) ≫= column_pins nx ndum show_pins |}.

End Template.

End LoadResistor.

(** ** Ports of an instance *)

Section Ports.

(** What the framework does when a master has no port of that name. *)
Variable missing_port : result (list warr).

(** [inst.get_all_port_pins(name)], for an instance placed at the origin. *)
Definition get_all_port_pins (master_pins : list pin) (name : string)
  : result (list warr) :=
  match filter (fun p => pin_name p = name) master_pins with
  | [] => missing_port
  | ps => Ok (pin_warr <$> ps)
  end.

(** [xs[0]] *)
Definition first_item {A : Type} (xs : list A) : result A :=
  match xs with
  | [] => Raise IndexError
  | x :: _ => Ok x
  end.

End Ports.

(** ** CMLLoadSingle *)

Module CMLLoadSingle.

Section Template.

Variable track_index : Type.
(** [w.track_id.base_index] *)
Variable base_index : warr -> track_index.
Variable missing_port : result (list warr).
Variable bot_layer_id : Z.
Variable w_tracks : Z * Z * Z * Z.
(** [sub_master.port_name] and the pins of the substrate instance *)
Variable port_name : string.
Variable sub_warrs : list warr.

(** The private attributes of the template object, with the pins it has
    added and the ports it has re-exported.  Its size and array box are
    geometry of the framework and are left out. *)
Record state : Type := {
  _tot_width : option Z;
  _output_tracks : option (list track_index);
  pins : list pin;
  reexports : list (string * string);
}.

Definition __init__ : state :=
  {| _tot_width := None; _output_tracks := None; pins := []; reexports := [] |}.

(** The property [output_tracks]. *)
Definition output_tracks (self : state) : option (list track_index) :=
  _output_tracks self.

Definition add_pin (name : string) (w : warr) (show : bool) (self : state) : state :=
  {| _tot_width := _tot_width self;
     _output_tracks := _output_tracks self;
     pins := pins self ++ [ {| pin_name := name; pin_warr := w; pin_show := show |} ];
     reexports := reexports self |}.

(** [self._output_tracks.append(x)]; the attribute is a list here. *)
Definition append_output_track (x : track_index) (self : state) : state :=
  {| _tot_width := _tot_width self;
     _output_tracks := Some (default [] (_output_tracks self) ++ [x]);
     pins := pins self;
     reexports := reexports self |}.

Definition reexport (port net_name : string) (self : state) : state :=
  {| _tot_width := _tot_width self;
     _output_tracks := _output_tracks self;
     pins := pins self;
     reexports := reexports self ++ [(port, net_name)] |}.

(** [for dum_warr in res_inst.get_all_port_pins('dummy'): ...] *)
Definition connect_dummies (dummies : list warr) (show_pins : bool)
    (self : state) : state :=
  fold_left
    (fun self dum_warr =>
       add_pin port_name (ConnectToTracks sub_warrs (TrackIdOf dum_warr)) show_pins self)
    dummies self.

(** One round of [for idx in range(res_params['nx']): ...] *)
Definition export_output (res_pins : list pin) (show_pins : bool)
    (self : state) (idx : Z) : result state :=
  tops ← get_all_port_pins missing_port res_pins (indexed_name "top" idx);
  top ← first_item tops;
  let self := append_output_track (base_index top) self in
  let self := add_pin port_name (ConnectToTracks sub_warrs (TrackIdOf top))
                show_pins self in
  _ ← get_all_port_pins missing_port res_pins (indexed_name "bot" idx);
  Ok (reexport (indexed_name "bot" idx) (indexed_name "out" idx) self).

Fixpoint export_outputs (res_pins : list pin) (show_pins : bool)
    (self : state) (idxs : list Z) : result state :=
  match idxs with
  | [] => Ok self
  | idx :: rest =>
    self' ← export_output res_pins show_pins self idx;
    export_outputs res_pins show_pins self' rest
  end.

(** [_draw_layout_helper(res_params, sub_params, show_pins)], where
    [nx] and [ndum] are the entries of [res_params]. *)
Definition _draw_layout_helper (nx ndum : Z) (show_pins : bool)
    (self : state) : result state :=
  let res_master := LoadResistor.draw_layout bot_layer_id w_tracks nx ndum false in
  let res_pins := LoadResistor.pins res_master in
  dummies ← get_all_port_pins missing_port res_pins "dummy";
  let self := connect_dummies dummies show_pins self in
  let self := {| _tot_width := _tot_width self;
                 _output_tracks := Some [];
                 pins := pins self;
                 reexports := reexports self |} in
  export_outputs res_pins show_pins self (seqZ 0 nx).

Definition draw_layout (nx ndum : Z) (show_pins : bool) (self : state)
  : result state :=
  _draw_layout_helper nx ndum show_pins self.

End Template.

End CMLLoadSingle.

(** ** CMLDriverPMOS *)

Module CMLDriverPMOS.

Import Store.

Section Template.

Variable track_index : Type.
Variable base_index : warr -> track_index.
Variable missing_port : result (list warr).
Variable bot_layer_id : Z.
Variable w_tracks : Z * Z * Z * Z.
Variable port_name : string.
Variable sub_warrs : list warr.
Variable grid : CMLCorePMOS.RoutingGrid.
Variable new_AnalogBaseInfo : Q -> Z -> CMLCorePMOS.AnalogBaseInfo.
(** [load_master.array_box.width], in resolution units, and the
    heights [get_size_dimension] reports for the two masters. *)
Variable load_tot_width_unit : Z.
Variable load_height : Z.
Variable core_height : Z.

(** The entries of [res_params] the templates read. *)
Record res_params : Type := {
  nx : Z;
  ndum : Z;
  em_specs : loc;
}.

Record params : Type := {
  res : res_params;
  lch : Q;
  w : Z;
  fg : Z;
  fg_ref : Z;
  threshold : string;
  input_width : Z;
  input_space : Z;
  ntap_w : Z;
  guard_ring_nf : Z;
  show_pins : bool;
}.

(** One [add_instance(master, name, loc, orient=...)]. *)
Record instance : Type := {
  inst_name : string;
  inst_master : string;
  inst_loc : Z * Z;
  inst_orient : string;
}.

Record state : Type := {
  _tot_width : option Z;
  _output_tracks : option (list track_index);
  instances : list instance;
  array_box : option (string * string);
}.

Definition __init__ : state :=
  {| _tot_width := None; _output_tracks := None; instances := []; array_box := None |}.

(** The property [output_tracks]. *)
Definition output_tracks (self : state) : option (list track_index) :=
  _output_tracks self.

(** [new_template(params=load_params, temp_cls=CMLLoadSingle)]: the
    load is drawn with [show_pins=False]. *)
Definition load_master (p : params) : result (CMLLoadSingle.state track_index) :=
  CMLLoadSingle.draw_layout track_index base_index missing_port bot_layer_id
    w_tracks port_name sub_warrs (nx (res p)) (ndum (res p)) false
    (CMLLoadSingle.__init__ track_index).

(** The parameters handed to [CMLCorePMOS]; [tracks] is
    [load_master.output_tracks] and [em] the copy of the EM specs. *)
Definition core_params (p : params) (tracks : list track_index) (em : loc)
  : CMLCorePMOS.params track_index :=
  {| CMLCorePMOS.lch := lch p;
     CMLCorePMOS.w := w p;
     CMLCorePMOS.fg := fg p;
     CMLCorePMOS.fg_ref := fg_ref p;
     CMLCorePMOS.output_tracks := tracks;
     CMLCorePMOS.em_specs := em;
     CMLCorePMOS.threshold := threshold p;
     CMLCorePMOS.input_width := input_width p;
     CMLCorePMOS.input_space := input_space p;
     CMLCorePMOS.ntap_w := ntap_w p;
     CMLCorePMOS.guard_ring_nf := guard_ring_nf p;
     CMLCorePMOS.tot_width_unit := load_tot_width_unit;
     CMLCorePMOS.show_pins := false |}.

(** The three instances and the array box of the driver. *)
Definition place_instances (self : state) : state :=
  {| _tot_width := _tot_width self;
     _output_tracks := _output_tracks self;
     instances := instances self ++
       [ {| inst_name := "XLOADN"; inst_master := "CMLLoadSingle";
            inst_loc := (0, load_height); inst_orient := "MX" |};
         {| inst_name := "XCORE"; inst_master := "CMLCorePMOS";
            inst_loc := (0, load_height); inst_orient := "R0" |};
         {| inst_name := "XLOADP"; inst_master := "CMLLoadSingle";
            inst_loc := (0, load_height + core_height); inst_orient := "R0" |} ];
     array_box := Some ("XLOADN", "XLOADP") |}.

(** [_draw_layout_helper]: the new state of the driver, with the load's
    output tracks and the core's layout for reference.  A load whose
    [output_tracks] is still [None] makes [len(output_tracks)] in the
    core raise. *)
Definition _draw_layout_helper (fuel : nat) (p : params) (self : state)
    (h : gmap positive (gmap string float))
  : option (result (state * list track_index * CMLCorePMOS.base_layout)
            * gmap positive (gmap string float)) :=
  match load_master p with
  | Raise e => Some (Raise e, h)
  | Ok load =>
    match CMLLoadSingle.output_tracks track_index load with
    | None => Some (Raise TypeError, h)
    | Some tracks =>
      let '(em, h1) := copy_at (em_specs (res p)) h in
      match CMLCorePMOS._draw_layout_helper track_index grid new_AnalogBaseInfo
              fuel (core_params p tracks em) h1 with
      | None => None
      | Some (Raise e, h2) => Some (Raise e, h2)
      | Some (Ok core, h2) => Some (Ok (place_instances self, tracks, core), h2)
      end
    end
  end.

Definition draw_layout (fuel : nat) (p : params) (self : state)
    (h : gmap positive (gmap string float)) :=
  _draw_layout_helper fuel p self h.

End Template.

End CMLDriverPMOS.

(** ** AmpBaseChain (test_scripts/analogbase.py) *)

Module AmpBaseChain.

(** [x0 = (-x0 // xblk) * xblk], run when [master2.size is not None];
    the unary minus binds tighter than [//]. *)
Definition x2_coord (x0 : Z) (master2_size : option (Z * Z * Z)) (xblk : Z)
  : result Z :=
  match master2_size with
  | Some _ => q ← py_floordiv (- x0) xblk; Ok (q * xblk)
  | None => Ok x0
  end.

(** [draw_layout]: the locations of X1 and X2.  [right_unit] is
    [inst1.bound_box.right_unit] and [xblk] the block width of
    [master2.top_layer]. *)
Definition draw_layout (right_unit : Z) (master2_size : option (Z * Z * Z))
    (xblk : Z) : result (list (string * (Z * Z))) :=
  let x0 := right_unit in
  x0 ← x2_coord x0 master2_size xblk;
  Ok [("X1", (0, 0)); ("X2", (x0, 0))].

End AmpBaseChain.

(** ** The script layout_scripts/serdes.py *)

Module Serdes.

(** The Python values the parameter dictionaries hold. *)
#[warnings="-register-all"]
Inductive pyval : Type :=
| PyInt (z : Z)
| PyFloat (q : Q)
| PyStr (s : string)
| PyBool (b : bool)
| PyList (l : list pyval)
| PyDict (d : list (string * pyval)).

(** The calls the script makes into the framework, in order. *)
Inductive call : Type :=
| NewTemplate (temp_cls : string) (params : gmap string pyval)
| InstantiateLayout (cell_name : string)
| CreateDesignModule (lib_name cell_name : string)
| DesignSpecs (kwargs : gmap string pyval)
| ImplementDesign (impl_lib top_cell_name : string) (erase : bool).

Definition impl_lib : string := "AAAFOO_serdes_rx2".

(** [f(key=v, **d)]: a keyword given twice is a [TypeError]. *)
Definition keyword_call (key : string) (v : pyval) (d : gmap string pyval)
  : result (gmap string pyval) :=
  match d !! key with
  | Some _ => Raise TypeError
  | None => Ok (<[key := v]> d)
  end.

Definition gm (casc : option Z) (inp : Z) (sw : option Z) (tail : Z) : pyval :=
  PyDict (from_option (fun c => [("casc", PyInt c)]) [] casc ++
          [("in", PyInt inp)] ++
          from_option (fun c => [("sw", PyInt c)]) [] sw ++
          [("tail", PyInt tail)]).

Definition lat (load casc inp sw tail : Z) : pyval :=
  PyDict [("load", PyInt load); ("casc", PyInt casc); ("in", PyInt inp);
          ("sw", PyInt sw); ("tail", PyInt tail)].

(** The dictionary [params] of [rxcore]. *)
Definition rxcore_params : gmap string pyval :=
  list_to_map [
    ("lch", PyFloat (16 # 1000000000));
    ("w_dict", lat 3 4 3 3 3);
    ("th_dict", PyDict [("load", PyStr "ulvt"); ("casc", PyStr "ulvt");
                        ("in", PyStr "ulvt"); ("sw", PyStr "ulvt");
                        ("tail", PyStr "svt")]);
    ("integ_params", PyDict [("load", PyInt 6); ("in", PyInt 4);
                             ("sw", PyInt 4); ("tail", PyInt 4)]);
    ("nac_off", PyInt 4);
    ("alat_params_list", PyList [lat 4 8 6 4 8; lat 4 8 6 4 8]);
    ("intsum_params", PyDict [
       ("fg_load", PyInt 12);
       ("load_fg_list", PyList (PyInt <$> [4; 4; 4; 0; 0; 0]));
       ("gm_fg_list", PyList [
          gm None 2 (Some 2) 4; gm (Some 4) 2 (Some 2) 4; gm None 4 None 2;
          gm None 4 (Some 4) 2; gm None 4 (Some 4) 2; gm None 4 (Some 4) 2]);
       ("flip_sd_list", PyList (PyBool <$> [false; true; true; true; true; true]));
       ("sgn_list", PyList (PyInt <$> [1; -1; -1; -1; -1; -1]))]);
    ("summer_params", PyDict [
       ("fg_load", PyInt 8);
       ("load_fg_list", PyList (PyInt <$> [8; 0]));
       ("gm_fg_list", PyList [gm (Some 10) 8 (Some 4) 12; gm (Some 8) 8 (Some 4) 2]);
       ("flip_sd_list", PyList (PyBool <$> [false; false]));
       ("sgn_list", PyList (PyInt <$> [1; -1]))]);
    ("dlat_params_list", PyList [lat 4 10 10 6 2; lat 4 10 10 6 2; lat 4 10 10 6 2])
  ].

(** The defaults [layout_params] of [rxcore], before [update(params)]. *)
Definition rxcore_layout_defaults : gmap string pyval :=
  list_to_map [
    ("ptap_w", PyInt 6); ("ntap_w", PyInt 6); ("hm_width", PyInt 1);
    ("hm_cur_width", PyInt 2); ("diff_space", PyInt 1);
    ("sig_widths", PyList (PyInt <$> [1; 2]));
    ("sig_spaces", PyList (PyInt <$> [2; 2]));
    ("clk_widths", PyList (PyInt <$> [2; 3; 4]));
    ("clk_spaces", PyList (PyInt <$> [2; 3; 6]));
    ("sig_clk_spaces", PyList (PyInt <$> [2; 3]));
    ("min_fg_sep", PyInt 4)
  ].

Section Script.

(** [template.num_fingers] of the [RXCore] template the framework
    builds from the layout parameters. *)
Variable num_fingers : gmap string pyval -> Z.

(** [rxcore(prj, temp_db)]: the calls made, and the pair returned. *)
Definition rxcore : list call * (gmap string pyval * Z) :=
  let cell_name := "rxcore_ffe1_dfe4" in
  let params := rxcore_params in
  let layout_params := params ∪ rxcore_layout_defaults in
  ([NewTemplate "RXCore" layout_params; InstantiateLayout cell_name],
   (params, num_fingers layout_params)).

(** [rxcore_sch(prj, sch_params, tot_fg)]: the calls made, and how the
    function ends. *)
Definition rxcore_sch (sch_params : gmap string pyval) (tot_fg : Z)
  : list call * result unit :=
  let lib_name := "serdes_bm_templates" in
  let cell_name := "rxcore_ffe1_dfe4" in
  match keyword_call "fg_tot" (PyInt (2 * tot_fg)) sch_params with
  | Raise e => ([CreateDesignModule lib_name cell_name], Raise e)
  | Ok kwargs =>
    ([CreateDesignModule lib_name cell_name;
      DesignSpecs kwargs;
      ImplementDesign impl_lib cell_name true], Ok tt)
  end.

End Script.

End Serdes.

(** ** Statements about the finger-count checks *)

Module CoreSpec.

Import CMLCorePMOS.

(** [a] is not an integer multiple of [b]. *)
Definition not_multiple (a b : Z) : Prop := ~ exists k, a = k * b.

(** Going down from [num_pitch], the finger counts before the [n]-th
    have a total width above [num_pitch] and the [n]-th has one below
    it: the search ends there, strictly below [num_pitch]. *)
Definition search_ends_below (get_total_width : Z -> Z -> Z)
    (guard_ring_nf num_pitch : Z) : Prop :=
  exists n : nat,
    (forall j : nat, (j < n)%nat ->
       get_total_width (num_pitch - Z.of_nat j) guard_ring_nf > num_pitch) /\
    get_total_width (num_pitch - Z.of_nat n) guard_ring_nf < num_pitch.

(** [get_total_width] is non-decreasing in the finger count. *)
Definition monotone_width (get_total_width : Z -> Z -> Z) (guard_ring_nf : Z) : Prop :=
  forall a b, a <= b -> get_total_width a guard_ring_nf <= get_total_width b guard_ring_nf.

(** [fg] is the largest finger count not above [num_pitch] whose total
    width is [num_pitch]. *)
Definition largest_exact (get_total_width : Z -> Z -> Z)
    (guard_ring_nf num_pitch fg : Z) : Prop :=
  fg <= num_pitch /\
  get_total_width fg guard_ring_nf = num_pitch /\
  forall k, k <= num_pitch -> get_total_width k guard_ring_nf = num_pitch -> k <= fg.

Section Helper.

Variable track_index : Type.
Variable grid : RoutingGrid.
Variable new_AnalogBaseInfo : Q -> Z -> AnalogBaseInfo.

Definition info_of (p : params track_index) : AnalogBaseInfo :=
  new_AnalogBaseInfo (lch _ p) (guard_ring_nf _ p).

(** [num_pitch = tot_width_unit // sd_pitch] *)
Definition num_pitch_of (p : params track_index) : Z :=
  tot_width_unit _ p / sd_pitch_unit (info_of p).

(** The helper raises [ValueError]. *)
Definition raises_ValueError (p : params track_index)
    (h : gmap positive (gmap string float)) : Prop :=
  exists fuel h',
    _draw_layout_helper track_index grid new_AnalogBaseInfo fuel p h
    = Some (Raise ValueError, h').

(** Both checks pass with finger count [fg], and the helper goes on to
    the EM specs and the drawing. *)
Definition proceeds_with (p : params track_index)
    (h : gmap positive (gmap string float)) (fg : Z) : Prop :=
  exists fuel,
    FingerCount.solve_fg_tot (get_total_width (info_of p)) fuel
      (tot_width_unit _ p) (sd_pitch_unit (info_of p)) (guard_ring_nf _ p)
    = Some (Ok fg) /\
    _draw_layout_helper track_index grid new_AnalogBaseInfo fuel p h
    = Some (tracks_from_em_specs track_index grid p (info_of p) fg h).

(** The two conditions under which the helper is said to raise. *)
Definition width_not_multiple (p : params track_index) : Prop :=
  not_multiple (tot_width_unit _ p) (sd_pitch_unit (info_of p)).

Definition width_not_reached (p : params track_index) : Prop :=
  search_ends_below (get_total_width (info_of p)) (guard_ring_nf _ p) (num_pitch_of p).

(** The reading "raises exactly under (a) or (b), and proceeds in all
    other cases". *)
Definition raises_iff_else_proceeds (p : params track_index)
    (h : gmap positive (gmap string float)) : Prop :=
  (raises_ValueError p h <-> width_not_multiple p \/ width_not_reached p) /\
  (~ (width_not_multiple p \/ width_not_reached p) -> exists fg, proceeds_with p h fg).

(** [d'] is [d] with the three current limits multiplied by [f] and
    every other entry as it was. *)
Definition scaled (d d' : gmap string float) (f : float) : Prop :=
  (forall key, key ∉ em_keys -> d' !! key = d !! key) /\
  (forall key, key ∈ em_keys -> d' !! key = (fun v => (v * f)%float) <$> d !! key).

(** The reading "each of the three keys is multiplied by
    [num_seg / cur_ratio = len(output_tracks) * fg_ref / fg]": whenever
    the helper reaches [draw_base], the reference specs are the input
    specs with the three limits multiplied by the value of
    [len(output_tracks) * fg_ref / fg]. *)
Definition scaled_by_product (fuel : nat) (p : params track_index)
    (h : gmap positive (gmap string float)) : Prop :=
  forall d r h',
    h !! em_specs _ p = Some d ->
    _draw_layout_helper track_index grid new_AnalogBaseInfo fuel p h = Some (Ok r, h') ->
    exists d' f,
      h' !! ref_em_specs r = Some d' /\
      py_int_truediv (Z.of_nat (length (output_tracks _ p)) * fg_ref _ p) (fg _ p) = Ok f /\
      scaled d d' f.

(** The layout values the helper derives from the input specs [d], the
    reference specs [d'] stored at [ref], and the finger count. *)
Definition layout_from (p : params track_index) (fg_tot : Z)
    (d d' : gmap string float) (ref : Store.loc) : base_layout :=
  let hm_layer := mconn_port_layer (info_of p) + 1 in
  let hm_width := get_min_track_width grid hm_layer None d in
  let hm_space := get_num_space_tracks grid hm_layer hm_width in
  let hm_width_ref := get_min_track_width grid hm_layer None d' in
  let hm_space_ref := get_num_space_tracks grid hm_layer hm_width_ref in
  let eff := Z.max (Z.max (input_space _ p) hm_space_ref) hm_space in
  {| fg_tot := fg_tot;
     hm_width := hm_width;
     hm_space := hm_space;
     vm_width := get_min_track_width grid (hm_layer + 1) (Some hm_width) d;
     ref_em_specs := ref;
     hm_width_ref := hm_width_ref;
     hm_space_ref := hm_space_ref;
     eff_input_space := eff;
     pw_list := [w _ p; w _ p; w _ p];
     pth_list := [threshold _ p; threshold _ p; threshold _ p];
     pg_tracks := [input_width _ p; eff + hm_width_ref + hm_space; input_width _ p];
     pds_tracks := [eff + hm_width; 2 * hm_width + hm_space + eff; eff + hm_width] |}.

End Helper.

End CoreSpec.

(** ** Statements about the pins and the output tracks *)

Module PinSpec.

Section Resistor.

Variable bot_layer_id : Z.
Variable w_tracks : Z * Z * Z * Z.

(** The exported bottom and top wires of the resistor in column [idx]. *)
Definition bot_wire (idx : Z) : warr :=
  LoadResistor._export_to_vm bot_layer_id w_tracks (ResPort 0 idx false).

Definition top_wire (idx : Z) : warr :=
  LoadResistor._export_to_vm bot_layer_id w_tracks (ResPort 0 idx true).

(** The pin of a dummy column, and the two pins of the [i]-th column that
    is not a dummy, which is column [i + ndum]. *)
Definition dummy_pin (show_pins : bool) (idx : Z) : pin :=
  {| pin_name := "dummy";
     pin_warr := ConnectWires [bot_wire idx; top_wire idx];
     pin_show := show_pins |}.

Definition bot_pin (ndum : Z) (show_pins : bool) (i : Z) : pin :=
  {| pin_name := indexed_name "bot" i;
     pin_warr := bot_wire (i + ndum);
     pin_show := show_pins |}.

Definition top_pin (ndum : Z) (show_pins : bool) (i : Z) : pin :=
  {| pin_name := indexed_name "top" i;
     pin_warr := top_wire (i + ndum);
     pin_show := show_pins |}.

End Resistor.

End PinSpec.

(** ** The lifetime of a CMLDriverPMOS object *)

Module DriverSpec.

Import CMLDriverPMOS.

Section Lifetime.

Variable track_index : Type.
Variable base_index : warr -> track_index.
Variable missing_port : result (list warr).
Variable bot_layer_id : Z.
Variable w_tracks : Z * Z * Z * Z.
Variable port_name : string.
Variable sub_warrs : list warr.
Variable grid : CMLCorePMOS.RoutingGrid.
Variable new_AnalogBaseInfo : Q -> Z -> CMLCorePMOS.AnalogBaseInfo.
Variable load_tot_width_unit : Z.
Variable load_height : Z.
Variable core_height : Z.

(** The states an object goes through: it is made by [__init__], and
    [draw_layout] (which is all [_draw_layout_helper] does) takes it to
    its next state whenever it returns. *)
Inductive reachable : state track_index -> Prop :=
| reachable_init : reachable (__init__ track_index)
| reachable_draw (fuel : nat) (p : params) (self self' : state track_index)
    (h h' : gmap positive (gmap string float))
    (tracks : list track_index) (core : CMLCorePMOS.base_layout) :
    reachable self ->
    draw_layout track_index base_index missing_port bot_layer_id w_tracks port_name
      sub_warrs grid new_AnalogBaseInfo load_tot_width_unit load_height core_height
      fuel p self h = Some (Ok (self', tracks, core), h') ->
    reachable self'.

End Lifetime.

End DriverSpec.

(** ** Sample inputs *)

Module Sample.

Import CMLCorePMOS.

(** Two edge columns on each side. *)
Definition info : AnalogBaseInfo :=
  {| sd_pitch_unit := 90;
     get_total_width := fun fg _ => fg + 4;
     mconn_port_layer := 3 |}.

(** A width that no finger count brings down to the pitch count. *)
Definition wide_info : AnalogBaseInfo :=
  {| sd_pitch_unit := 1;
     get_total_width := fun _ _ => 1;
     mconn_port_layer := 3 |}.

(** The least integer not below a finite float, and 0 for the others. *)
Definition float_ceil (f : float) : Z :=
  match FloatOps.Prim2SF f with
  | SpecFloat.S754_finite s m e =>
    let n := if s then Z.neg m else Z.pos m in
    if 0 <=? e then n * 2 ^ e else - ((- n) / 2 ^ (- e))
  | _ => 0
  end.

(** One track per ampere of direct current, at least one. *)
Definition grid : RoutingGrid :=
  {| get_min_track_width := fun _ _ specs =>
       Z.max 1 (float_ceil (default 0%float (specs !! "idc")));
     get_num_space_tracks := fun _ width => width |}.

Definition core_params (tot_width_unit : Z) : params Z :=
  {| lch := 16 # 1000000000;
     w := 4;
     fg := 4;
     fg_ref := 2;
     output_tracks := [10; 20; 30];
     em_specs := 1%positive;
     threshold := "ulvt";
     input_width := 1;
     input_space := 1;
     ntap_w := 6;
     guard_ring_nf := 0;
     tot_width_unit := tot_width_unit;
     show_pins := false |}.

Definition heap : gmap positive (gmap string float) :=
  {[ 1%positive := {[ "idc" := 2%float; "iac_rms" := 3%float; "dc_temp" := 70%float ]} ]}.

(** The helper on the sample inputs, with a total width of 20 pitches. *)
Definition run : option (result base_layout * gmap positive (gmap string float)) :=
  _draw_layout_helper Z grid (fun _ _ => info) 4 (core_params 1800) heap.

Definition empty_layout : base_layout :=
  {| fg_tot := 0; hm_width := 0; hm_space := 0; vm_width := 0;
     ref_em_specs := 1%positive; hm_width_ref := 0; hm_space_ref := 0;
     eff_input_space := 0; pw_list := []; pth_list := [];
     pg_tracks := []; pds_tracks := [] |}.

Definition layout : base_layout :=
  match run with
  | Some (Ok r, _) => r
  | _ => empty_layout
  end.

Definition heap_after : gmap positive (gmap string float) :=
  match run with
  | Some (_, h') => h'
  | None => heap
  end.

(** The column of the resistor port a wire was exported from. *)
Fixpoint port_col (w : warr) : Z :=
  match w with
  | ResPort _ col _ => col
  | ConnectToTracks ws _ =>
    match ws with
    | w' :: _ => port_col w'
    | [] => 0
    end
  | ConnectWires ws =>
    match ws with
    | w' :: _ => port_col w'
    | [] => 0
    end
  | SubPin _ => 0
  end.

(** A load of two resistors with one dummy on each side. *)
Definition load_run : result (CMLLoadSingle.state Z) :=
  CMLLoadSingle.draw_layout Z port_col (Raise KeyError) 4 (1, 1, 2, 2) "VSS"
    [SubPin 0] 2 1 true (CMLLoadSingle.__init__ Z).

Definition load_state : CMLLoadSingle.state Z :=
  match load_run with
  | Ok st => st
  | Raise _ => CMLLoadSingle.__init__ Z
  end.

(** A driver over that load, with the sample core. *)
Definition driver_params : CMLDriverPMOS.params :=
  {| CMLDriverPMOS.res :=
       {| CMLDriverPMOS.nx := 2; CMLDriverPMOS.ndum := 1;
          CMLDriverPMOS.em_specs := 1%positive |};
     CMLDriverPMOS.lch := 16 # 1000000000;
     CMLDriverPMOS.w := 4;
     CMLDriverPMOS.fg := 4;
     CMLDriverPMOS.fg_ref := 2;
     CMLDriverPMOS.threshold := "ulvt";
     CMLDriverPMOS.input_width := 1;
     CMLDriverPMOS.input_space := 1;
     CMLDriverPMOS.ntap_w := 6;
     CMLDriverPMOS.guard_ring_nf := 0;
     CMLDriverPMOS.show_pins := true |}.

Definition driver_draw (self : CMLDriverPMOS.state Z) :=
  CMLDriverPMOS.draw_layout Z port_col (Raise KeyError) 4 (1, 1, 2, 2) "VSS"
    [SubPin 0] grid (fun _ _ => info) 1800 500 700 4 driver_params self heap.

Definition driver_state : CMLDriverPMOS.state Z :=
  match driver_draw (CMLDriverPMOS.__init__ Z) with
  | Some (Ok (self', _, _), _) => self'
  | _ => CMLDriverPMOS.__init__ Z
  end.

Definition driver_tracks : list Z :=
  match driver_draw (CMLDriverPMOS.__init__ Z) with
  | Some (Ok (_, tracks, _), _) => tracks
  | _ => []
  end.

Definition driver_core : CMLCorePMOS.base_layout :=
  match driver_draw (CMLDriverPMOS.__init__ Z) with
  | Some (Ok (_, _, core), _) => core
  | _ => empty_layout
  end.

Definition driver_heap_after : gmap positive (gmap string float) :=
  match driver_draw (CMLDriverPMOS.__init__ Z) with
  | Some (_, h') => h'
  | None => heap
  end.

End Sample.

(** ** CMLCorePMOS: track ids, transistors and pins

    The second half of [_draw_layout_helper], after [draw_base]: the
    track ids, the loop over the output tracks, and the pins. *)

Module CoreDraw.

(** One [draw_mos_conn(mos_type, row, col, fg, sdir, ddir, diode_conn=...)]. *)
Record mos_conn : Type := {
  mos_type : string;
  mos_row : Z;
  mos_col : Z;
  mos_fg : Z;
  mos_sdir : Z;
  mos_ddir : Z;
  diode_conn : bool;
}.

(** One [make_track_id(mos_type, row, kind, index, width=...)]; the index
    is computed with a true division. *)
Record row_tid : Type := {
  tid_mos_type : string;
  tid_row : Z;
  tid_kind : string;
  tid_index : Q;
  tid_width : Z;
}.

(** The wires of this half, by the framework call that made them. *)
#[warnings="-register-all"]
Inductive wire (track_index : Type) : Type :=
| MosPort (m : mos_conn) (port : string)
    (** [m['g']], [m['d']] or [m['s']] *)
| OnRowTrack (ws : list (wire track_index)) (tid : row_tid)
    (** [connect_to_tracks(ws, tid)] on a track of a transistor row *)
| OnVmTrack (w : wire track_index) (vm_layer : Z) (vm_idx : track_index)
    (vm_width : Z) (min_len_mode : option Z)
    (** [connect_to_tracks(w, TrackID(vm_layer, vm_idx, width=vm_width))] *)
| PTaps
| NTaps.
    (** the two results of [fill_dummy()] *)

Arguments MosPort {track_index} m port.
Arguments OnRowTrack {track_index} ws tid.
Arguments OnVmTrack {track_index} w vm_layer vm_idx vm_width min_len_mode.
Arguments PTaps {track_index}.
Arguments NTaps {track_index}.

Section Draw.

Variable track_index : Type.
(** [self.grid.track_to_coord(vm_layer, vm_idx, unit_mode=True)] and
    [layout_info.coord_to_col(x_coord, unit_mode=True)]. *)
Variable track_to_coord : Z -> track_index -> Z.
Variable coord_to_col : Z -> Z.

(** One [add_pin(name, wire, show=...)]. *)
Record cpin : Type := {
  cpin_name : string;
  cpin_wire : wire track_index;
  cpin_show : bool;
}.

(** The seven track ids. *)
Record track_ids : Type := {
  outp_tid : row_tid;
  outn_tid : row_tid;
  vdd_tid : row_tid;
  tail_tid : row_tid;
  inp_tid : row_tid;
  inn_tid : row_tid;
  bias_tid : row_tid;
}.

Definition make_track_id (row : Z) (kind : string) (index : Q) (width : Z) : row_tid :=
  {| tid_mos_type := "pch"; tid_row := row; tid_kind := kind;
     tid_index := index; tid_width := width |}.

(** Lines 385-391; [input_space] is the widened one. *)
Definition compute_track_ids (input_width : Z) (r : CMLCorePMOS.base_layout) : track_ids :=
  let hm_width := CMLCorePMOS.hm_width r in
  let hm_space := CMLCorePMOS.hm_space r in
  let hm_width_ref := CMLCorePMOS.hm_width_ref r in
  let input_space := CMLCorePMOS.eff_input_space r in
  {| outp_tid := make_track_id 2 "ds"
       (inject_Z (hm_width - 1) / 2 + inject_Z input_space) hm_width;
     outn_tid := make_track_id 0 "ds"
       (inject_Z (hm_width - 1) / 2 + inject_Z input_space) hm_width;
     vdd_tid := make_track_id 1 "ds" (inject_Z (hm_width - 1) / 2) hm_width;
     tail_tid := make_track_id 1 "ds"
       (inject_Z (hm_width - 1) / 2 + inject_Z hm_width + inject_Z hm_space) hm_width;
     inp_tid := make_track_id 0 "g" (inject_Z (input_width - 1) / 2) input_width;
     inn_tid := make_track_id 2 "g" (inject_Z (input_width - 1) / 2) input_width;
     bias_tid := make_track_id 1 "g"
       (inject_Z input_space + inject_Z (hm_width_ref - 1) / 2) hm_width_ref |}%Q.

(** What the loop has drawn and collected so far. *)
Record drawing : Type := {
  draws : list mos_conn;
  pins : list cpin;
  inp_list : list (wire track_index);
  inn_list : list (wire track_index);
  tail_list : list (wire track_index);
  bias_list : list (wire track_index);
  vdd_h_list : list (wire track_index);
  outp_list : list (wire track_index);
  outn_list : list (wire track_index);
}.

Definition empty_drawing : drawing :=
  {| draws := []; pins := []; inp_list := []; inn_list := []; tail_list := [];
     bias_list := []; vdd_h_list := []; outp_list := []; outn_list := [] |}.

Definition draw_mos_conn (row col fg sdir ddir : Z) (diode : bool) : mos_conn :=
  {| mos_type := "pch"; mos_row := row; mos_col := col; mos_fg := fg;
     mos_sdir := sdir; mos_ddir := ddir; diode_conn := diode |}.

(** The four transistors of the segment centred on column [col_center]. *)
Definition segment_conns (fg fg_ref col_center : Z) : list mos_conn :=
  let col_idx := col_center - fg / 2 in
  [ draw_mos_conn 2 col_idx fg 0 2 false;
    draw_mos_conn 1 col_idx fg 1 1 false;
    draw_mos_conn 0 col_idx fg 2 0 false;
    draw_mos_conn 1 (col_idx + fg) fg_ref 1 1 true ].

(** One round of [for idx, vm_idx in enumerate(output_tracks)]. *)
Definition draw_segment (fg fg_ref vm_layer vm_width : Z) (show_pins : bool)
    (tids : track_ids) (st : drawing) (item : Z * track_index) : drawing :=
  let '(idx, vm_idx) := item in
  let x_coord := track_to_coord vm_layer vm_idx in
  let col_center := coord_to_col x_coord in
  let col_idx := col_center - fg / 2 in
  let mtop := draw_mos_conn 2 col_idx fg 0 2 false in
  let mmid := draw_mos_conn 1 col_idx fg 1 1 false in
  let mbot := draw_mos_conn 0 col_idx fg 2 0 false in
  let mref := draw_mos_conn 1 (col_idx + fg) fg_ref 1 1 true in
  let outp_h := OnRowTrack [MosPort mtop "d"] (outp_tid tids) in
  let outn_h := OnRowTrack [MosPort mbot "d"] (outn_tid tids) in
  let vdd_h := OnRowTrack [MosPort mmid "d"] (vdd_tid tids) in
  {| draws := draws st ++ [mtop; mmid; mbot; mref];
     pins := pins st ++
       [ {| cpin_name := indexed_name "outp" idx;
            cpin_wire := OnVmTrack outp_h vm_layer vm_idx vm_width None;
            cpin_show := show_pins |};
         {| cpin_name := indexed_name "outn" idx;
            cpin_wire := OnVmTrack outn_h vm_layer vm_idx vm_width None;
            cpin_show := show_pins |};
         {| cpin_name := indexed_name "VDD" idx;
            cpin_wire := OnVmTrack vdd_h vm_layer vm_idx vm_width (Some 0);
            cpin_show := show_pins |} ];
     inp_list := inp_list st ++ [MosPort mbot "g"];
     inn_list := inn_list st ++ [MosPort mtop "g"];
     tail_list := tail_list st ++ [MosPort mtop "s"; MosPort mbot "s"; MosPort mmid "s"];
     bias_list := bias_list st ++ [MosPort mmid "g"; MosPort mref "g"];
     vdd_h_list := vdd_h_list st ++ [vdd_h];
     outp_list := outp_list st ++ [outp_h];
     outn_list := outn_list st ++ [outn_h] |}.

(** [enumerate(xs)] *)
Definition enumerate {A : Type} (xs : list A) : list (Z * A) :=
  zip (seqZ 0 (Z.of_nat (length xs))) xs.

(** What the half leaves behind: the transistors drawn, the pins in the
    order they were added, the wire lists joined by [connect_wires], and
    the tail connection. *)
Record core_drawing : Type := {
  mos_conns : list mos_conn;
  core_pins : list cpin;
  joined : list (list (wire track_index));
  tail_wire : wire track_index;
}.

(** Lines 384-440. *)
Definition draw_transistors (p : CMLCorePMOS.params track_index)
    (mconn_port_layer : Z) (r : CMLCorePMOS.base_layout) : core_drawing :=
  let fg := CMLCorePMOS.fg _ p in
  let fg_ref := CMLCorePMOS.fg_ref _ p in
  let show_pins := CMLCorePMOS.show_pins _ p in
  let vm_layer := mconn_port_layer + 1 + 1 in
  let tids := compute_track_ids (CMLCorePMOS.input_width _ p) r in
  let st :=
    fold_left (draw_segment fg fg_ref vm_layer (CMLCorePMOS.vm_width r) show_pins tids)
      (enumerate (CMLCorePMOS.output_tracks _ p)) empty_drawing in
  {| mos_conns := draws st;
     core_pins := pins st ++
       [ {| cpin_name := "inp"; cpin_wire := OnRowTrack (inp_list st) (inp_tid tids);
            cpin_show := show_pins |};
         {| cpin_name := "inn"; cpin_wire := OnRowTrack (inn_list st) (inn_tid tids);
            cpin_show := show_pins |};
         {| cpin_name := "ibias"; cpin_wire := OnRowTrack (bias_list st) (bias_tid tids);
            cpin_show := show_pins |};
         {| cpin_name := "VSS"; cpin_wire := PTaps; cpin_show := show_pins |};
         {| cpin_name := "VDD"; cpin_wire := NTaps; cpin_show := show_pins |} ];
     joined := [vdd_h_list st; outp_list st; outn_list st];
     tail_wire := OnRowTrack (tail_list st) (tail_tid tids) |}.

(** The lowest and the highest track covered by a wire that is [width]
    tracks wide and centred on track [index]. *)
Definition tid_lower (t : row_tid) : Q := (tid_index t - inject_Z (tid_width t - 1) / 2)%Q.
Definition tid_upper (t : row_tid) : Q := (tid_index t + inject_Z (tid_width t - 1) / 2)%Q.

(** The columns [col, col + fg) a transistor takes. *)
Definition covers (m : mos_conn) (c : Z) : Prop := mos_col m <= c < mos_col m + mos_fg m.

(** The names of the three pins of segment [i]. *)
Definition segment_names (i : Z) : list string :=
  [indexed_name "outp" i; indexed_name "outn" i; indexed_name "VDD" i].

End Draw.

End CoreDraw.

(** ** The script test_scripts/analogbase.py *)

Module AnalogBaseScript.

Import Serdes.

(** The entries of [specs['routing_grid']]. *)
Record grid_specs : Type := {
  layers : pyval;
  spaces : pyval;
  widths : pyval;
  bot_dir : pyval;
}.

(** The entries of [specs] the script reads: [params] is the address of
    the parameter dictionary, [lch] and [top_layer] are sequences. *)
Record specs : Type := {
  routing_grid : grid_specs;
  params : positive;
  lch : list pyval;
  top_layer : list pyval;
}.

(** The calls into the framework.  A template is made from the
    dictionary at an address; the call records what it holds then. *)
Inductive call : Type :=
| NewRoutingGrid (layers spaces widths bot_dir : pyval)
| NewTemplateDB (lib_defs target_lib : string) (use_cybagoa : bool)
| NewTemplate (temp_cls : string) (params : positive) (content : gmap string pyval)
| BatchLayout (temps : list positive) (names : list string).

(** [a, b = xs] *)
Definition unpack2 (xs : list pyval) : result (pyval * pyval) :=
  match xs with
  | [a; b] => Ok (a, b)
  | _ => Raise ValueError
  end.

(** [d.copy()] for a dictionary of parameters. *)
Definition copy_params (l : positive) (h : gmap positive (gmap string pyval))
  : positive * gmap positive (gmap string pyval) :=
  let l' := fresh (dom h) in (l', <[l' := h !!! l]> h).

(** [d[key] = v] *)
Definition set_param (l : positive) (key : string) (v : pyval)
    (h : gmap positive (gmap string pyval)) : gmap positive (gmap string pyval) :=
  <[l := <[key := v]> (h !!! l)]> h.

(** [make_tdb(prj, target_lib, specs)] *)
Definition make_tdb (target_lib : string) (s : specs) : list call :=
  let grid_specs := routing_grid s in
  [ NewRoutingGrid (layers grid_specs) (spaces grid_specs) (widths grid_specs)
      (bot_dir grid_specs);
    NewTemplateDB "template_libs.def" target_lib true ].

(** [generate(prj, specs)]: the calls made, how it ends, and the heap it
    leaves. *)
Definition generate (s : specs) (h : gmap positive (gmap string pyval))
  : list call * result unit * gmap positive (gmap string pyval) :=
  let lib_name := "AAAFOO_ANALOGBASE" in
  match unpack2 (lch s) with
  | Raise e => ([], Raise e, h)
  | Ok (lch1, lch2) =>
    match unpack2 (top_layer s) with
    | Raise e => ([], Raise e, h)
    | Ok (top_lay1, top_lay2) =>
      let tdb_calls := make_tdb lib_name s in
      let '(params1, h) := copy_params (params s) h in
      let h := set_param params1 "lch" lch1 h in
      let h := set_param params1 "top_layer" top_lay1 h in
      let temp1 := NewTemplate "AmpBase" params1 (h !!! params1) in
      let '(params2, h) := copy_params params1 h in
      let h := set_param params2 "lch" lch2 h in
      let h := set_param params2 "top_layer" top_lay2 h in
      let temp2 := NewTemplate "AmpBase" params2 (h !!! params2) in
      (tdb_calls ++ [temp1; temp2;
                     BatchLayout [params1; params2]
                       ["ANALOGBASE_TEST1"; "ANALOGBASE_TEST2"]],
       Ok tt, h)
    end
  end.

(** Sample specs. *)
Definition sample_specs : specs :=
  {| routing_grid :=
       {| layers := PyList (PyInt <$> [4; 5; 6]);
          spaces := PyList [PyFloat (84 # 1000); PyFloat (80 # 1000); PyFloat (84 # 1000)];
          widths := PyList [PyFloat (60 # 1000); PyFloat (100 # 1000); PyFloat (60 # 1000)];
          bot_dir := PyStr "x" |};
     params := 1%positive;
     lch := [PyFloat (16 # 1000000000); PyFloat (20 # 1000000000)];
     top_layer := [PyInt 5; PyInt 6] |}.

Definition sample_heap : gmap positive (gmap string pyval) :=
  {[ 1%positive := {[ "fg_tot" := PyInt 16; "guard_ring_nf" := PyInt 0;
                      "lch" := PyFloat (1 # 1) ]} ]}.

End AnalogBaseScript.

(** ** Statements about the pins of the load *)

Module LoadSpec.

(** The pin that ties wire [w] of the resistor array to the substrate. *)
Definition sub_pin (port_name : string) (sub_warrs : list warr) (show_pins : bool)
    (w : warr) : pin :=
  {| pin_name := port_name;
     pin_warr := ConnectToTracks sub_warrs (TrackIdOf w);
     pin_show := show_pins |}.

End LoadSpec.

(** ** More sample inputs *)

Module MoreSamples.

Import CMLCorePMOS.

(** The sample core with other finger counts. *)
Definition core_params_fg (fg fg_ref : Z) : params Z :=
  {| lch := 16 # 1000000000;
     w := 4;
     fg := fg;
     fg_ref := fg_ref;
     output_tracks := [10; 20; 30];
     em_specs := 1%positive;
     threshold := "ulvt";
     input_width := 1;
     input_space := 1;
     ntap_w := 6;
     guard_ring_nf := 0;
     tot_width_unit := 1800;
     show_pins := false |}.

(** EM specs without a current limit, and EM specs that name [bot_w]. *)
Definition heap_no_currents : gmap positive (gmap string float) :=
  {[ 1%positive := {[ "dc_temp" := 70%float ]} ]}.

Definition heap_bot_w : gmap positive (gmap string float) :=
  {[ 1%positive := {[ "bot_w" := 2%float; "idc" := 1%float ]} ]}.

(** EM specs with a direct current limit of 5. *)
Definition heap_idc5 : gmap positive (gmap string float) :=
  {[ 1%positive := {[ "idc" := 5%float ]} ]}.

Definition run_on (fg fg_ref : Z) (h : gmap positive (gmap string float))
  : option (result base_layout * gmap positive (gmap string float)) :=
  _draw_layout_helper Z Sample.grid (fun _ _ => Sample.info) 4 (core_params_fg fg fg_ref) h.

Definition layout_on (fg fg_ref : Z) (h : gmap positive (gmap string float)) : base_layout :=
  match run_on fg fg_ref h with
  | Some (Ok r, _) => r
  | _ => Sample.empty_layout
  end.

Definition heap_on (fg fg_ref : Z) (h : gmap positive (gmap string float))
  : gmap positive (gmap string float) :=
  match run_on fg fg_ref h with
  | Some (_, h') => h'
  | None => h
  end.

End MoreSamples.

(** * Properties *)

(** ** The finger-count search *)

Section SearchFacts.

Import FingerCount.

Variable get_total_width : Z -> Z -> Z.
Variable guard_ring_nf : Z.
Variable num_pitch : Z.

Abbreviation cond := (loop_cond num_pitch).
Abbreviation body := (loop_body get_total_width guard_ring_nf).
Abbreviation while := (while_loop get_total_width guard_ring_nf num_pitch).
Abbreviation width fg := (get_total_width fg guard_ring_nf).

(** Each run of the body takes one from [fg_tot]. *)
Lemma state_after_eq (n : nat) :
  state_after get_total_width guard_ring_nf num_pitch n
  = (num_pitch - Z.of_nat n, width (num_pitch - Z.of_nat n)).
Proof.
  unfold state_after. induction n as [|n IH].
  - cbn. unfold loop_init. by rewrite Z.sub_0_r.
  - rewrite Nat.iter_succ, IH. unfold loop_body. cbn [fst].
    replace (num_pitch - Z.of_nat n - 1) with (num_pitch - Z.of_nat (S n)) by lia.
    done.
Qed.

Lemma loop_cond_after (n : nat) :
  cond (state_after get_total_width guard_ring_nf num_pitch n) = true
  <-> width (num_pitch - Z.of_nat n) > num_pitch.
Proof.
  rewrite state_after_eq. unfold loop_cond. cbn [snd].
  rewrite Z.gtb_ltb, Z.ltb_lt. lia.
Qed.

(** The loop leaves after [n] rounds when the condition fails there for
    the first time. *)
Lemma while_loop_exit (n fuel : nat) (st : Z * Z) :
  (forall j, (j < n)%nat -> cond (Nat.iter j body st) = true) ->
  cond (Nat.iter n body st) = false ->
  (n <= fuel)%nat ->
  while fuel st = Some (Nat.iter n body st).
Proof.
  revert fuel st. induction n as [|n IH]; intros fuel st Hlt Hn Hfuel.
  - cbn in Hn |- *. destruct fuel; cbn; by rewrite Hn.
  - destruct fuel as [|fuel]; [lia|].
    cbn [while_loop]. pose proof (Hlt 0%nat ltac:(lia)) as H0. cbn in H0. rewrite H0.
    rewrite Nat.iter_succ_r. apply IH; [| by rewrite <- Nat.iter_succ_r | lia].
    intros j Hj. rewrite <- Nat.iter_succ_r. apply Hlt. lia.
Qed.

(** It is still running while the condition has held throughout. *)
Lemma while_loop_running (fuel : nat) (st : Z * Z) :
  (forall j, (j <= fuel)%nat -> cond (Nat.iter j body st) = true) ->
  while fuel st = None.
Proof.
  revert st. induction fuel as [|fuel IH]; intros st Hall.
  - pose proof (Hall 0%nat ltac:(lia)) as H0. cbn in H0. cbn. by rewrite H0.
  - pose proof (Hall 0%nat ltac:(lia)) as H0. cbn in H0.
    cbn [while_loop]. rewrite H0. apply IH.
    intros j Hj. rewrite <- Nat.iter_succ_r. apply Hall. lia.
Qed.

Lemma while_loop_Some (fuel : nat) (st st' : Z * Z) :
  while fuel st = Some st' ->
  exists n, (n <= fuel)%nat /\ st' = Nat.iter n body st /\
    cond st' = false /\
    forall j, (j < n)%nat -> cond (Nat.iter j body st) = true.
Proof.
  revert st. induction fuel as [|fuel IH]; intros st; cbn [while_loop];
    destruct (cond st) eqn:Hc; intros H; try discriminate.
  - injection H as <-. exists 0%nat. repeat split; [lia | done | lia].
  - destruct (IH _ H) as (n & Hn & -> & Hex & Hlt). exists (S n).
    rewrite Nat.iter_succ_r. repeat split; [lia | done |].
    intros [|j] Hj; [done|]. rewrite Nat.iter_succ_r. apply Hlt. lia.
  - injection H as <-. exists 0%nat. repeat split; [lia | done | lia].
Qed.

(** The first index at which a decidable property holds. *)
Lemma first_index_or_none (P : nat -> bool) (n0 : nat) :
  (exists n, (n <= n0)%nat /\ P n = true /\ forall j, (j < n)%nat -> P j = false)
  \/ (forall j, (j <= n0)%nat -> P j = false).
Proof.
  induction n0 as [|n0 [(n & Hn & HP & Hlt)|Hnone]].
  - destruct (P 0%nat) eqn:E.
    + left. exists 0%nat. repeat split; [lia | done | lia].
    + right. intros j Hj. by replace j with 0%nat by lia.
  - left. exists n. repeat split; [lia | done | done].
  - destruct (P (S n0)) eqn:E.
    + left. exists (S n0). repeat split; [lia | done |].
      intros j Hj. apply Hnone. lia.
    + right. intros j Hj. destruct (decide (j = S n0)) as [->|]; [done|].
      apply Hnone. lia.
Qed.

Lemma first_index (P : nat -> bool) (n0 : nat) :
  P n0 = true ->
  exists n, (n <= n0)%nat /\ P n = true /\ forall j, (j < n)%nat -> P j = false.
Proof.
  intros Hn0. destruct (first_index_or_none P n0) as [H|Hnone]; [done|].
  rewrite Hnone in Hn0 by lia. discriminate.
Qed.

(** The search leaves at the first finger count, going down from
    [num_pitch], whose width does not exceed [num_pitch]. *)
Lemma search_exit (n : nat) :
  (forall j, (j < n)%nat -> width (num_pitch - Z.of_nat j) > num_pitch) ->
  width (num_pitch - Z.of_nat n) <= num_pitch ->
  (forall fuel, (n <= fuel)%nat ->
     search get_total_width guard_ring_nf num_pitch fuel
     = Some (num_pitch - Z.of_nat n, width (num_pitch - Z.of_nat n))) /\
  (forall fuel, (fuel < n)%nat ->
     search get_total_width guard_ring_nf num_pitch fuel = None).
Proof.
  intros Hlt Hn. split; intros fuel Hfuel; unfold search.
  - rewrite <- state_after_eq. apply while_loop_exit; [| | done].
    + intros j Hj. apply loop_cond_after. auto.
    + apply not_true_is_false. intros Hc.
      change (cond (state_after get_total_width guard_ring_nf num_pitch n) = true) in Hc.
      apply loop_cond_after in Hc. lia.
  - apply while_loop_running. intros j Hj. apply loop_cond_after. apply Hlt. lia.
Qed.

Lemma search_Some (fuel : nat) (fg_tot cur_width : Z) :
  search get_total_width guard_ring_nf num_pitch fuel = Some (fg_tot, cur_width) ->
  exists n, (n <= fuel)%nat /\ fg_tot = num_pitch - Z.of_nat n /\
    cur_width = width fg_tot /\ cur_width <= num_pitch /\
    forall j, (j < n)%nat -> width (num_pitch - Z.of_nat j) > num_pitch.
Proof.
  unfold search. intros H.
  destruct (while_loop_Some _ _ _ H) as (n & Hn & Hst & Hex & Hlt).
  fold (state_after get_total_width guard_ring_nf num_pitch n) in Hst.
  rewrite state_after_eq in Hst. injection Hst as -> ->.
  exists n. repeat split; [done | |].
  - unfold loop_cond in Hex. cbn [snd] in Hex. rewrite Z.gtb_ltb, Z.ltb_ge in Hex. lia.
  - intros j Hj. apply loop_cond_after. apply Hlt. done.
Qed.

(** Some finger count at or below [num_pitch] is narrow enough exactly
    when there is a first one. *)
Lemma first_narrow (m : Z) :
  m <= num_pitch -> width m <= num_pitch ->
  exists n : nat, Z.of_nat n <= num_pitch - m /\
    width (num_pitch - Z.of_nat n) <= num_pitch /\
    forall j, (j < n)%nat -> width (num_pitch - Z.of_nat j) > num_pitch.
Proof.
  intros Hm Hw.
  destruct (first_index (fun j => width (num_pitch - Z.of_nat j) <=? num_pitch)
              (Z.to_nat (num_pitch - m))) as (n & Hn & HP & Hlt).
  - apply Z.leb_le. rewrite Z2Nat.id by lia.
    replace (num_pitch - (num_pitch - m)) with m by lia. done.
  - exists n. apply Z.leb_le in HP. repeat split; [lia | done |].
    intros j Hj. specialize (Hlt j Hj). apply Z.leb_gt in Hlt. lia.
Qed.

Lemma search_never (fuel : nat) :
  (forall m, m <= num_pitch -> width m > num_pitch) ->
  search get_total_width guard_ring_nf num_pitch fuel = None.
Proof.
  intros Hall. unfold search. apply while_loop_running.
  intros j _. apply loop_cond_after. apply Hall. lia.
Qed.

End SearchFacts.

(** C3: termination of the finger-count search.  If some finger count [m]
    at or below [num_pitch] has a total width of at most [num_pitch], the
    while loop leaves after some number [n] of rounds: [fg_tot] has gone
    down by one in each round, the loop stops at [num_pitch - n], which is
    not below [m], it has stopped for every fuel of at least [n] and not
    before.  If there is no such [m] the loop never leaves, whatever the
    fuel. *)
Theorem search_terminates_iff_narrow (get_total_width : Z -> Z -> Z)
    (guard_ring_nf num_pitch : Z) :
  (forall m, m <= num_pitch -> get_total_width m guard_ring_nf <= num_pitch ->
     exists n : nat,
       m <= num_pitch - Z.of_nat n /\
       (forall j : nat, (j <= n)%nat ->
          FingerCount.state_after get_total_width guard_ring_nf num_pitch j
          = (num_pitch - Z.of_nat j,
             get_total_width (num_pitch - Z.of_nat j) guard_ring_nf)) /\
       (forall fuel, (n <= fuel)%nat ->
          FingerCount.search get_total_width guard_ring_nf num_pitch fuel
          = Some (num_pitch - Z.of_nat n,
                  get_total_width (num_pitch - Z.of_nat n) guard_ring_nf)) /\
       (forall fuel, (fuel < n)%nat ->
          FingerCount.search get_total_width guard_ring_nf num_pitch fuel = None))
  /\
  ((~ exists m, m <= num_pitch /\ get_total_width m guard_ring_nf <= num_pitch) ->
     forall fuel,
       FingerCount.search get_total_width guard_ring_nf num_pitch fuel = None).
Proof.
  split.
  - intros m Hm Hw.
    destruct (first_narrow get_total_width guard_ring_nf num_pitch m Hm Hw)
      as (n & Hn & Hex & Hlt).
    destruct (search_exit get_total_width guard_ring_nf num_pitch n Hlt Hex)
      as [Hdone Hnot].
    exists n. repeat split; [lia | | done | done].
    intros j _. apply state_after_eq.
  - intros Hno fuel. apply search_never. intros m Hm.
    destruct (Z_le_gt_dec (get_total_width m guard_ring_nf) num_pitch); [|done].
    destruct Hno. eauto.
Qed.

Lemma search_terminates_iff_narrow_witness :
  (exists n : nat,
     16 <= 20 - Z.of_nat n /\
     (forall j : nat, (j <= n)%nat ->
        FingerCount.state_after (fun fg _ => fg + 4) 0 20 j
        = (20 - Z.of_nat j, 20 - Z.of_nat j + 4)) /\
     (forall fuel, (n <= fuel)%nat ->
        FingerCount.search (fun fg _ => fg + 4) 0 20 fuel
        = Some (20 - Z.of_nat n, 20 - Z.of_nat n + 4)) /\
     (forall fuel, (fuel < n)%nat ->
        FingerCount.search (fun fg _ => fg + 4) 0 20 fuel = None))
  /\
  (forall fuel, FingerCount.search (fun _ _ => 1) 0 0 fuel = None).
Proof.
  split.
  - apply (proj1 (search_terminates_iff_narrow (fun fg _ => fg + 4) 0 20) 16); lia.
  - apply (proj2 (search_terminates_iff_narrow (fun _ _ => 1) 0 0)).
    intros (m & Hm & Hw). lia.
Defined.

(** ** The two checks of the helper *)

Section SolveFacts.

Import FingerCount.

Variable get_total_width : Z -> Z -> Z.
Variable tot_width_unit sd_pitch guard_ring_nf : Z.
Hypothesis sd_pitch_nonzero : sd_pitch <> 0.

Abbreviation np := (tot_width_unit / sd_pitch).

Lemma solve_fg_tot_not_multiple (fuel : nat) :
  tot_width_unit mod sd_pitch <> 0 ->
  solve_fg_tot get_total_width fuel tot_width_unit sd_pitch guard_ring_nf
  = Some (Raise ValueError).
Proof.
  intros Hmod. unfold solve_fg_tot, py_mod.
  destruct (Z.eqb_spec sd_pitch 0) as [|_]; [done|].
  destruct (Z.eqb_spec (tot_width_unit mod sd_pitch) 0); [done|]. done.
Qed.

Lemma solve_fg_tot_multiple (fuel : nat) :
  tot_width_unit mod sd_pitch = 0 ->
  solve_fg_tot get_total_width fuel tot_width_unit sd_pitch guard_ring_nf
  = match search get_total_width guard_ring_nf np fuel with
    | None => None
    | Some (fg_tot, cur_width) =>
      if cur_width =? np then Some (Ok fg_tot) else Some (Raise ValueError)
    end.
Proof.
  intros Hmod. unfold solve_fg_tot, py_mod, py_floordiv.
  destruct (Z.eqb_spec sd_pitch 0) as [|_]; [done|].
  rewrite Hmod. cbn.
  destruct (search _ _ _ _) as [[fg_tot cur_width]|]; [|done].
  by destruct (cur_width =? np).
Qed.

Lemma not_multiple_mod :
  CoreSpec.not_multiple tot_width_unit sd_pitch <-> tot_width_unit mod sd_pitch <> 0.
Proof.
  unfold CoreSpec.not_multiple.
  rewrite (Z.mod_divide _ _ sd_pitch_nonzero). done.
Qed.

(** The checks raise [ValueError] exactly under (a) or (b). *)
Lemma solve_fg_tot_ValueError :
  (exists fuel,
     solve_fg_tot get_total_width fuel tot_width_unit sd_pitch guard_ring_nf
     = Some (Raise ValueError))
  <-> CoreSpec.not_multiple tot_width_unit sd_pitch
      \/ CoreSpec.search_ends_below get_total_width guard_ring_nf np.
Proof.
  rewrite not_multiple_mod. split.
  - intros [fuel H].
    destruct (decide (tot_width_unit mod sd_pitch = 0)) as [Hmod|]; [|by left].
    right. rewrite (solve_fg_tot_multiple _ Hmod) in H.
    destruct (search _ _ _ _) as [[fg_tot cur_width]|] eqn:Hs; [|done].
    destruct (Z.eqb_spec cur_width np) as [|Hne]; [done|].
    destruct (search_Some _ _ _ _ _ _ Hs) as (n & _ & -> & -> & Hle & Hlt).
    exists n. split; [done | lia].
  - intros [Hmod|(n & Hlt & Hn)].
    + exists 0%nat. by apply solve_fg_tot_not_multiple.
    + destruct (decide (tot_width_unit mod sd_pitch = 0)) as [Hmod|Hmod].
      * exists n. rewrite (solve_fg_tot_multiple _ Hmod).
        destruct (search_exit get_total_width guard_ring_nf np n Hlt ltac:(lia))
          as [Hdone _].
        rewrite (Hdone n) by lia.
        destruct (Z.eqb_spec (get_total_width (np - Z.of_nat n) guard_ring_nf) np);
          [lia | done].
      * exists 0%nat. by apply solve_fg_tot_not_multiple.
Qed.

(** When the checks pass, the finger count is the first one, going
    down from [num_pitch], whose width is [num_pitch]. *)
Lemma solve_fg_tot_Ok (fuel : nat) (fg : Z) :
  solve_fg_tot get_total_width fuel tot_width_unit sd_pitch guard_ring_nf = Some (Ok fg) ->
  tot_width_unit mod sd_pitch = 0 /\
  fg <= np /\
  get_total_width fg guard_ring_nf = np /\
  forall k, fg < k <= np -> get_total_width k guard_ring_nf > np.
Proof.
  intros H.
  destruct (decide (tot_width_unit mod sd_pitch = 0)) as [Hmod|Hmod];
    [|by rewrite solve_fg_tot_not_multiple in H].
  rewrite (solve_fg_tot_multiple _ Hmod) in H.
  destruct (search _ _ _ _) as [[fg_tot cur_width]|] eqn:Hs; [|done].
  destruct (Z.eqb_spec cur_width np) as [Heq|]; [|done]. injection H as ->.
  destruct (search_Some _ _ _ _ _ _ Hs) as (n & _ & -> & Hw & _ & Hlt).
  repeat split; [done | lia | congruence |].
  intros k Hk. replace k with (np - Z.of_nat (Z.to_nat (np - k))) by lia.
  apply Hlt. lia.
Qed.

(** The checks pass as soon as the search meets a width of exactly
    [num_pitch] first. *)
Lemma solve_fg_tot_passes (n : nat) :
  tot_width_unit mod sd_pitch = 0 ->
  (forall j : nat, (j < n)%nat ->
     get_total_width (np - Z.of_nat j) guard_ring_nf > np) ->
  get_total_width (np - Z.of_nat n) guard_ring_nf = np ->
  forall fuel, (n <= fuel)%nat ->
    solve_fg_tot get_total_width fuel tot_width_unit sd_pitch guard_ring_nf
    = Some (Ok (np - Z.of_nat n)).
Proof.
  intros Hmod Hlt Hn fuel Hfuel. rewrite (solve_fg_tot_multiple _ Hmod).
  destruct (search_exit get_total_width guard_ring_nf np n Hlt ltac:(lia)) as [Hdone _].
  rewrite (Hdone fuel) by done.
  rewrite Hn. by rewrite Z.eqb_refl.
Qed.

Lemma solve_fg_tot_never :
  tot_width_unit mod sd_pitch = 0 ->
  (forall m, m <= np -> get_total_width m guard_ring_nf > np) ->
  forall fuel,
    solve_fg_tot get_total_width fuel tot_width_unit sd_pitch guard_ring_nf = None.
Proof.
  intros Hmod Hall fuel. rewrite (solve_fg_tot_multiple _ Hmod).
  by rewrite search_never.
Qed.

End SolveFacts.

(** ** The reference EM specs *)

Section EmSpecsFacts.

Import Store CMLCorePMOS CoreSpec.

Variable track_index : Type.
Variable grid : RoutingGrid.
Variable new_AnalogBaseInfo : Q -> Z -> AnalogBaseInfo.

Lemma em_keys_NoDup : NoDup em_keys.
Proof. by apply (bool_decide_unpack _). Qed.

(** The loop over the keys: it either scales every key that is there, or
    raises on a zero ratio before it has changed anything. *)
Lemma scale_keys_spec (ref : loc) (num_seg : Z) (cur_ratio : float) (keys : list string)
    (h : gmap positive (gmap string float)) (d : gmap string float) :
  h !! ref = Some d -> NoDup keys ->
  match scale_keys ref num_seg cur_ratio keys h with
  | (Ok _, h') =>
    exists d', h' = <[ref := d']> h /\
      (forall key, key ∉ keys -> d' !! key = d !! key) /\
      (forall key, key ∈ keys ->
         d' !! key = (fun v => (v * (float_of_len num_seg / cur_ratio))%float) <$> d !! key) /\
      (forall key, key ∈ keys -> is_Some (d !! key) -> (cur_ratio =? 0)%float = false)
  | (Raise e, h') =>
    e = ZeroDivisionError /\ (cur_ratio =? 0)%float = true /\ h' = h
  end.
Proof.
  intros Href Hnd. revert h d Href.
  induction Hnd as [|key rest Hnotin Hnd IH]; intros h d Href.
  - cbn. exists d. split; [by rewrite insert_id|]. split; [done|].
    split; intros key Hk; by apply elem_of_nil in Hk.
  - cbn [scale_keys]. unfold mbind, py_bind, get_dict.
    rewrite (lookup_total_correct _ _ _ Href).
    destruct (d !! key) as [v|] eqn:Hkey.
    + unfold lift, py_truediv, set_item.
      destruct (cur_ratio =? 0)%float eqn:Hz; [done|].
      rewrite (lookup_total_correct _ _ _ Href).
      set (d1 := <[key := (v * (float_of_len num_seg / cur_ratio))%float]> d).
      specialize (IH (<[ref := d1]> h) d1 (lookup_insert_eq _ _ _)).
      destruct (scale_keys ref num_seg cur_ratio rest (<[ref := d1]> h))
        as [[[]|e] h'].
      * destruct IH as (d' & -> & Hout & Hin & _). exists d'.
        split; [by rewrite insert_insert_eq|]. split; [|split].
        -- intros key' Hk. apply not_elem_of_cons in Hk as [Hne Hk].
           rewrite Hout by done. unfold d1. by rewrite lookup_insert_ne.
        -- intros key' Hk. destruct (decide (key' = key)) as [->|Hne].
           ++ rewrite Hout by done. unfold d1. by rewrite lookup_insert_eq, Hkey.
           ++ apply elem_of_cons in Hk as [Hk|Hk]; [done|].
              rewrite Hin by done. unfold d1. by rewrite lookup_insert_ne.
        -- intros _ _ _. reflexivity.
      * destruct IH as (_ & Hz' & _). congruence.
    + cbn. specialize (IH h d Href).
      destruct (scale_keys ref num_seg cur_ratio rest h) as [[[]|e] h'].
      * destruct IH as (d' & -> & Hout & Hin & Hnz). exists d'.
        split; [done|]. split; [|split].
        -- intros key' Hk. apply not_elem_of_cons in Hk as [Hne Hk]. by apply Hout.
        -- intros key' Hk. destruct (decide (key' = key)) as [->|Hne].
           ++ by rewrite Hout, Hkey.
           ++ apply elem_of_cons in Hk as [Hk|Hk]; [done|]. by apply Hin.
        -- intros key' Hk Hsome. apply elem_of_cons in Hk as [->|Hk].
           ++ rewrite Hkey in Hsome. by destruct Hsome.
           ++ by apply (Hnz key').
      * done.
Qed.

Lemma fresh_not_allocated (h : gmap positive (gmap string float)) :
  h !! fresh (dom h) = None.
Proof. apply not_elem_of_dom. apply is_fresh. Qed.

(** How the second half of the helper ends: it raises before it has
    copied, it raises after it has copied, or it returns the layout and
    leaves the scaled copy at a new address. *)
Lemma tracks_from_em_specs_inv (p : params track_index) (fgt : Z)
    (h h' : gmap positive (gmap string float)) (d : gmap string float)
    (res : result base_layout) :
  h !! em_specs _ p = Some d ->
  tracks_from_em_specs track_index grid p (info_of _ new_AnalogBaseInfo p) fgt h
  = (res, h') ->
  let ref := fresh (dom h) in
  (h' = h /\ (res = Raise TypeError \/ res = Raise ZeroDivisionError
               \/ res = Raise OverflowError))
  \/ (h' = <[ref := d]> h /\ res = Raise ZeroDivisionError)
  \/ (exists d' cur_ratio,
        Z.eqb (fg_ref _ p) 0 = false /\
        py_int_truediv (fg _ p) (fg_ref _ p) = Ok cur_ratio /\
        h' = <[ref := d']> h /\
        scaled d d' (float_of_len (Z.of_nat (length (output_tracks _ p))) / cur_ratio)%float /\
        (forall key, key ∈ em_keys -> is_Some (d !! key) ->
           (cur_ratio =? 0)%float = false) /\
        res = Ok (layout_from _ grid new_AnalogBaseInfo p fgt d d' ref)).
Proof.
  intros Hem H ref.
  unfold tracks_from_em_specs, mbind, py_bind, get_dict, lift in H.
  rewrite (lookup_total_correct _ _ _ Hem) in H.
  destruct (d !! "bot_w"); [left; injection H as <- <-; auto|].
  destruct (py_int_truediv (fg _ p) (fg_ref _ p)) as [cur_ratio|e] eqn:Hratio.
  2:{ left. injection H as <- <-. split; [done|].
      unfold py_int_truediv in Hratio.
      destruct (fg_ref _ p =? 0); [injection Hratio as <-; auto|].
      destruct (SpecFloat.SFdiv _ _ _ _); try discriminate.
      injection Hratio as <-. auto. }
  assert ((fg_ref _ p =? 0) = false) as Hz.
  { unfold py_int_truediv in Hratio. by destruct (fg_ref _ p =? 0). }
  unfold dict_copy, copy_at in H. rewrite (lookup_total_correct _ _ _ Hem) in H.
  fold ref in H.
  pose proof (scale_keys_spec ref (Z.of_nat (length (output_tracks _ p)))
                cur_ratio em_keys
                (<[ref := d]> h) d (lookup_insert_eq _ _ _) em_keys_NoDup) as Hscale.
  destruct (scale_keys _ _ _ _ _) as [[[]|e] h2].
  - destruct Hscale as (d' & -> & Hout & Hin & Hnz).
    right; right. exists d', cur_ratio. rewrite lookup_total_insert_eq in H.
    unfold mret, py_ret in H. injection H as <- <-.
    rewrite insert_insert_eq. repeat split; done.
  - destruct Hscale as (-> & _ & ->). right; left. by injection H as <- <-.
Qed.

Lemma helper_inv (fuel : nat) (p : params track_index)
    (h h' : gmap positive (gmap string float)) (res : result base_layout) :
  _draw_layout_helper track_index grid new_AnalogBaseInfo fuel p h = Some (res, h') ->
  (exists e,
     FingerCount.solve_fg_tot (get_total_width (info_of _ new_AnalogBaseInfo p)) fuel
       (tot_width_unit _ p) (sd_pitch_unit (info_of _ new_AnalogBaseInfo p))
       (guard_ring_nf _ p) = Some (Raise e) /\ res = Raise e /\ h' = h)
  \/ (exists fgt,
     FingerCount.solve_fg_tot (get_total_width (info_of _ new_AnalogBaseInfo p)) fuel
       (tot_width_unit _ p) (sd_pitch_unit (info_of _ new_AnalogBaseInfo p))
       (guard_ring_nf _ p) = Some (Ok fgt) /\
     tracks_from_em_specs track_index grid p (info_of _ new_AnalogBaseInfo p) fgt h
     = (res, h')).
Proof.
  unfold _draw_layout_helper. fold (info_of _ new_AnalogBaseInfo p).
  destruct (FingerCount.solve_fg_tot _ _ _ _ _) as [[fgt|e]|]; intros H; [| |done].
  - right. exists fgt. split; [done | congruence].
  - left. exists e. injection H as <- <-. done.
Qed.

End EmSpecsFacts.

Example sample_run :
  Sample.run = Some (Ok Sample.layout, Sample.heap_after)
  /\ CMLCorePMOS.fg_tot Sample.layout = 16
  /\ CMLCorePMOS.ref_em_specs Sample.layout = 2%positive
  /\ Sample.heap_after !! 2%positive
     = Some {[ "idc" := 3%float; "iac_rms" := 4.5%float; "dc_temp" := 70%float ]}.
Proof. vm_compute. repeat split. Qed.

(** ** The helper as a whole *)

Section HelperFacts.

Import Store CMLCorePMOS CoreSpec.

Variable track_index : Type.
Variable grid : RoutingGrid.
Variable new_AnalogBaseInfo : Q -> Z -> AnalogBaseInfo.

Abbreviation helper := (_draw_layout_helper track_index grid new_AnalogBaseInfo).
Abbreviation info p := (info_of track_index new_AnalogBaseInfo p).
Abbreviation solve p fuel :=
  (FingerCount.solve_fg_tot (get_total_width (info p)) fuel
     (tot_width_unit track_index p) (sd_pitch_unit (info p))
     (guard_ring_nf track_index p)).

Lemma helper_after_checks (fuel : nat) (p : params track_index)
    (h : gmap positive (gmap string float)) (fgt : Z) :
  solve p fuel = Some (Ok fgt) ->
  helper fuel p h = Some (tracks_from_em_specs track_index grid p (info p) fgt h).
Proof.
  intros Hs. unfold _draw_layout_helper. fold (info p). by rewrite Hs.
Qed.

Lemma helper_raises_with_checks (fuel : nat) (p : params track_index)
    (h : gmap positive (gmap string float)) (e : exn) :
  solve p fuel = Some (Raise e) -> helper fuel p h = Some (Raise e, h).
Proof.
  intros Hs. unfold _draw_layout_helper. fold (info p). by rewrite Hs.
Qed.

Lemma helper_running (fuel : nat) (p : params track_index)
    (h : gmap positive (gmap string float)) :
  solve p fuel = None -> helper fuel p h = None.
Proof.
  intros Hs. unfold _draw_layout_helper. fold (info p). by rewrite Hs.
Qed.

(** A [ValueError] of the helper is a [ValueError] of its two checks. *)
Lemma helper_ValueError (p : params track_index)
    (h : gmap positive (gmap string float)) (d : gmap string float) :
  h !! em_specs _ p = Some d ->
  raises_ValueError _ grid new_AnalogBaseInfo p h
  <-> exists fuel, solve p fuel = Some (Raise ValueError).
Proof.
  intros Hem. split.
  - intros (fuel & h' & H). exists fuel.
    destruct (helper_inv _ _ _ _ _ _ _ _ H) as [(e & Hs & [= <-] & _)|(fgt & Hs & Ht)];
      [done|].
    destruct (tracks_from_em_specs_inv _ _ _ _ _ _ _ _ _ Hem Ht)
      as [(_ & [?|[?|?]])|[(_ & ?)|(? & ? & _ & _ & _ & _ & _ & ?)]]; discriminate.
  - intros (fuel & Hs). exists fuel, h. by apply helper_raises_with_checks.
Qed.

Lemma solve_zero_pitch (fuel : nat) (p : params track_index) :
  sd_pitch_unit (info p) = 0 -> solve p fuel = Some (Raise ZeroDivisionError).
Proof. intros E. unfold FingerCount.solve_fg_tot, py_mod. by rewrite E. Qed.

Lemma tracks_fg_tot (p : params track_index) (fgt : Z)
    (h h' : gmap positive (gmap string float)) (r : base_layout) :
  tracks_from_em_specs track_index grid p (info p) fgt h = (Ok r, h') ->
  fg_tot r = fgt.
Proof.
  unfold tracks_from_em_specs, mbind, py_bind, get_dict, lift, dict_copy, copy_at,
    mret, py_ret.
  repeat case_match; intros; simplify_eq; done.
Qed.

End HelperFacts.

(** C1, as amended: for a nonzero source/drain pitch the helper raises
    ValueError if and only if (a) [tot_width_unit] is not an integer
    multiple of [sd_pitch_unit], or (b) the descending search ends on a
    total width strictly below [num_pitch].  In the other cases, if some
    finger count at or below [num_pitch] has a total width of at most
    [num_pitch], the checks pass with a finger count of width exactly
    [num_pitch] and the helper goes on to the drawing; if no finger count
    at or below [num_pitch] has such a width, the loop does not end and
    the helper neither raises nor proceeds.  With a pitch of zero the
    modulo raises ZeroDivisionError. *)
Theorem helper_ValueError_iff (track_index : Type) (grid : CMLCorePMOS.RoutingGrid)
    (new_AnalogBaseInfo : Q -> Z -> CMLCorePMOS.AnalogBaseInfo)
    (p : CMLCorePMOS.params track_index)
    (h : gmap positive (gmap string float)) (d : gmap string float) :
  let info := CoreSpec.info_of _ new_AnalogBaseInfo p in
  let width fg := CMLCorePMOS.get_total_width info fg (CMLCorePMOS.guard_ring_nf _ p) in
  let num_pitch := CoreSpec.num_pitch_of _ new_AnalogBaseInfo p in
  h !! CMLCorePMOS.em_specs _ p = Some d ->
  (CMLCorePMOS.sd_pitch_unit info <> 0 ->
   (CoreSpec.raises_ValueError _ grid new_AnalogBaseInfo p h
    <-> CoreSpec.width_not_multiple _ new_AnalogBaseInfo p
        \/ CoreSpec.width_not_reached _ new_AnalogBaseInfo p)
   /\
   (~ (CoreSpec.width_not_multiple _ new_AnalogBaseInfo p
       \/ CoreSpec.width_not_reached _ new_AnalogBaseInfo p) ->
    (exists m, m <= num_pitch /\ width m <= num_pitch) ->
    exists fg, CoreSpec.proceeds_with _ grid new_AnalogBaseInfo p h fg
               /\ width fg = num_pitch)
   /\
   (~ CoreSpec.width_not_multiple _ new_AnalogBaseInfo p ->
    (forall m, m <= num_pitch -> width m > num_pitch) ->
    forall fuel,
      CMLCorePMOS._draw_layout_helper track_index grid new_AnalogBaseInfo fuel p h = None))
  /\
  (CMLCorePMOS.sd_pitch_unit info = 0 ->
   forall fuel,
     CMLCorePMOS._draw_layout_helper track_index grid new_AnalogBaseInfo fuel p h
     = Some (Raise ZeroDivisionError, h)).
Proof.
  intros info width num_pitch Hem. split.
  - intros Hsd.
    pose proof (not_multiple_mod (CMLCorePMOS.tot_width_unit _ p) _ Hsd) as Hmult.
    fold info in Hmult.
    split; [|split].
    + rewrite (helper_ValueError _ _ _ _ _ _ Hem).
      apply (solve_fg_tot_ValueError _ _ _ _ Hsd).
    + intros Hnot (m & Hm & Hw).
      assert (CMLCorePMOS.tot_width_unit _ p mod CMLCorePMOS.sd_pitch_unit info = 0)
        as Hmod.
      { destruct (decide (CMLCorePMOS.tot_width_unit _ p
                          mod CMLCorePMOS.sd_pitch_unit info = 0)) as [|Hne]; [done|].
        destruct Hnot. left. by apply Hmult. }
      destruct (first_narrow _ _ _ m Hm Hw) as (n & _ & Hex & Hlt).
      assert (width (num_pitch - Z.of_nat n) = num_pitch) as Heq.
      { destruct (Z_lt_le_dec (width (num_pitch - Z.of_nat n)) num_pitch) as [Hbelow|];
          [|unfold width in *; lia].
        destruct Hnot. right. exists n. done. }
      exists (num_pitch - Z.of_nat n). split; [|done].
      exists n.
      pose proof (solve_fg_tot_passes _ _ _ _ Hsd n Hmod Hlt Heq n (Nat.le_refl n)) as Hs.
      split; [done|]. by apply helper_after_checks.
    + intros Ha Hall fuel. apply helper_running.
      apply (solve_fg_tot_never _ _ _ _ Hsd); [|done].
      destruct (decide (CMLCorePMOS.tot_width_unit _ p
                        mod CMLCorePMOS.sd_pitch_unit info = 0)) as [|Hne]; [done|].
      destruct Ha. by apply Hmult.
  - intros Hzero fuel. apply helper_raises_with_checks. by apply solve_zero_pitch.
Qed.

Lemma helper_ValueError_iff_witness :
  (CoreSpec.raises_ValueError Z Sample.grid (fun _ _ => Sample.info)
     (Sample.core_params 1800) Sample.heap
   <-> CoreSpec.width_not_multiple Z (fun _ _ => Sample.info) (Sample.core_params 1800)
       \/ CoreSpec.width_not_reached Z (fun _ _ => Sample.info) (Sample.core_params 1800))
  /\ CMLCorePMOS._draw_layout_helper Z Sample.grid (fun _ _ => Sample.wide_info) 7
       (Sample.core_params 0) Sample.heap = None.
Proof.
  split.
  - apply (proj1 (helper_ValueError_iff Z Sample.grid (fun _ _ => Sample.info)
                    (Sample.core_params 1800) Sample.heap
                    {[ "idc" := 2%float; "iac_rms" := 3%float; "dc_temp" := 70%float ]}
                    eq_refl)).
    cbn. lia.
  - apply (proj1 (helper_ValueError_iff Z Sample.grid (fun _ _ => Sample.wide_info)
                    (Sample.core_params 0) Sample.heap
                    {[ "idc" := 2%float; "iac_rms" := 3%float; "dc_temp" := 70%float ]}
                    eq_refl)).
    + cbn. lia.
    + intros Ha. apply Ha. exists 0. reflexivity.
    + intros m Hm. reflexivity.
Defined.

(** C1, as written, fails: with a total width that stays above
    [num_pitch] for every finger count, neither (a) nor (b) holds and yet
    the checks never pass, because the search does not end. *)
Lemma helper_ValueError_else_proceeds_fails :
  ~ CoreSpec.raises_iff_else_proceeds Z Sample.grid (fun _ _ => Sample.wide_info)
      (Sample.core_params 0) Sample.heap.
Proof.
  intros [_ Hproceeds].
  destruct Hproceeds as (fg & fuel & Hs & _).
  - intros [Ha|(n & _ & Hn)].
    + apply Ha. exists 0. reflexivity.
    + change (1 < 0 / 1) in Hn. change (0 / 1) with 0 in Hn. lia.
  - change (FingerCount.solve_fg_tot (fun _ _ => 1) fuel 0 1 0 = Some (Ok fg)) in Hs.
    rewrite solve_fg_tot_never in Hs; [done | lia | done |].
    intros m Hm. change (0 / 1) with 0. lia.
Qed.

(** C2: finger-count solving.  With a total width that is non-decreasing
    in the finger count, whenever the two checks pass (the helper does not
    raise ValueError and settles on a finger count), that finger count is
    the largest one not above [num_pitch] whose total width is
    [num_pitch]; it is the one handed to [draw_base].  Under the same
    assumption the checks do pass whenever such a finger count exists. *)
Theorem settled_fg_tot_is_largest (track_index : Type) (grid : CMLCorePMOS.RoutingGrid)
    (new_AnalogBaseInfo : Q -> Z -> CMLCorePMOS.AnalogBaseInfo)
    (p : CMLCorePMOS.params track_index) :
  let info := CoreSpec.info_of _ new_AnalogBaseInfo p in
  let guard_ring_nf := CMLCorePMOS.guard_ring_nf _ p in
  let num_pitch := CoreSpec.num_pitch_of _ new_AnalogBaseInfo p in
  let solve fuel :=
    FingerCount.solve_fg_tot (CMLCorePMOS.get_total_width info) fuel
      (CMLCorePMOS.tot_width_unit _ p) (CMLCorePMOS.sd_pitch_unit info) guard_ring_nf in
  CoreSpec.monotone_width (CMLCorePMOS.get_total_width info) guard_ring_nf ->
  (forall fuel fg, solve fuel = Some (Ok fg) ->
     CoreSpec.largest_exact (CMLCorePMOS.get_total_width info) guard_ring_nf num_pitch fg)
  /\
  (forall fuel h r h',
     CMLCorePMOS._draw_layout_helper track_index grid new_AnalogBaseInfo fuel p h
     = Some (Ok r, h') ->
     CoreSpec.largest_exact (CMLCorePMOS.get_total_width info) guard_ring_nf num_pitch
       (CMLCorePMOS.fg_tot r))
  /\
  (CMLCorePMOS.sd_pitch_unit info <> 0 ->
   CMLCorePMOS.tot_width_unit _ p mod CMLCorePMOS.sd_pitch_unit info = 0 ->
   (exists k, k <= num_pitch /\ CMLCorePMOS.get_total_width info k guard_ring_nf = num_pitch) ->
   exists fuel fg, solve fuel = Some (Ok fg)).
Proof.
  intros info guard_ring_nf num_pitch solve Hmono.
  assert (forall fuel fg, solve fuel = Some (Ok fg) ->
            CoreSpec.largest_exact (CMLCorePMOS.get_total_width info) guard_ring_nf
              num_pitch fg) as Hlargest.
  { intros fuel fg Hs.
    assert (CMLCorePMOS.sd_pitch_unit info <> 0) as Hsd.
    { intros E. pose proof (solve_zero_pitch _ new_AnalogBaseInfo fuel p E) as Hz.
      change (solve fuel = Some (Raise ZeroDivisionError)) in Hz. congruence. }
    destruct (solve_fg_tot_Ok _ _ _ _ Hsd fuel fg Hs) as (_ & Hle & Heq & Habove).
    change (CMLCorePMOS.tot_width_unit _ p / CMLCorePMOS.sd_pitch_unit info)
      with num_pitch in Hle, Heq, Habove.
    repeat split; [done | done |].
    intros k Hk Hwk. destruct (Z_le_gt_dec k fg) as [|Hgt]; [done|].
    specialize (Habove k ltac:(lia)). lia. }
  split; [done|]. split.
  - intros fuel h r h' H.
    destruct (helper_inv _ _ _ _ _ _ _ _ H) as [(e & _ & [=] & _)|(fgt & Hs & Ht)].
    rewrite (tracks_fg_tot _ _ _ _ _ _ _ _ Ht). by apply (Hlargest fuel).
  - intros Hsd Hmod (k & Hk & Hwk).
    destruct (first_narrow (CMLCorePMOS.get_total_width info) guard_ring_nf num_pitch k Hk
                ltac:(lia)) as (n & Hn & Hex & Hlt).
    assert (CMLCorePMOS.get_total_width info (num_pitch - Z.of_nat n) guard_ring_nf
            = num_pitch) as Heq.
    { pose proof (Hmono k (num_pitch - Z.of_nat n) ltac:(lia)). lia. }
    exists n, (num_pitch - Z.of_nat n).
    by apply (solve_fg_tot_passes _ _ _ _ Hsd n Hmod Hlt Heq).
Qed.

Lemma settled_fg_tot_is_largest_witness :
  CoreSpec.largest_exact (fun fg _ => fg + 4) 0 20 16.
Proof.
  apply (proj1 (proj2 (settled_fg_tot_is_largest Z Sample.grid (fun _ _ => Sample.info)
                         (Sample.core_params 1800)
                         ltac:(intros a b Hab; cbn; lia)))
           4%nat Sample.heap Sample.layout Sample.heap_after).
  vm_compute. reflexivity.
Defined.

(** The floats of one run: [fg = 15], [fg_ref = 7], three output tracks
    and a direct current limit of 5.  The multiplier [3 / (15 / 7)] is one
    unit in the last place above [3 * 7 / 15], the scaled limit is above
    7, and the sample grid asks for 8 tracks. *)
Example sample_run_15_7 :
  py_int_truediv 15 7 = Ok 0x1.1249249249249p+1%float /\
  py_truediv (float_of_len 3) 0x1.1249249249249p+1 = Ok 0x1.6666666666667p+0%float /\
  py_int_truediv (3 * 7) 15 = Ok 0x1.6666666666666p+0%float /\
  MoreSamples.heap_on 15 7 MoreSamples.heap_idc5 !! 2%positive
  = Some {[ "idc" := 0x1.c000000000001p+2%float ]} /\
  (7 <? 0x1.c000000000001p+2)%float = true /\
  CMLCorePMOS.hm_width_ref (MoreSamples.layout_on 15 7 MoreSamples.heap_idc5) = 8.
Proof. vm_compute. repeat split. Qed.

(** C4, as amended: the reference EM specs.  The helper leaves the
    caller's [em_specs] dictionary as it was, however it ends.  When it
    reaches [draw_base], [ref_em_specs] is a dictionary at an address that
    was not in use before, every other dictionary on the heap is
    unchanged, and the new one agrees with [em_specs] on every key other
    than ['idc'], ['iac_rms'] and ['iac_peak']; each of these three that
    [em_specs] has is multiplied, as a float, by the float
    [num_seg / cur_ratio], where [cur_ratio] is the float [fg / fg_ref]
    and is not zero, and each that [em_specs] lacks is still lacking. *)
Theorem ref_em_specs_is_scaled_copy (track_index : Type) (grid : CMLCorePMOS.RoutingGrid)
    (new_AnalogBaseInfo : Q -> Z -> CMLCorePMOS.AnalogBaseInfo)
    (fuel : nat) (p : CMLCorePMOS.params track_index)
    (h h' : gmap positive (gmap string float)) (d : gmap string float)
    (res : result CMLCorePMOS.base_layout) :
  let num_seg := Z.of_nat (length (CMLCorePMOS.output_tracks _ p)) in
  h !! CMLCorePMOS.em_specs _ p = Some d ->
  CMLCorePMOS._draw_layout_helper track_index grid new_AnalogBaseInfo fuel p h
  = Some (res, h') ->
  h' !! CMLCorePMOS.em_specs _ p = Some d
  /\
  (forall r, res = Ok r ->
     let ref := CMLCorePMOS.ref_em_specs r in
     ref <> CMLCorePMOS.em_specs _ p /\
     h !! ref = None /\
     (forall l, l <> ref -> h' !! l = h !! l) /\
     exists cur_ratio d',
       py_int_truediv (CMLCorePMOS.fg _ p) (CMLCorePMOS.fg_ref _ p) = Ok cur_ratio /\
       h' !! ref = Some d' /\
       (forall key, key ∉ ["idc"; "iac_rms"; "iac_peak"] -> d' !! key = d !! key) /\
       (forall key v, key ∈ ["idc"; "iac_rms"; "iac_peak"] ->
          d !! key = Some v ->
          exists factor,
            py_truediv (float_of_len num_seg) cur_ratio = Ok factor /\
            d' !! key = Some (v * factor)%float) /\
       (forall key, key ∈ ["idc"; "iac_rms"; "iac_peak"] ->
          d !! key = None -> d' !! key = None)).
Proof.
  intros num_seg Hem H.
  pose proof (fresh_not_allocated h) as Hfresh.
  assert (fresh (dom h) <> CMLCorePMOS.em_specs _ p) as Hne.
  { intros E. enough (Some d = None) by discriminate.
    rewrite <- Hem, <- E. exact Hfresh. }
  destruct (helper_inv _ _ _ _ _ _ _ _ H) as [(e & _ & -> & ->)|(fgt & _ & Ht)];
    [by split|].
  destruct (tracks_from_em_specs_inv _ _ _ _ _ _ _ _ _ Hem Ht)
    as [(-> & [->|[->| ->]])
       |[(-> & ->)|(d' & cur_ratio & _ & Hratio & -> & [Hout Hin] & Hnz & ->)]];
    try (split; [done | discriminate]).
  - split; [by rewrite lookup_insert_ne | discriminate].
  - split; [by rewrite lookup_insert_ne|].
    intros r [= <-]. cbn [CMLCorePMOS.ref_em_specs CoreSpec.layout_from].
    repeat split; [done | done | |].
    + intros l Hl. by rewrite lookup_insert_ne.
    + exists cur_ratio, d'. rewrite lookup_insert_eq. repeat split; [done | done | |].
      * intros key v Hkey Hv. eexists. split.
        -- unfold py_truediv. rewrite (Hnz key Hkey) by (by rewrite Hv). reflexivity.
        -- by rewrite (Hin key Hkey), Hv.
      * intros key Hkey Hv. by rewrite (Hin key Hkey), Hv.
Qed.

Lemma ref_em_specs_is_scaled_copy_witness :
  Sample.heap_after !! 1%positive
  = Some {[ "idc" := 2%float; "iac_rms" := 3%float; "dc_temp" := 70%float ]}
  /\ exists d',
       Sample.heap_after !! 2%positive = Some d' /\
       d' !! "dc_temp" = Some 70%float /\
       d' !! "idc" = Some 3%float /\
       d' !! "iac_peak" = None.
Proof.
  destruct (ref_em_specs_is_scaled_copy Z Sample.grid (fun _ _ => Sample.info) 4
              (Sample.core_params 1800) Sample.heap Sample.heap_after
              {[ "idc" := 2%float; "iac_rms" := 3%float; "dc_temp" := 70%float ]}
              (Ok Sample.layout) eq_refl eq_refl) as [Hin Hout].
  split; [exact Hin|].
  destruct (Hout Sample.layout eq_refl)
    as (_ & _ & _ & cur_ratio & d' & Hratio & Hd' & Hother & Hscaled & Hnone).
  exists d'. split; [exact Hd'|]. split; [|split].
  - rewrite Hother; [reflexivity|]. by apply (bool_decide_unpack _).
  - destruct (Hscaled "idc" 2%float) as (factor & Hfactor & ->);
      [by apply (bool_decide_unpack _) | reflexivity |].
    vm_compute in Hratio. injection Hratio as <-.
    vm_compute in Hfactor. injection Hfactor as <-. reflexivity.
  - apply Hnone; [by apply (bool_decide_unpack _) | reflexivity].
Defined.

(** C4, as written, fails: with [fg = 15], [fg_ref = 7] and three output
    tracks the helper multiplies by the float [3 / (15 / 7)], which is
    [1.4000000000000001], while [3 * 7 / 15] is [1.4]; a limit of 5
    becomes [7.000000000000001], not 7. *)
Lemma ref_em_specs_scaled_by_product_fails :
  ~ CoreSpec.scaled_by_product Z Sample.grid (fun _ _ => Sample.info) 4
      (MoreSamples.core_params_fg 15 7) MoreSamples.heap_idc5.
Proof.
  intros Hclaim.
  destruct (Hclaim {[ "idc" := 5%float ]}
              (MoreSamples.layout_on 15 7 MoreSamples.heap_idc5)
              (MoreSamples.heap_on 15 7 MoreSamples.heap_idc5) eq_refl eq_refl)
    as (d' & f & Hd' & Hf & _ & Hin).
  vm_compute in Hf. injection Hf as <-.
  vm_compute in Hd'. injection Hd' as <-.
  specialize (Hin "idc" ltac:(by apply (bool_decide_unpack _))).
  apply (f_equal (fun o => match o with
                           | Some x => (x =? 7)%float
                           | None => true
                           end)) in Hin.
  vm_compute in Hin. discriminate.
Qed.

(** C8: the input track space is only widened.  When the helper reaches
    [draw_base], the input space it uses in the gate and drain/source
    track lists is [max(input_space, hm_space_ref, hm_space)]: it is at
    least the [input_space] parameter, at least the space [hm_space]
    required for the output track width [hm_width], and at least the
    space [hm_space_ref] required for the reference track width
    [hm_width_ref]. *)
Theorem input_space_is_widened (track_index : Type) (grid : CMLCorePMOS.RoutingGrid)
    (new_AnalogBaseInfo : Q -> Z -> CMLCorePMOS.AnalogBaseInfo)
    (fuel : nat) (p : CMLCorePMOS.params track_index)
    (h h' : gmap positive (gmap string float)) (d : gmap string float)
    (r : CMLCorePMOS.base_layout) :
  let hm_layer :=
    CMLCorePMOS.mconn_port_layer (CoreSpec.info_of _ new_AnalogBaseInfo p) + 1 in
  let eff := CMLCorePMOS.eff_input_space r in
  let hm_width := CMLCorePMOS.hm_width r in
  let hm_space := CMLCorePMOS.hm_space r in
  let hm_width_ref := CMLCorePMOS.hm_width_ref r in
  let hm_space_ref := CMLCorePMOS.hm_space_ref r in
  h !! CMLCorePMOS.em_specs _ p = Some d ->
  CMLCorePMOS._draw_layout_helper track_index grid new_AnalogBaseInfo fuel p h
  = Some (Ok r, h') ->
  eff = Z.max (Z.max (CMLCorePMOS.input_space _ p) hm_space_ref) hm_space /\
  CMLCorePMOS.input_space _ p <= eff /\
  hm_space <= eff /\
  hm_space_ref <= eff /\
  hm_space = CMLCorePMOS.get_num_space_tracks grid hm_layer hm_width /\
  hm_space_ref = CMLCorePMOS.get_num_space_tracks grid hm_layer hm_width_ref /\
  CMLCorePMOS.pg_tracks r
  = [CMLCorePMOS.input_width _ p; eff + hm_width_ref + hm_space;
     CMLCorePMOS.input_width _ p] /\
  CMLCorePMOS.pds_tracks r
  = [eff + hm_width; 2 * hm_width + hm_space + eff; eff + hm_width].
Proof.
  intros hm_layer eff hm_width hm_space hm_width_ref hm_space_ref Hem H.
  destruct (helper_inv _ _ _ _ _ _ _ _ H) as [(e & _ & [=] & _)|(fgt & _ & Ht)].
  destruct (tracks_from_em_specs_inv _ _ _ _ _ _ _ _ _ Hem Ht)
    as [(_ & [[=]|[[=]|[=]]])|[(_ & [=])|(d' & cur_ratio & _ & _ & _ & _ & _ & [= Hr])]].
  subst eff hm_width hm_space hm_width_ref hm_space_ref hm_layer. rewrite Hr.
  cbn [CoreSpec.layout_from CMLCorePMOS.eff_input_space CMLCorePMOS.hm_width
       CMLCorePMOS.hm_space CMLCorePMOS.hm_width_ref CMLCorePMOS.hm_space_ref
       CMLCorePMOS.pg_tracks CMLCorePMOS.pds_tracks].
  repeat split; lia.
Qed.

Lemma input_space_is_widened_witness :
  CMLCorePMOS.eff_input_space Sample.layout = 3 /\
  CMLCorePMOS.input_space Z (Sample.core_params 1800) <= 3 /\
  CMLCorePMOS.hm_space Sample.layout <= 3 /\
  CMLCorePMOS.hm_space_ref Sample.layout <= 3.
Proof.
  destruct (input_space_is_widened Z Sample.grid (fun _ _ => Sample.info) 4
              (Sample.core_params 1800) Sample.heap Sample.heap_after
              {[ "idc" := 2%float; "iac_rms" := 3%float; "dc_temp" := 70%float ]}
              Sample.layout eq_refl eq_refl) as (Heff & Hin & Hsp & Href & _).
  assert (CMLCorePMOS.eff_input_space Sample.layout = 3) as E by reflexivity.
  rewrite E in Hin, Hsp, Href. repeat split; assumption.
Defined.

(** ** AmpBaseChain *)

(** C10: when [master2.size] is not [None] and the block width [xblk] is
    positive, X1 is placed at the origin and X2 at the x-coordinate
    [(-x0 // xblk) * xblk], with [x0] the right edge of X1.  That
    coordinate is an integer multiple of [xblk], and for [x0 >= 0] it is
    at most 0, hence not to the right of [x0]. *)
Theorem x2_coord_multiple_not_right (x0 xblk : Z) (size2 : Z * Z * Z) :
  0 < xblk ->
  let x := (- x0) / xblk * xblk in
  AmpBaseChain.draw_layout x0 (Some size2) xblk
  = Ok [("X1", (0, 0)); ("X2", (x, 0))] /\
  AmpBaseChain.x2_coord x0 (Some size2) xblk = Ok x /\
  (exists k, x = k * xblk) /\
  (0 <= x0 -> x <= 0 /\ x <= x0).
Proof.
  intros Hblk x.
  assert (AmpBaseChain.x2_coord x0 (Some size2) xblk = Ok x) as Hx.
  { unfold AmpBaseChain.x2_coord, py_floordiv.
    destruct (Z.eqb_spec xblk 0); [lia | done]. }
  split; [|split; [done|split]].
  - unfold AmpBaseChain.draw_layout. by rewrite Hx.
  - by exists (- x0 / xblk).
  - intros Hx0.
    assert (- x0 / xblk <= 0) by (apply Z.div_le_upper_bound; lia).
    subst x. nia.
Qed.

Lemma x2_coord_multiple_not_right_witness :
  AmpBaseChain.draw_layout 100 (Some (5, 2, 3)) 30
  = Ok [("X1", (0, 0)); ("X2", (-120, 0))].
Proof.
  apply (x2_coord_multiple_not_right 100 30 (5, 2, 3)). lia.
Defined.

(** ** The script *)

(** The parameters [rxcore] returns have no entry [fg_tot]. *)
Lemma rxcore_params_no_fg_tot : Serdes.rxcore_params !! "fg_tot" = None.
Proof. reflexivity. Qed.

(** C9: for every [tot_fg], and schematic parameters that do not
    themselves name [fg_tot], [rxcore_sch] creates the design module,
    calls [design_specs] once, with [fg_tot] equal to [2 * tot_fg] and
    every other keyword equal to the entry of [sch_params], and implements
    the design.  Called with the pair [rxcore] returns, it passes twice
    the [num_fingers] of the layout template. *)
Theorem rxcore_sch_doubles_fg_tot :
  (forall (sch_params : gmap string Serdes.pyval) (tot_fg : Z),
     sch_params !! "fg_tot" = None ->
     exists kwargs,
       Serdes.rxcore_sch sch_params tot_fg
       = ([Serdes.CreateDesignModule "serdes_bm_templates" "rxcore_ffe1_dfe4";
           Serdes.DesignSpecs kwargs;
           Serdes.ImplementDesign Serdes.impl_lib "rxcore_ffe1_dfe4" true], Ok tt) /\
       kwargs !! "fg_tot" = Some (Serdes.PyInt (2 * tot_fg)) /\
       (forall key, key <> "fg_tot" -> kwargs !! key = sch_params !! key))
  /\
  (forall num_fingers : gmap string Serdes.pyval -> Z,
     let '(_, (core_params, fg_tot)) := Serdes.rxcore num_fingers in
     fg_tot = num_fingers (Serdes.rxcore_params ∪ Serdes.rxcore_layout_defaults) /\
     exists kwargs,
       Serdes.rxcore_sch core_params fg_tot
       = ([Serdes.CreateDesignModule "serdes_bm_templates" "rxcore_ffe1_dfe4";
           Serdes.DesignSpecs kwargs;
           Serdes.ImplementDesign Serdes.impl_lib "rxcore_ffe1_dfe4" true], Ok tt) /\
       kwargs !! "fg_tot" = Some (Serdes.PyInt (2 * fg_tot))).
Proof.
  assert (forall (sch_params : gmap string Serdes.pyval) (tot_fg : Z),
            sch_params !! "fg_tot" = None ->
            exists kwargs,
              Serdes.rxcore_sch sch_params tot_fg
              = ([Serdes.CreateDesignModule "serdes_bm_templates" "rxcore_ffe1_dfe4";
                  Serdes.DesignSpecs kwargs;
                  Serdes.ImplementDesign Serdes.impl_lib "rxcore_ffe1_dfe4" true],
                 Ok tt) /\
              kwargs !! "fg_tot" = Some (Serdes.PyInt (2 * tot_fg)) /\
              (forall key, key <> "fg_tot" -> kwargs !! key = sch_params !! key))
    as Hcall.
  { intros sch_params tot_fg Hfree.
    exists (<["fg_tot" := Serdes.PyInt (2 * tot_fg)]> sch_params).
    split; [|split].
    - unfold Serdes.rxcore_sch, Serdes.keyword_call. by rewrite Hfree.
    - apply lookup_insert_eq.
    - intros key Hkey. by apply lookup_insert_ne. }
  split; [exact Hcall|].
  intros num_fingers. unfold Serdes.rxcore. split; [done|].
  destruct (Hcall Serdes.rxcore_params
              (num_fingers (Serdes.rxcore_params ∪ Serdes.rxcore_layout_defaults))
              rxcore_params_no_fg_tot) as (kwargs & Hcalls & Hfg & _).
  eauto.
Qed.

Lemma rxcore_sch_doubles_fg_tot_witness :
  exists kwargs,
    Serdes.rxcore_sch Serdes.rxcore_params 84
    = ([Serdes.CreateDesignModule "serdes_bm_templates" "rxcore_ffe1_dfe4";
        Serdes.DesignSpecs kwargs;
        Serdes.ImplementDesign Serdes.impl_lib "rxcore_ffe1_dfe4" true], Ok tt) /\
    kwargs !! "fg_tot" = Some (Serdes.PyInt 168) /\
    kwargs !! "nac_off" = Some (Serdes.PyInt 4).
Proof.
  destruct (proj1 rxcore_sch_doubles_fg_tot Serdes.rxcore_params 84
              rxcore_params_no_fg_tot)
    as (kwargs & Hcalls & Hfg & Hother).
  exists kwargs. split; [exact Hcalls|]. split; [exact Hfg|].
  rewrite Hother; [reflexivity | discriminate].
Defined.

(** ** Pin names *)

Lemma string_app_cons (a : Ascii.ascii) (s t : string) :
  String a s +:+ t = String a (s +:+ t).
Proof. reflexivity. Qed.

Lemma string_app_length (s t : string) :
  String.length (s +:+ t) = (String.length s + String.length t)%nat.
Proof.
  induction s as [|a s IH]; [done|].
  rewrite string_app_cons. cbn. by rewrite IH.
Qed.

Lemma string_app_inj_r (t s1 s2 : string) : s1 +:+ t = s2 +:+ t -> s1 = s2.
Proof.
  revert s2. induction s1 as [|a s1 IH]; intros [|b s2] H.
  - done.
  - apply (f_equal String.length) in H.
    rewrite !string_app_length in H. cbn in H. lia.
  - apply (f_equal String.length) in H.
    rewrite !string_app_length in H. cbn in H. lia.
  - rewrite !string_app_cons in H. injection H as -> H. f_equal. by apply IH.
Qed.

(** ['base<%d>' % i] names [i]. *)
Lemma indexed_name_inj (base : string) (i j : Z) :
  indexed_name base i = indexed_name base j -> i = j.
Proof.
  unfold indexed_name. intros H.
  apply (inj (String.app base)) in H. apply (inj (String.app "<")) in H.
  apply string_app_inj_r in H. by apply (inj pretty) in H.
Qed.

Lemma bot_name_not_top (i j : Z) : indexed_name "bot" i <> indexed_name "top" j.
Proof. unfold indexed_name. cbn. discriminate. Qed.

Lemma bot_name_not_dummy (i : Z) : indexed_name "bot" i <> "dummy".
Proof. unfold indexed_name. cbn. discriminate. Qed.

Lemma top_name_not_dummy (i : Z) : indexed_name "top" i <> "dummy".
Proof. unfold indexed_name. cbn. discriminate. Qed.

(** ** The pins of LoadResistor *)

Section ResistorFacts.

Import LoadResistor PinSpec.

Variable bot_layer_id : Z.
Variable w_tracks : Z * Z * Z * Z.

Abbreviation export := (_export_to_vm bot_layer_id w_tracks).
Abbreviation bot := (bot_wire bot_layer_id w_tracks).
Abbreviation top := (top_wire bot_layer_id w_tracks).

(** Different ports are exported to different wires. *)
Lemma export_to_vm_inj (p1 p2 : warr) : export p1 = export p2 -> p1 = p2.
Proof.
  unfold _export_to_vm. destruct w_tracks as [[[w0 w1] w2] w3].
  unfold seqZ. cbn. intros H. by injection H.
Qed.

Lemma bot_wire_inj (i j : Z) : bot i = bot j -> i = j.
Proof. intros H. apply export_to_vm_inj in H. by injection H. Qed.

Lemma column_pins_dummy (nx ndum : Z) (show_pins : bool) (idx : Z) :
  idx < ndum \/ idx >= nx + ndum ->
  column_pins bot_layer_id w_tracks nx ndum show_pins idx
  = [dummy_pin bot_layer_id w_tracks show_pins idx].
Proof.
  intros H. unfold column_pins.
  destruct (Z.ltb_spec idx ndum); [done|].
  destruct (Z.geb_spec idx (nx + ndum)); [done | lia].
Qed.

Lemma column_pins_exported (nx ndum : Z) (show_pins : bool) (i : Z) :
  0 <= i < nx ->
  column_pins bot_layer_id w_tracks nx ndum show_pins (ndum + i)
  = [bot_pin bot_layer_id w_tracks ndum show_pins i;
     top_pin bot_layer_id w_tracks ndum show_pins i].
Proof.
  intros H. unfold column_pins.
  destruct (Z.ltb_spec (ndum + i) ndum); [lia|].
  destruct (Z.geb_spec (ndum + i) (nx + ndum)); [lia|].
  unfold bot_pin, top_pin, bot_wire, top_wire. cbn.
  replace (ndum + i - ndum) with i by lia.
  replace (i + ndum) with (ndum + i) by lia. done.
Qed.

Lemma bind_ext_in {A B : Type} (f g : A -> list B) (l : list A) :
  (forall x, x ∈ l -> f x = g x) -> l ≫= f = l ≫= g.
Proof.
  induction l as [|x l IH]; intros H; [done|].
  rewrite !bind_cons, (H x) by left. f_equal. apply IH. intros y Hy. apply H. by right.
Qed.

Lemma bind_singleton_fmap {A B : Type} (f : A -> B) (l : list A) :
  l ≫= (fun x => [f x]) = f <$> l.
Proof. induction l as [|x l IH]; [done|]. rewrite bind_cons, IH. done. Qed.

(** The pins, in the order they are added: [ndum] dummies, the bottom and
    top pins of the [nx] columns in between, [ndum] dummies. *)
Lemma pins_split (nx ndum : Z) (show_pins : bool) :
  0 <= nx -> 0 <= ndum ->
  pins (draw_layout bot_layer_id w_tracks nx ndum show_pins)
  = (dummy_pin bot_layer_id w_tracks show_pins <$> seqZ 0 ndum)
    ++ (seqZ 0 nx ≫= fun i => [bot_pin bot_layer_id w_tracks ndum show_pins i;
                              top_pin bot_layer_id w_tracks ndum show_pins i])
    ++ (dummy_pin bot_layer_id w_tracks show_pins <$> seqZ (nx + ndum) ndum).
Proof.
  intros Hnx Hndum. cbn [draw_layout pins].
  replace (nx + 2 * ndum) with (ndum + (nx + ndum)) by lia.
  rewrite seqZ_app by lia. rewrite (seqZ_app (0 + ndum)) by lia.
  rewrite !bind_app. f_equal; [|f_equal].
  - rewrite <- bind_singleton_fmap. apply bind_ext_in.
    intros idx Hidx%elem_of_seqZ. apply column_pins_dummy. lia.
  - replace (0 + ndum) with (ndum + 0) by lia.
    rewrite <- (fmap_add_seqZ ndum 0 nx), list_fmap_bind. apply bind_ext_in.
    intros i Hi%elem_of_seqZ. apply column_pins_exported. lia.
  - replace (0 + ndum + nx) with (nx + ndum) by lia.
    rewrite <- bind_singleton_fmap. apply bind_ext_in.
    intros idx Hidx%elem_of_seqZ. apply column_pins_dummy. lia.
Qed.

Lemma filter_all {A : Type} (P : A -> Prop) `{forall x, Decision (P x)} (l : list A) :
  Forall P l -> filter P l = l.
Proof.
  induction 1 as [|x l Hx _ IH]; [done|]. by rewrite filter_cons_True, IH.
Qed.

Lemma filter_none {A : Type} (P : A -> Prop) `{forall x, Decision (P x)} (l : list A) :
  Forall (fun x => ~ P x) l -> filter P l = [].
Proof.
  induction 1 as [|x l Hx _ IH]; [done|]. by rewrite filter_cons_False.
Qed.

(** The names of the pins that are not dummies. *)
Lemma exported_names (nx ndum : Z) (show_pins : bool) :
  0 <= nx -> 0 <= ndum ->
  pin_name <$> filter (fun p => pin_name p <> "dummy")
                 (pins (draw_layout bot_layer_id w_tracks nx ndum show_pins))
  = seqZ 0 nx ≫= fun i => [indexed_name "bot" i; indexed_name "top" i].
Proof.
  intros Hnx Hndum. rewrite pins_split by done. rewrite !filter_app.
  rewrite !(filter_none _ (dummy_pin _ _ _ <$> _)).
  - rewrite app_nil_l, app_nil_r. rewrite filter_all.
    + induction (seqZ 0 nx) as [|i l IH]; [done|].
      rewrite !bind_cons, fmap_app, IH. done.
    + apply Forall_bind, Forall_forall. intros i _.
      repeat constructor; cbn; [apply bot_name_not_dummy | apply top_name_not_dummy].
  - apply Forall_fmap, Forall_forall. intros i _. cbn. tauto.
  - apply Forall_fmap, Forall_forall. intros i _. cbn. tauto.
Qed.

Lemma exported_names_NoDup (nx : Z) :
  NoDup (seqZ 0 nx ≫= fun i => [indexed_name "bot" i; indexed_name "top" i]).
Proof.
  apply NoDup_bind; [| | apply NoDup_seqZ].
  - intros i j name _ _ Hi Hj.
    apply elem_of_cons in Hi as [->|Hi]; [|apply list_elem_of_singleton in Hi as ->];
      (apply elem_of_cons in Hj as [Hj|Hj]; [|apply list_elem_of_singleton in Hj]).
    + by apply indexed_name_inj in Hj.
    + by apply bot_name_not_top in Hj.
    + symmetry in Hj. by apply bot_name_not_top in Hj.
    + by apply indexed_name_inj in Hj.
  - intros i _. apply NoDup_cons. split; [|apply NoDup_singleton].
    intros Hin%list_elem_of_singleton. by apply bot_name_not_top in Hin.
Qed.

End ResistorFacts.

(** C5: pin placement in [LoadResistor.draw_layout].  For [nx >= 1] and
    [ndum >= 0] the array drawn has [nx + 2*ndum] columns and one row.
    The resistor of column [idx] is pinned ['dummy'] if and only if
    [idx < ndum] or [idx >= nx + ndum]; every other column [idx] is
    exported as the pins ['bot<idx-ndum>'] and ['top<idx-ndum>'].  In the
    order they are added the pins are [ndum] dummies, the bottom and top
    pins of the [nx] columns in between, and [ndum] dummies, so that the
    names exported are [bot<0>, top<0>, ..., bot<nx-1>, top<nx-1>],
    without a gap or a duplicate. *)
Theorem load_resistor_pin_placement (bot_layer_id : Z) (w_tracks : Z * Z * Z * Z)
    (nx ndum : Z) (show_pins : bool) :
  1 <= nx -> 0 <= ndum ->
  let layout := LoadResistor.draw_layout bot_layer_id w_tracks nx ndum show_pins in
  let pins := LoadResistor.pins layout in
  let bot := PinSpec.bot_wire bot_layer_id w_tracks in
  let top := PinSpec.top_wire bot_layer_id w_tracks in
  LoadResistor.array_nx layout = nx + 2 * ndum /\
  LoadResistor.array_ny layout = 1 /\
  (forall idx, 0 <= idx < nx + 2 * ndum ->
     ({| pin_name := "dummy"; pin_warr := ConnectWires [bot idx; top idx];
         pin_show := show_pins |} ∈ pins
      <-> idx < ndum \/ idx >= nx + ndum)) /\
  (forall idx, 0 <= idx < nx + 2 * ndum -> ~ (idx < ndum \/ idx >= nx + ndum) ->
     {| pin_name := indexed_name "bot" (idx - ndum); pin_warr := bot idx;
        pin_show := show_pins |} ∈ pins /\
     {| pin_name := indexed_name "top" (idx - ndum); pin_warr := top idx;
        pin_show := show_pins |} ∈ pins) /\
  pins = (PinSpec.dummy_pin bot_layer_id w_tracks show_pins <$> seqZ 0 ndum)
         ++ (seqZ 0 nx ≫= fun i =>
               [PinSpec.bot_pin bot_layer_id w_tracks ndum show_pins i;
                PinSpec.top_pin bot_layer_id w_tracks ndum show_pins i])
         ++ (PinSpec.dummy_pin bot_layer_id w_tracks show_pins <$> seqZ (nx + ndum) ndum) /\
  pin_name <$> filter (fun p => pin_name p <> "dummy") pins
  = (seqZ 0 nx ≫= fun i => [indexed_name "bot" i; indexed_name "top" i]) /\
  NoDup (seqZ 0 nx ≫= fun i => [indexed_name "bot" i; indexed_name "top" i]).
Proof.
  intros Hnx Hndum layout pins bot top.
  split; [done|]. split; [done|]. split; [|split; [|split; [|split]]].
  - intros idx Hidx. split.
    + intros Hin. apply list_elem_of_bind in Hin as (idx' & Hin & _).
      unfold LoadResistor.column_pins in Hin.
      destruct ((idx' <? ndum) || (idx' >=? nx + ndum)) eqn:Hcond.
      * apply list_elem_of_singleton in Hin. injection Hin as Hbot _.
        apply (bot_wire_inj bot_layer_id w_tracks) in Hbot. subst idx'.
        apply orb_true_iff in Hcond as [H%Z.ltb_lt|H%Z.geb_le]; lia.
      * apply elem_of_cons in Hin as [[=]|Hin].
        by apply list_elem_of_singleton in Hin.
    + intros Hcond. apply list_elem_of_bind. exists idx. split.
      * rewrite column_pins_dummy by done. by apply list_elem_of_singleton.
      * apply elem_of_seqZ. lia.
  - intros idx Hidx Hcond.
    assert (LoadResistor.column_pins bot_layer_id w_tracks nx ndum show_pins idx
            = [ {| pin_name := indexed_name "bot" (idx - ndum); pin_warr := bot idx;
                   pin_show := show_pins |};
                {| pin_name := indexed_name "top" (idx - ndum); pin_warr := top idx;
                   pin_show := show_pins |} ]) as Hcol.
    { unfold LoadResistor.column_pins.
      destruct (Z.ltb_spec idx ndum); [lia|].
      destruct (Z.geb_spec idx (nx + ndum)); [lia | done]. }
    split; apply list_elem_of_bind; exists idx;
      (split; [rewrite Hcol | apply elem_of_seqZ; lia]).
    + by left.
    + right. by left.
  - apply pins_split; lia.
  - apply exported_names; lia.
  - apply exported_names_NoDup.
Qed.

Lemma load_resistor_pin_placement_witness :
  pin_name <$> LoadResistor.pins (LoadResistor.draw_layout 4 (1, 1, 2, 2) 2 1 true)
  = ["dummy"; "bot<0>"; "top<0>"; "bot<1>"; "top<1>"; "dummy"].
Proof.
  pose proof (load_resistor_pin_placement 4 (1, 1, 2, 2) 2 1 true ltac:(lia) ltac:(lia))
    as (_ & _ & _ & _ & Hpins & _).
  rewrite Hpins. reflexivity.
Defined.

(** ** The output tracks of CMLLoadSingle *)

Example sample_load_run :
  Sample.load_run = Ok Sample.load_state
  /\ CMLLoadSingle.output_tracks Z Sample.load_state = Some [1; 2]
  /\ pin_name <$> CMLLoadSingle.pins Z Sample.load_state = ["VSS"; "VSS"; "VSS"; "VSS"]
  /\ CMLLoadSingle.reexports Z Sample.load_state
     = [("bot<0>", "out<0>"); ("bot<1>", "out<1>")].
Proof. vm_compute. repeat split. Qed.

Section LoadFacts.

Import CMLLoadSingle.

Variable track_index : Type.
Variable base_index : warr -> track_index.
Variable missing_port : result (list warr).
Variable bot_layer_id : Z.
Variable w_tracks : Z * Z * Z * Z.
Variable port_name : string.
Variable sub_warrs : list warr.

Abbreviation outputs :=
  (export_outputs track_index base_index missing_port port_name sub_warrs).

(** The loop over the columns appends, for each index in turn, the base
    index of the first pin of the port ['top<idx>']. *)
Lemma export_outputs_tracks (res_pins : list pin) (show_pins : bool)
    (idxs : list Z) (self st' : state track_index) (tracks : list track_index) :
  _output_tracks _ self = Some tracks ->
  outputs res_pins show_pins self idxs = Ok st' ->
  exists tops,
    Forall2 (fun idx top => exists rest,
               get_all_port_pins missing_port res_pins (indexed_name "top" idx)
               = Ok (top :: rest)) idxs tops /\
    _output_tracks _ st' = Some (tracks ++ (base_index <$> tops)).
Proof.
  revert self tracks. induction idxs as [|idx idxs IH]; intros self tracks Hself H.
  - injection H as <-. exists []. split; [constructor|].
    by rewrite app_nil_r.
  - cbn [export_outputs] in H. unfold mbind, result_bind, export_output in H.
    destruct (get_all_port_pins missing_port res_pins (indexed_name "top" idx))
      as [[|top rest]|e] eqn:Htop; [done| |done].
    cbn [first_item] in H.
    destruct (get_all_port_pins missing_port res_pins (indexed_name "bot" idx))
      as [bots|e]; [|done].
    apply IH with (tracks := tracks ++ [base_index top]) in H as (tops & Htops & Hout).
    + exists (top :: tops). split; [constructor; eauto|].
      rewrite Hout. cbn. by rewrite <- app_assoc.
    + cbn. by rewrite Hself.
Qed.

Abbreviation res_pins_of nx ndum :=
  (LoadResistor.pins (LoadResistor.draw_layout bot_layer_id w_tracks nx ndum false)).

(** Among the pins of the resistor array, the port ['top<i>'] has one
    pin: the top wire of column [i + ndum]. *)
Lemma filter_top_pins (nx ndum i : Z) :
  0 <= nx -> 0 <= ndum -> 0 <= i < nx ->
  filter (fun p => pin_name p = indexed_name "top" i) (res_pins_of nx ndum)
  = [PinSpec.top_pin bot_layer_id w_tracks ndum false i].
Proof.
  intros Hnx Hndum Hi. rewrite pins_split by done. rewrite !filter_app.
  rewrite !(filter_none _ (PinSpec.dummy_pin _ _ _ <$> _)).
  2, 3: apply Forall_fmap, Forall_forall; intros j _; cbn;
        intros E; symmetry in E; by apply top_name_not_dummy in E.
  rewrite app_nil_l, app_nil_r.
  replace nx with (i + (1 + (nx - i - 1))) by lia.
  rewrite seqZ_app, (seqZ_app (0 + i) 1) by lia.
  rewrite !bind_app, !filter_app.
  rewrite (filter_none _ (seqZ 0 i ≫= _)), (filter_none _ (seqZ (0 + i + 1) _ ≫= _)).
  - replace (0 + i) with i by lia. change (seqZ i 1) with [i].
    rewrite bind_singleton, filter_cons_False, filter_cons_True; [done..|].
    cbn. apply bot_name_not_top.
  - apply Forall_bind, Forall_forall. intros j Hj%elem_of_seqZ.
    repeat constructor; cbn; [apply bot_name_not_top|].
    intros E%indexed_name_inj. lia.
  - apply Forall_bind, Forall_forall. intros j Hj%elem_of_seqZ.
    repeat constructor; cbn; [apply bot_name_not_top|].
    intros E%indexed_name_inj. lia.
Qed.

Lemma filter_bot_pins (nx ndum i : Z) :
  0 <= nx -> 0 <= ndum -> 0 <= i < nx ->
  filter (fun p => pin_name p = indexed_name "bot" i) (res_pins_of nx ndum)
  = [PinSpec.bot_pin bot_layer_id w_tracks ndum false i].
Proof.
  intros Hnx Hndum Hi. rewrite pins_split by done. rewrite !filter_app.
  rewrite !(filter_none _ (PinSpec.dummy_pin _ _ _ <$> _)).
  2, 3: apply Forall_fmap, Forall_forall; intros j _; cbn;
        intros E; symmetry in E; by apply bot_name_not_dummy in E.
  rewrite app_nil_l, app_nil_r.
  replace nx with (i + (1 + (nx - i - 1))) by lia.
  rewrite seqZ_app, (seqZ_app (0 + i) 1) by lia.
  rewrite !bind_app, !filter_app.
  rewrite (filter_none _ (seqZ 0 i ≫= _)), (filter_none _ (seqZ (0 + i + 1) _ ≫= _)).
  - replace (0 + i) with i by lia. change (seqZ i 1) with [i].
    rewrite bind_singleton, filter_cons_True, filter_cons_False; [done| |done].
    cbn. intros E. symmetry in E. by apply bot_name_not_top in E.
  - apply Forall_bind, Forall_forall. intros j Hj%elem_of_seqZ.
    repeat constructor; cbn.
    + intros E%indexed_name_inj. lia.
    + intros E. symmetry in E. by apply bot_name_not_top in E.
  - apply Forall_bind, Forall_forall. intros j Hj%elem_of_seqZ.
    repeat constructor; cbn.
    + intros E%indexed_name_inj. lia.
    + intros E. symmetry in E. by apply bot_name_not_top in E.
Qed.

Lemma top_port_pins (nx ndum i : Z) :
  0 <= nx -> 0 <= ndum -> 0 <= i < nx ->
  get_all_port_pins missing_port (res_pins_of nx ndum) (indexed_name "top" i)
  = Ok [PinSpec.top_wire bot_layer_id w_tracks (i + ndum)].
Proof.
  intros. unfold get_all_port_pins. by rewrite filter_top_pins.
Qed.

Lemma bot_port_pins (nx ndum i : Z) :
  0 <= nx -> 0 <= ndum -> 0 <= i < nx ->
  get_all_port_pins missing_port (res_pins_of nx ndum) (indexed_name "bot" i)
  = Ok [PinSpec.bot_wire bot_layer_id w_tracks (i + ndum)].
Proof.
  intros. unfold get_all_port_pins. by rewrite filter_bot_pins.
Qed.

(** With at least one dummy column the port ['dummy'] is there. *)
Lemma dummy_port_pins (nx ndum : Z) :
  0 <= nx -> 1 <= ndum ->
  exists w ws,
    get_all_port_pins missing_port (res_pins_of nx ndum) "dummy" = Ok (w :: ws).
Proof.
  intros Hnx Hndum. unfold get_all_port_pins.
  rewrite pins_split by lia. rewrite (seqZ_cons 0 ndum) by lia.
  rewrite fmap_cons. cbn [app]. rewrite filter_cons_True by done.
  cbn. eauto.
Qed.

(** The loop over the columns runs to its end on the pins of the array. *)
Lemma export_outputs_completes (nx ndum : Z) (show_pins : bool) (idxs : list Z)
    (self : state track_index) :
  0 <= nx -> 0 <= ndum -> Forall (fun i => 0 <= i < nx) idxs ->
  exists st', outputs (res_pins_of nx ndum) show_pins self idxs = Ok st'.
Proof.
  intros Hnx Hndum Hidxs. revert self.
  induction Hidxs as [|i idxs Hi _ IH]; intros self; [by eexists|].
  cbn [export_outputs]. unfold export_output.
  rewrite top_port_pins, bot_port_pins by done. cbn. apply IH.
Qed.

End LoadFacts.

(** C6: the output tracks of [CMLLoadSingle].  Before [draw_layout] has
    run the property [output_tracks] is [None].  After [draw_layout] has
    completed, for [nx = res_params['nx'] >= 0], it is a list of length
    [nx] whose [i]-th element is the base track index of the first pin of
    the port ['top<i>'] of the resistor instance, for [i] from 0 to
    [nx - 1] in this order.  With at least one dummy column
    [draw_layout] does complete, and the [i]-th element is the base index
    of the exported top wire of column [i + ndum]. *)
Theorem output_tracks_after_draw (track_index : Type) (base_index : warr -> track_index)
    (missing_port : result (list warr)) (bot_layer_id : Z) (w_tracks : Z * Z * Z * Z)
    (port_name : string) (sub_warrs : list warr) (nx ndum : Z) (show_pins : bool) :
  let draw_layout :=
    CMLLoadSingle.draw_layout track_index base_index missing_port bot_layer_id
      w_tracks port_name sub_warrs nx ndum show_pins in
  let res_pins :=
    LoadResistor.pins (LoadResistor.draw_layout bot_layer_id w_tracks nx ndum false) in
  0 <= nx ->
  CMLLoadSingle.output_tracks _ (CMLLoadSingle.__init__ track_index) = None /\
  (forall self st',
     draw_layout self = Ok st' ->
     exists tracks,
       CMLLoadSingle.output_tracks _ st' = Some tracks /\
       Z.of_nat (length tracks) = nx /\
       forall i : nat, Z.of_nat i < nx ->
         exists top rest,
           get_all_port_pins missing_port res_pins (indexed_name "top" (Z.of_nat i))
           = Ok (top :: rest) /\
           tracks !! i = Some (base_index top)) /\
  (1 <= ndum ->
   forall self, exists st',
     draw_layout self = Ok st' /\
     CMLLoadSingle.output_tracks _ st'
     = Some ((fun i => base_index (PinSpec.top_wire bot_layer_id w_tracks (i + ndum)))
             <$> seqZ 0 nx)).
Proof.
  intros draw_layout res_pins Hnx.
  assert (forall self st',
            draw_layout self = Ok st' ->
            exists tops,
              Forall2 (fun idx top => exists rest,
                         get_all_port_pins missing_port res_pins (indexed_name "top" idx)
                         = Ok (top :: rest)) (seqZ 0 nx) tops /\
              CMLLoadSingle.output_tracks _ st' = Some (base_index <$> tops)) as Hdraw.
  { intros self st' H.
    unfold draw_layout, CMLLoadSingle.draw_layout, CMLLoadSingle._draw_layout_helper in H.
    unfold mbind, result_bind in H. fold res_pins in H.
    destruct (get_all_port_pins missing_port res_pins "dummy") as [dummies|e]; [|done].
    by apply export_outputs_tracks with (tracks := []) in H. }
  split; [done|]. split.
  - intros self st' H. destruct (Hdraw self st' H) as (tops & Htops & Hout).
    exists (base_index <$> tops). split; [done|].
    pose proof (Forall2_length _ _ _ Htops) as Hlen. rewrite length_seqZ in Hlen.
    split; [rewrite length_fmap; lia|].
    intros i Hi.
    destruct (Forall2_lookup_l _ _ _ i (0 + Z.of_nat i) Htops) as (top & Htop & rest & Hport).
    { apply lookup_seqZ. lia. }
    exists top, rest. split; [done|]. by rewrite list_lookup_fmap, Htop.
  - intros Hndum self.
    destruct (dummy_port_pins missing_port bot_layer_id w_tracks nx ndum Hnx Hndum)
      as (w & ws & Hdummy).
    assert (exists st', draw_layout self = Ok st') as [st' Hst'].
    { unfold draw_layout, CMLLoadSingle.draw_layout, CMLLoadSingle._draw_layout_helper.
      rewrite Hdummy. cbn.
      apply export_outputs_completes; [done | lia |].
      apply Forall_seqZ. lia. }
    exists st'. split; [done|].
    destruct (Hdraw self st' Hst') as (tops & Htops & ->). f_equal.
    pose proof (Forall2_length _ _ _ Htops) as Hlen. rewrite length_seqZ in Hlen.
    apply list_eq. intros i. rewrite !list_lookup_fmap.
    destruct (decide (Z.of_nat i < nx)) as [Hi|Hi].
    + destruct (Forall2_lookup_l _ _ _ i (0 + Z.of_nat i) Htops)
        as (top & Htop & rest & Hport); [apply lookup_seqZ; lia|].
      rewrite Htop, lookup_seqZ_lt by lia. cbn.
      unfold res_pins in Hport. rewrite top_port_pins in Hport by lia.
      by injection Hport as <- _.
    + rewrite lookup_seqZ_ge by lia. rewrite (proj2 (lookup_ge_None tops i)) by lia.
      done.
Qed.

Lemma output_tracks_after_draw_witness :
  exists tracks,
    CMLLoadSingle.output_tracks Z Sample.load_state = Some tracks /\
    Z.of_nat (length tracks) = 2 /\
    forall i : nat, Z.of_nat i < 2 ->
      exists top rest,
        get_all_port_pins (Raise KeyError)
          (LoadResistor.pins (LoadResistor.draw_layout 4 (1, 1, 2, 2) 2 1 false))
          (indexed_name "top" (Z.of_nat i)) = Ok (top :: rest) /\
        tracks !! i = Some (Sample.port_col top).
Proof.
  apply (proj1 (proj2 (output_tracks_after_draw Z Sample.port_col (Raise KeyError)
                         4 (1, 1, 2, 2) "VSS" [SubPin 0] 2 1 true ltac:(lia)))
           (CMLLoadSingle.__init__ Z) Sample.load_state).
  vm_compute. reflexivity.
Defined.

(** ** The driver *)

Example sample_driver_run :
  Sample.driver_draw (CMLDriverPMOS.__init__ Z)
  = Some (Ok (Sample.driver_state, Sample.driver_tracks, Sample.driver_core),
          Sample.driver_heap_after)
  /\ Sample.driver_tracks = [1; 2]
  /\ CMLDriverPMOS.inst_name <$> CMLDriverPMOS.instances Z Sample.driver_state
     = ["XLOADN"; "XCORE"; "XLOADP"]
  /\ CMLCorePMOS.fg_tot Sample.driver_core = 16.
Proof. vm_compute. repeat split. Qed.

Section DriverFacts.

Import CMLDriverPMOS.

Variable track_index : Type.
Variable base_index : warr -> track_index.
Variable missing_port : result (list warr).
Variable bot_layer_id : Z.
Variable w_tracks : Z * Z * Z * Z.
Variable port_name : string.
Variable sub_warrs : list warr.
Variable grid : CMLCorePMOS.RoutingGrid.
Variable new_AnalogBaseInfo : Q -> Z -> CMLCorePMOS.AnalogBaseInfo.
Variable load_tot_width_unit : Z.
Variable load_height : Z.
Variable core_height : Z.

Abbreviation draw :=
  (draw_layout track_index base_index missing_port bot_layer_id w_tracks port_name
     sub_warrs grid new_AnalogBaseInfo load_tot_width_unit load_height core_height).

(** What a completed [draw_layout] has done: drawn the load, copied the
    EM specs, drawn the core on the load's output tracks, and placed the
    three instances. *)
Lemma draw_layout_Ok (fuel : nat) (p : params) (self self' : state track_index)
    (h h' : gmap positive (gmap string float)) (tracks : list track_index)
    (core : CMLCorePMOS.base_layout) :
  draw fuel p self h = Some (Ok (self', tracks, core), h') ->
  exists load,
    load_master track_index base_index missing_port bot_layer_id w_tracks port_name
      sub_warrs p = Ok load /\
    CMLLoadSingle.output_tracks _ load = Some tracks /\
    CMLCorePMOS._draw_layout_helper track_index grid new_AnalogBaseInfo fuel
      (core_params track_index load_tot_width_unit p tracks
         (fst (Store.copy_at (em_specs (res p)) h)))
      (snd (Store.copy_at (em_specs (res p)) h))
    = Some (Ok core, h') /\
    self' = place_instances track_index load_height core_height self.
Proof.
  unfold draw_layout, _draw_layout_helper. intros H.
  destruct (load_master _ _ _ _ _ _ _ p) as [load|e]; [|done].
  destruct (CMLLoadSingle.output_tracks _ load) as [tracks'|] eqn:Htracks; [|done].
  destruct (Store.copy_at (em_specs (res p)) h) as [em h1].
  destruct (CMLCorePMOS._draw_layout_helper _ _ _ _ _ _) as [[[core'|e] h2]|] eqn:Hcore;
    [|done|done].
  injection H as <- <- <- <-. exists load. by cbn.
Qed.

End DriverFacts.

(** C7: [CMLDriverPMOS.output_tracks] is always [None].  [__init__] sets
    the field to [None]; a [draw_layout] that returns leaves the field as
    it was, while the load master it builds does have its output tracks,
    which are the ones the core is drawn on; hence the property is [None]
    in every state an object reaches. *)
Theorem driver_output_tracks_always_None (track_index : Type)
    (base_index : warr -> track_index) (missing_port : result (list warr))
    (bot_layer_id : Z) (w_tracks : Z * Z * Z * Z) (port_name : string)
    (sub_warrs : list warr) (grid : CMLCorePMOS.RoutingGrid)
    (new_AnalogBaseInfo : Q -> Z -> CMLCorePMOS.AnalogBaseInfo)
    (load_tot_width_unit load_height core_height : Z) :
  let draw_layout :=
    CMLDriverPMOS.draw_layout track_index base_index missing_port bot_layer_id w_tracks
      port_name sub_warrs grid new_AnalogBaseInfo load_tot_width_unit load_height
      core_height in
  CMLDriverPMOS.output_tracks _ (CMLDriverPMOS.__init__ track_index) = None /\
  (forall fuel p self h self' tracks core h',
     draw_layout fuel p self h = Some (Ok (self', tracks, core), h') ->
     CMLDriverPMOS.output_tracks _ self' = CMLDriverPMOS.output_tracks _ self /\
     exists load,
       CMLDriverPMOS.load_master track_index base_index missing_port bot_layer_id
         w_tracks port_name sub_warrs p = Ok load /\
       CMLLoadSingle.output_tracks _ load = Some tracks /\
       exists em h1,
         CMLCorePMOS._draw_layout_helper track_index grid new_AnalogBaseInfo fuel
           (CMLDriverPMOS.core_params track_index load_tot_width_unit p tracks em) h1
         = Some (Ok core, h') /\
         CMLCorePMOS.output_tracks _
           (CMLDriverPMOS.core_params track_index load_tot_width_unit p tracks em)
         = tracks) /\
  (forall self,
     DriverSpec.reachable track_index base_index missing_port bot_layer_id w_tracks
       port_name sub_warrs grid new_AnalogBaseInfo load_tot_width_unit load_height
       core_height self ->
     CMLDriverPMOS.output_tracks _ self = None).
Proof.
  intros draw_layout.
  assert (forall fuel p self h self' tracks core h',
            draw_layout fuel p self h = Some (Ok (self', tracks, core), h') ->
            CMLDriverPMOS.output_tracks _ self' = CMLDriverPMOS.output_tracks _ self)
    as Hkeep.
  { intros fuel p self h self' tracks core h' H.
    apply draw_layout_Ok in H as (load & _ & _ & _ & ->). done. }
  split; [done|]. split.
  - intros fuel p self h self' tracks core h' H. split; [by eapply Hkeep|].
    apply draw_layout_Ok in H as (load & Hload & Htracks & Hcore & _).
    exists load. split; [done|]. split; [done|]. eauto.
  - intros self Hreach. induction Hreach as [|fuel p self self' h h' tracks core _ IH Hdraw].
    + done.
    + rewrite <- IH. by eapply Hkeep.
Qed.

Lemma driver_output_tracks_always_None_witness :
  CMLDriverPMOS.output_tracks Z Sample.driver_state = None.
Proof.
  apply (proj2 (proj2 (driver_output_tracks_always_None Z Sample.port_col (Raise KeyError)
                         4 (1, 1, 2, 2) "VSS" [SubPin 0] Sample.grid
                         (fun _ _ => Sample.info) 1800 500 700))).
  apply (DriverSpec.reachable_draw _ _ _ _ _ _ _ _ _ _ _ _ 4 Sample.driver_params
           (CMLDriverPMOS.__init__ Z) Sample.driver_state Sample.heap
           Sample.driver_heap_after Sample.driver_tracks Sample.driver_core).
  - apply DriverSpec.reachable_init.
  - vm_compute. reflexivity.
Defined.

(** * Further properties *)

(** ** The search on a width that grows with the finger count *)

(** X1: when the total width is the finger count plus a constant number
    [c] of edge columns, and [tot_width_unit] is a multiple of the pitch,
    the two checks pass after exactly [c] rounds of the loop with
    [fg_tot = num_pitch - c] if [c >= 0], and the second check raises
    ValueError at once if [c < 0]. *)
Theorem affine_width_settles (get_total_width : Z -> Z -> Z)
    (tot_width_unit sd_pitch guard_ring_nf c : Z) :
  sd_pitch <> 0 ->
  tot_width_unit mod sd_pitch = 0 ->
  (forall fg, get_total_width fg guard_ring_nf = fg + c) ->
  let solve fuel :=
    FingerCount.solve_fg_tot get_total_width fuel tot_width_unit sd_pitch guard_ring_nf in
  (0 <= c ->
   (forall fuel, (Z.to_nat c <= fuel)%nat ->
      solve fuel = Some (Ok (tot_width_unit / sd_pitch - c))) /\
   (forall fuel, (fuel < Z.to_nat c)%nat -> solve fuel = None)) /\
  (c < 0 -> forall fuel, solve fuel = Some (Raise ValueError)).
Proof.
  intros Hsd Hmod Haffine solve. split.
  - intros Hc. split; intros fuel Hfuel; unfold solve.
    + replace (tot_width_unit / sd_pitch - c)
        with (tot_width_unit / sd_pitch - Z.of_nat (Z.to_nat c)) by lia.
      apply solve_fg_tot_passes; [done | done | | | done].
      * intros j Hj. rewrite Haffine. lia.
      * rewrite Haffine. lia.
    + rewrite solve_fg_tot_multiple by done.
      destruct (search_exit get_total_width guard_ring_nf (tot_width_unit / sd_pitch)
                  (Z.to_nat c)) as [_ Hnot].
      * intros j Hj. rewrite Haffine. lia.
      * rewrite Haffine. lia.
      * by rewrite Hnot.
  - intros Hc fuel. unfold solve. rewrite solve_fg_tot_multiple by done.
    destruct (search_exit get_total_width guard_ring_nf (tot_width_unit / sd_pitch) 0)
      as [Hdone _].
    + intros j Hj. lia.
    + rewrite Haffine. lia.
    + rewrite (Hdone fuel) by lia. rewrite Haffine. cbn beta iota.
      destruct (Z.eqb_spec (tot_width_unit / sd_pitch - Z.of_nat 0 + c)
                  (tot_width_unit / sd_pitch)) as [E|E]; [lia | done].
Qed.

Lemma affine_width_settles_witness :
  FingerCount.solve_fg_tot (fun fg _ => fg + 4) 4 1800 90 0 = Some (Ok 16)
  /\ FingerCount.solve_fg_tot (fun fg _ => fg + 4) 3 1800 90 0 = None.
Proof.
  destruct (proj1 (affine_width_settles (fun fg _ => fg + 4) 1800 90 0 4
                     ltac:(lia) eq_refl ltac:(reflexivity)) ltac:(lia))
    as [Hdone Hnot].
  split; [apply (Hdone 4%nat) | apply (Hnot 3%nat)]; cbn; lia.
Defined.

(** ** Edge cases of the EM specs *)

Section EmSpecsEdges.

Import Store CMLCorePMOS CoreSpec.

Variable track_index : Type.
Variable grid : RoutingGrid.
Variable new_AnalogBaseInfo : Q -> Z -> AnalogBaseInfo.

(** With a zero ratio the loop over the keys raises as soon as one of the
    keys is there, and does nothing if none is. *)
Lemma scale_keys_zero_ratio (ref : loc) (num_seg : Z) (cur_ratio : float)
    (keys : list string) (h : gmap positive (gmap string float)) (d : gmap string float) :
  h !! ref = Some d -> (cur_ratio =? 0)%float = true ->
  scale_keys ref num_seg cur_ratio keys h
  = if decide (Exists (fun key => is_Some (d !! key)) keys)
    then (Raise ZeroDivisionError, h) else (Ok tt, h).
Proof.
  intros Href Hz. induction keys as [|key keys IH].
  - cbn. destruct (decide _) as [H|]; [by apply Exists_nil in H | reflexivity].
  - cbn [scale_keys]. unfold mbind, py_bind, get_dict.
    rewrite (lookup_total_correct _ _ _ Href).
    destruct (d !! key) as [v|] eqn:Hkey.
    + unfold lift, py_truediv. rewrite Hz.
      destruct (decide (Exists _ (key :: keys))) as [|Hno]; [reflexivity|].
      destruct Hno. left. by rewrite Hkey.
    + cbn. rewrite IH.
      destruct (decide (Exists _ keys)) as [Hex|Hno];
        destruct (decide (Exists _ (key :: keys))) as [Hex'|Hno']; try done.
      * destruct Hno'. by right.
      * apply Exists_cons in Hex' as [Hk|Hex']; [|done].
        rewrite Hkey in Hk. by destruct Hk.
Qed.

Lemma scaled_without_keys (d d' : gmap string float) (f : float) :
  (forall key, key ∈ em_keys -> d !! key = None) -> scaled d d' f -> d' = d.
Proof.
  intros Hnone [Hout Hin]. apply map_eq. intros key.
  destruct (decide (key ∈ em_keys)) as [Hkey|Hkey].
  - by rewrite (Hin key Hkey), (Hnone key Hkey).
  - by apply Hout.
Qed.

End EmSpecsEdges.

(** X2: when [em_specs] has none of the keys ['idc'], ['iac_rms'] and
    ['iac_peak'], the reference specs are an unchanged copy of it, so the
    reference track is as wide and as widely spaced as the output track
    and the input space used is [max(input_space, hm_space)]. *)
Theorem no_current_keys_same_tracks (track_index : Type) (grid : CMLCorePMOS.RoutingGrid)
    (new_AnalogBaseInfo : Q -> Z -> CMLCorePMOS.AnalogBaseInfo)
    (fuel : nat) (p : CMLCorePMOS.params track_index)
    (h h' : gmap positive (gmap string float)) (d : gmap string float)
    (r : CMLCorePMOS.base_layout) :
  h !! CMLCorePMOS.em_specs _ p = Some d ->
  (forall key, key ∈ ["idc"; "iac_rms"; "iac_peak"] -> d !! key = None) ->
  CMLCorePMOS._draw_layout_helper track_index grid new_AnalogBaseInfo fuel p h
  = Some (Ok r, h') ->
  h' !! CMLCorePMOS.ref_em_specs r = Some d /\
  CMLCorePMOS.hm_width_ref r = CMLCorePMOS.hm_width r /\
  CMLCorePMOS.hm_space_ref r = CMLCorePMOS.hm_space r /\
  CMLCorePMOS.eff_input_space r
  = Z.max (CMLCorePMOS.input_space _ p) (CMLCorePMOS.hm_space r).
Proof.
  intros Hem Hnone H.
  destruct (helper_inv _ _ _ _ _ _ _ _ H) as [(e & _ & [=] & _)|(fgt & _ & Ht)].
  destruct (tracks_from_em_specs_inv _ _ _ _ _ _ _ _ _ Hem Ht)
    as [(_ & [[=]|[[=]|[=]]])
       |[(_ & [=])|(d' & cur_ratio & _ & _ & -> & Hscaled & _ & [= ->])]].
  apply (scaled_without_keys d d' _ Hnone) in Hscaled as ->.
  cbn [CoreSpec.layout_from CMLCorePMOS.ref_em_specs CMLCorePMOS.hm_width_ref
       CMLCorePMOS.hm_width CMLCorePMOS.hm_space_ref CMLCorePMOS.hm_space
       CMLCorePMOS.eff_input_space].
  rewrite lookup_insert_eq. repeat split. lia.
Qed.

Lemma no_current_keys_same_tracks_witness :
  MoreSamples.heap_on 4 2 MoreSamples.heap_no_currents !! 2%positive
  = Some {[ "dc_temp" := 70%float ]}
  /\ CMLCorePMOS.hm_width_ref (MoreSamples.layout_on 4 2 MoreSamples.heap_no_currents)
     = CMLCorePMOS.hm_width (MoreSamples.layout_on 4 2 MoreSamples.heap_no_currents).
Proof.
  destruct (no_current_keys_same_tracks Z Sample.grid (fun _ _ => Sample.info) 4
              (MoreSamples.core_params_fg 4 2) MoreSamples.heap_no_currents
              (MoreSamples.heap_on 4 2 MoreSamples.heap_no_currents)
              {[ "dc_temp" := 70%float ]}
              (MoreSamples.layout_on 4 2 MoreSamples.heap_no_currents) eq_refl)
    as (Hcopy & Hwidth & _).
  - intros key Hkey.
    repeat (apply elem_of_cons in Hkey as [->|Hkey]; [reflexivity|]).
    by apply elem_of_nil in Hkey.
  - vm_compute. reflexivity.
  - split; [exact Hcopy | exact Hwidth].
Defined.

(** [0 / b] is a zero, of the sign of [b]. *)
Lemma zero_over_nonzero (b : Z) :
  b <> 0 ->
  exists cur_ratio, py_int_truediv 0 b = Ok cur_ratio /\ (cur_ratio =? 0)%float = true.
Proof.
  intros Hb. unfold py_int_truediv.
  destruct (Z.eqb_spec b 0) as [|_]; [done|].
  destruct b as [|m|m]; [done| |]; eexists; split; reflexivity.
Qed.

(** X3: division by zero in the current ratio.  Once the two checks have
    passed on EM specs that do not name [bot_w]: with [fg_ref = 0] the
    helper raises ZeroDivisionError before it has copied the specs; with
    [fg = 0] and [fg_ref <> 0] it raises ZeroDivisionError, after the
    copy, exactly when the specs have one of ['idc'], ['iac_rms'],
    ['iac_peak'], and otherwise it goes through to [draw_base]. *)
Theorem zero_fingers_division (track_index : Type) (grid : CMLCorePMOS.RoutingGrid)
    (new_AnalogBaseInfo : Q -> Z -> CMLCorePMOS.AnalogBaseInfo)
    (fuel : nat) (p : CMLCorePMOS.params track_index)
    (h : gmap positive (gmap string float)) (d : gmap string float) (fg_tot : Z) :
  let info := CoreSpec.info_of _ new_AnalogBaseInfo p in
  let helper := CMLCorePMOS._draw_layout_helper track_index grid new_AnalogBaseInfo in
  h !! CMLCorePMOS.em_specs _ p = Some d ->
  d !! "bot_w" = None ->
  FingerCount.solve_fg_tot (CMLCorePMOS.get_total_width info) fuel
    (CMLCorePMOS.tot_width_unit _ p) (CMLCorePMOS.sd_pitch_unit info)
    (CMLCorePMOS.guard_ring_nf _ p) = Some (Ok fg_tot) ->
  (CMLCorePMOS.fg_ref _ p = 0 ->
   helper fuel p h = Some (Raise ZeroDivisionError, h)) /\
  (CMLCorePMOS.fg_ref _ p <> 0 -> CMLCorePMOS.fg _ p = 0 ->
   ((exists key, key ∈ ["idc"; "iac_rms"; "iac_peak"] /\ is_Some (d !! key)) ->
    helper fuel p h = Some (Raise ZeroDivisionError, <[fresh (dom h) := d]> h)) /\
   ((forall key, key ∈ ["idc"; "iac_rms"; "iac_peak"] -> d !! key = None) ->
    exists r, helper fuel p h = Some (Ok r, <[fresh (dom h) := d]> h))).
Proof.
  intros info helper Hem Hbot Hs. unfold helper.
  rewrite (helper_after_checks _ _ _ _ _ _ _ Hs).
  unfold CMLCorePMOS.tracks_from_em_specs, mbind, Store.py_bind, Store.get_dict, Store.lift.
  rewrite (lookup_total_correct _ _ _ Hem), Hbot.
  split.
  - intros Hzero. rewrite Hzero. done.
  - intros Hnz Hfg. rewrite Hfg.
    destruct (zero_over_nonzero _ Hnz) as (cur_ratio & -> & Hz).
    unfold Store.dict_copy, Store.copy_at. rewrite (lookup_total_correct _ _ _ Hem).
    rewrite (scale_keys_zero_ratio _ _ _ _ _ d (lookup_insert_eq _ _ _) Hz).
    split.
    + intros (key & Hkey & Hsome).
      destruct (decide _) as [|Hno]; [done|].
      destruct Hno. apply Exists_exists. eauto.
    + intros Hnone. destruct (decide _) as [Hex|]; [|by eexists].
      apply Exists_exists in Hex as (key & Hkey & Hsome).
      rewrite (Hnone key Hkey) in Hsome. by destruct Hsome.
Qed.

Lemma zero_fingers_division_witness :
  MoreSamples.run_on 4 0 Sample.heap = Some (Raise ZeroDivisionError, Sample.heap)
  /\ MoreSamples.run_on 0 2 Sample.heap
     = Some (Raise ZeroDivisionError,
             <[fresh (dom Sample.heap) :=
                 {[ "idc" := 2%float; "iac_rms" := 3%float; "dc_temp" := 70%float ]}]>
               Sample.heap).
Proof.
  split.
  - apply (proj1 (zero_fingers_division Z Sample.grid (fun _ _ => Sample.info) 4
                    (MoreSamples.core_params_fg 4 0) Sample.heap
                    {[ "idc" := 2%float; "iac_rms" := 3%float; "dc_temp" := 70%float ]} 16
                    eq_refl eq_refl eq_refl)).
    reflexivity.
  - apply (proj2 (zero_fingers_division Z Sample.grid (fun _ _ => Sample.info) 4
                    (MoreSamples.core_params_fg 0 2) Sample.heap
                    {[ "idc" := 2%float; "iac_rms" := 3%float; "dc_temp" := 70%float ]} 16
                    eq_refl eq_refl eq_refl)); [discriminate | reflexivity |].
    exists "idc". split; [by left | by eexists].
Defined.

(** X4: EM specs that name [bot_w] clash with the keyword the helper
    passes itself: once the two checks have passed, the helper raises
    TypeError and leaves the heap as it was. *)
Theorem bot_w_keyword_clash (track_index : Type) (grid : CMLCorePMOS.RoutingGrid)
    (new_AnalogBaseInfo : Q -> Z -> CMLCorePMOS.AnalogBaseInfo)
    (fuel : nat) (p : CMLCorePMOS.params track_index)
    (h : gmap positive (gmap string float)) (d : gmap string float) (fg_tot : Z) :
  let info := CoreSpec.info_of _ new_AnalogBaseInfo p in
  h !! CMLCorePMOS.em_specs _ p = Some d ->
  is_Some (d !! "bot_w") ->
  FingerCount.solve_fg_tot (CMLCorePMOS.get_total_width info) fuel
    (CMLCorePMOS.tot_width_unit _ p) (CMLCorePMOS.sd_pitch_unit info)
    (CMLCorePMOS.guard_ring_nf _ p) = Some (Ok fg_tot) ->
  CMLCorePMOS._draw_layout_helper track_index grid new_AnalogBaseInfo fuel p h
  = Some (Raise TypeError, h).
Proof.
  intros info Hem [v Hbot] Hs.
  rewrite (helper_after_checks _ _ _ _ _ _ _ Hs).
  unfold CMLCorePMOS.tracks_from_em_specs, mbind, Store.py_bind, Store.get_dict, Store.lift.
  by rewrite (lookup_total_correct _ _ _ Hem), Hbot.
Qed.

Lemma bot_w_keyword_clash_witness :
  MoreSamples.run_on 4 2 MoreSamples.heap_bot_w
  = Some (Raise TypeError, MoreSamples.heap_bot_w).
Proof.
  apply (bot_w_keyword_clash Z Sample.grid (fun _ _ => Sample.info) 4
           (MoreSamples.core_params_fg 4 2) MoreSamples.heap_bot_w
           {[ "bot_w" := 2%float; "idc" := 1%float ]} 16 eq_refl);
    [by eexists | reflexivity].
Defined.

(** ** More on LoadResistor and CMLLoadSingle *)

Section ResistorEdges.

Import LoadResistor PinSpec.

Variable bot_layer_id : Z.
Variable w_tracks : Z * Z * Z * Z.

(** With no dummy requested, or a negative number of them, no column
    meets the test for a dummy: every column [idx] drawn is exported
    under the index [idx - ndum]. *)
Lemma pins_without_dummies (nx ndum : Z) (show_pins : bool) :
  ndum <= 0 ->
  pins (draw_layout bot_layer_id w_tracks nx ndum show_pins)
  = seqZ 0 (nx + 2 * ndum) ≫= fun idx =>
      [ {| pin_name := indexed_name "bot" (idx - ndum);
           pin_warr := bot_wire bot_layer_id w_tracks idx;
           pin_show := show_pins |};
        {| pin_name := indexed_name "top" (idx - ndum);
           pin_warr := top_wire bot_layer_id w_tracks idx;
           pin_show := show_pins |} ].
Proof.
  intros Hndum. cbn [draw_layout pins]. apply bind_ext_in.
  intros idx Hidx%elem_of_seqZ. unfold column_pins.
  destruct (Z.ltb_spec idx ndum); [lia|].
  destruct (Z.geb_spec idx (nx + ndum)); [lia | done].
Qed.

Lemma no_dummy_pin (nx ndum : Z) (show_pins : bool) :
  ndum <= 0 ->
  filter (fun p => pin_name p = "dummy")
    (pins (draw_layout bot_layer_id w_tracks nx ndum show_pins)) = [].
Proof.
  intros Hndum. rewrite pins_without_dummies by done.
  apply filter_none, Forall_bind, Forall_forall. intros idx _.
  repeat constructor; cbn; [apply bot_name_not_dummy | apply top_name_not_dummy].
Qed.

(** The dummy pins of an array with dummies on both sides. *)
Lemma filter_dummy_pins (nx ndum : Z) (show_pins : bool) :
  0 <= nx -> 0 <= ndum ->
  filter (fun p => pin_name p = "dummy")
    (pins (draw_layout bot_layer_id w_tracks nx ndum show_pins))
  = (dummy_pin bot_layer_id w_tracks show_pins <$> seqZ 0 ndum)
    ++ (dummy_pin bot_layer_id w_tracks show_pins <$> seqZ (nx + ndum) ndum).
Proof.
  intros Hnx Hndum. rewrite pins_split by done. rewrite !filter_app.
  rewrite !(filter_all _ (dummy_pin _ _ _ <$> _)).
  2, 3: by apply Forall_fmap, Forall_forall.
  rewrite (filter_none _ (seqZ 0 nx ≫= _)); [done|].
  apply Forall_bind, Forall_forall. intros i _.
  repeat constructor; cbn; [apply bot_name_not_dummy | apply top_name_not_dummy].
Qed.

End ResistorEdges.

(** X5: a negative [ndum] is not refused.  With [ndum < 0] and
    [nx + 2*ndum] columns left to draw, no column becomes a dummy and
    column [idx] is exported as ['bot<idx-ndum>'] and ['top<idx-ndum>'],
    so the exported indices run from [-ndum] to [nx + ndum - 1] and
    ['bot<0>'] and ['top<0>'] are not among the pins. *)
Theorem negative_ndum_shifts_indices (bot_layer_id : Z) (w_tracks : Z * Z * Z * Z)
    (nx ndum : Z) (show_pins : bool) :
  ndum < 0 ->
  let pins :=
    LoadResistor.pins (LoadResistor.draw_layout bot_layer_id w_tracks nx ndum show_pins) in
  pin_name <$> pins
  = (seqZ (- ndum) (nx + 2 * ndum) ≫= fun i => [indexed_name "bot" i; indexed_name "top" i]) /\
  (forall p, p ∈ pins ->
     pin_name p <> "dummy" /\ pin_name p <> indexed_name "bot" 0 /\
     pin_name p <> indexed_name "top" 0).
Proof.
  intros Hndum pins. unfold pins. rewrite pins_without_dummies by lia. split.
  - assert (seqZ (- ndum) (nx + 2 * ndum) = Z.add (- ndum) <$> seqZ 0 (nx + 2 * ndum))
      as -> by (rewrite fmap_add_seqZ; f_equal; lia).
    rewrite list_fmap_bind.
    induction (seqZ 0 (nx + 2 * ndum)) as [|idx l IH]; [done|].
    rewrite !bind_cons, fmap_app, IH. cbn.
    by replace (- ndum + idx) with (idx - ndum) by lia.
  - intros p Hp. apply list_elem_of_bind in Hp as (idx & Hp & Hidx%elem_of_seqZ).
    apply elem_of_cons in Hp as [->|Hp]; [|apply list_elem_of_singleton in Hp as ->]; cbn.
    + split; [apply bot_name_not_dummy|]. split; [|apply bot_name_not_top].
      intros E%indexed_name_inj. lia.
    + split; [apply top_name_not_dummy|]. split.
      * intros E. symmetry in E. by apply bot_name_not_top in E.
      * intros E%indexed_name_inj. lia.
Qed.

Lemma negative_ndum_shifts_indices_witness :
  pin_name <$> LoadResistor.pins (LoadResistor.draw_layout 4 (1, 1, 2, 2) 4 (-1) true)
  = ["bot<1>"; "top<1>"; "bot<2>"; "top<2>"].
Proof.
  rewrite (proj1 (negative_ndum_shifts_indices 4 (1, 1, 2, 2) 4 (-1) true ltac:(lia))).
  reflexivity.
Defined.

Section LoadPins.

Import CMLLoadSingle.

Variable track_index : Type.
Variable base_index : warr -> track_index.
Variable missing_port : result (list warr).
Variable bot_layer_id : Z.
Variable w_tracks : Z * Z * Z * Z.
Variable port_name : string.
Variable sub_warrs : list warr.

Abbreviation sub_pin := (LoadSpec.sub_pin port_name sub_warrs).

Lemma connect_dummies_inv (dummies : list warr) (show_pins : bool)
    (self : state track_index) :
  let st := connect_dummies track_index port_name sub_warrs dummies show_pins self in
  pins _ st = pins _ self ++ (sub_pin show_pins <$> dummies) /\
  reexports _ st = reexports _ self /\
  _tot_width _ st = _tot_width _ self /\
  _output_tracks _ st = _output_tracks _ self.
Proof.
  revert self. induction dummies as [|w dummies IH]; intros self.
  - cbn. by rewrite app_nil_r.
  - cbn [connect_dummies fold_left].
    destruct (IH (add_pin track_index port_name
                    (ConnectToTracks sub_warrs (TrackIdOf w)) show_pins self))
      as (Hpins & Hre & Htot & Hout).
    cbn in Hpins. rewrite <- app_assoc in Hpins. done.
Qed.

(** What the loop over the columns adds: a substrate pin for each top
    wire and the re-export of each bottom port. *)
Lemma export_outputs_inv (res_pins : list pin) (show_pins : bool) (idxs : list Z)
    (self st' : state track_index) :
  export_outputs track_index base_index missing_port port_name sub_warrs
    res_pins show_pins self idxs = Ok st' ->
  exists tops,
    Forall2 (fun idx top => exists rest,
               get_all_port_pins missing_port res_pins (indexed_name "top" idx)
               = Ok (top :: rest)) idxs tops /\
    pins _ st' = pins _ self ++ (sub_pin show_pins <$> tops) /\
    reexports _ st'
    = reexports _ self
      ++ ((fun idx => (indexed_name "bot" idx, indexed_name "out" idx)) <$> idxs) /\
    _tot_width _ st' = _tot_width _ self.
Proof.
  revert self. induction idxs as [|idx idxs IH]; intros self H.
  - injection H as <-. exists []. split; [constructor|]. by rewrite !app_nil_r.
  - cbn [export_outputs] in H. unfold mbind, result_bind, export_output in H.
    destruct (get_all_port_pins missing_port res_pins (indexed_name "top" idx))
      as [[|top rest]|e] eqn:Htop; [done| |done].
    cbn [first_item] in H.
    destruct (get_all_port_pins missing_port res_pins (indexed_name "bot" idx))
      as [bots|e]; [|done].
    apply IH in H as (tops & Htops & Hpins & Hre & Htot).
    exists (top :: tops). split; [constructor; eauto|].
    rewrite Hpins, Hre, Htot. cbn. by rewrite <- !app_assoc.
Qed.

Lemma draw_layout_inv (nx ndum : Z) (show_pins : bool) (self st' : state track_index) :
  draw_layout track_index base_index missing_port bot_layer_id w_tracks port_name
    sub_warrs nx ndum show_pins self = Ok st' ->
  let res_pins :=
    LoadResistor.pins (LoadResistor.draw_layout bot_layer_id w_tracks nx ndum false) in
  exists dummies tops,
    get_all_port_pins missing_port res_pins "dummy" = Ok dummies /\
    Forall2 (fun idx top => exists rest,
               get_all_port_pins missing_port res_pins (indexed_name "top" idx)
               = Ok (top :: rest)) (seqZ 0 nx) tops /\
    _output_tracks _ st' = Some (base_index <$> tops) /\
    pins _ st' = pins _ self ++ (sub_pin show_pins <$> dummies ++ tops) /\
    reexports _ st'
    = reexports _ self
      ++ ((fun idx => (indexed_name "bot" idx, indexed_name "out" idx)) <$> seqZ 0 nx) /\
    _tot_width _ st' = _tot_width _ self.
Proof.
  intros H res_pins. unfold draw_layout, _draw_layout_helper in H.
  unfold mbind, result_bind in H. fold res_pins in H.
  destruct (get_all_port_pins missing_port res_pins "dummy") as [dummies|e]; [|done].
  destruct (connect_dummies_inv dummies show_pins self) as (Hpins & Hre & Htot & _).
  pose proof H as H'.
  apply export_outputs_tracks with (tracks := []) in H as (tops & Htops & Hout); [|done].
  apply export_outputs_inv in H' as (tops' & Htops' & Hpins' & Hre' & Htot').
  cbn [pins reexports _tot_width] in Hpins', Hre', Htot'.
  assert (tops' = tops) as ->.
  { clear -Htops Htops'. revert tops' Htops'.
    induction Htops as [|idx top idxs tops [rest Hport] _ IH]; intros tops' Htops'.
    - by apply Forall2_nil_inv_l in Htops'.
    - apply Forall2_cons_inv_l in Htops' as (top' & tops'' & [rest' Hport'] & Htops' & ->).
      rewrite Hport in Hport'. injection Hport' as <- _. f_equal. by apply IH. }
  exists dummies, tops. split; [done|]. split; [done|]. split; [done|].
  rewrite Hpins', Hre', Htot', Hpins, Hre, Htot.
  by rewrite fmap_app, app_assoc.
Qed.

End LoadPins.

(** X6: the pins and the re-exported ports of the load.  For [nx >= 0]
    and [ndum >= 1], a [draw_layout] that completes has added one pin,
    named after the substrate port and shown as [show_pins] says, for
    each of the [2*ndum] dummy wires and then for the top wire of each of
    the [nx] columns in between, and has re-exported ['bot<i>'] as
    ['out<i>'] for [i] from 0 to [nx - 1], in this order; [_tot_width]
    is left as it was. *)
Theorem load_pins_and_reexports (track_index : Type) (base_index : warr -> track_index)
    (missing_port : result (list warr)) (bot_layer_id : Z) (w_tracks : Z * Z * Z * Z)
    (port_name : string) (sub_warrs : list warr) (nx ndum : Z) (show_pins : bool)
    (self st' : CMLLoadSingle.state track_index) :
  0 <= nx -> 1 <= ndum ->
  CMLLoadSingle.draw_layout track_index base_index missing_port bot_layer_id w_tracks
    port_name sub_warrs nx ndum show_pins self = Ok st' ->
  let dummy idx :=
    ConnectWires [PinSpec.bot_wire bot_layer_id w_tracks idx;
                  PinSpec.top_wire bot_layer_id w_tracks idx] in
  let top i := PinSpec.top_wire bot_layer_id w_tracks (i + ndum) in
  CMLLoadSingle.pins _ st'
  = CMLLoadSingle.pins _ self
    ++ (LoadSpec.sub_pin port_name sub_warrs show_pins
        <$> (dummy <$> seqZ 0 ndum ++ seqZ (nx + ndum) ndum) ++ (top <$> seqZ 0 nx)) /\
  Z.of_nat (length (CMLLoadSingle.pins _ st'))
  = Z.of_nat (length (CMLLoadSingle.pins _ self)) + 2 * ndum + nx /\
  CMLLoadSingle.reexports _ st'
  = CMLLoadSingle.reexports _ self
    ++ ((fun i => (indexed_name "bot" i, indexed_name "out" i)) <$> seqZ 0 nx) /\
  CMLLoadSingle._tot_width _ st' = CMLLoadSingle._tot_width _ self.
Proof.
  intros Hnx Hndum H dummy top.
  apply draw_layout_inv in H as (dummies & tops & Hdummy & Htops & _ & Hpins & Hre & Htot).
  assert (dummies = dummy <$> seqZ 0 ndum ++ seqZ (nx + ndum) ndum) as ->.
  { unfold get_all_port_pins in Hdummy. rewrite filter_dummy_pins in Hdummy by lia.
    rewrite (seqZ_cons 0 ndum) in Hdummy |- * by lia.
    cbn in Hdummy. injection Hdummy as <-.
    cbn. f_equal. rewrite !fmap_app, <- !list_fmap_compose. done. }
  assert (tops = top <$> seqZ 0 nx) as ->.
  { pose proof (Forall2_length _ _ _ Htops) as Hlen. rewrite length_seqZ in Hlen.
    apply list_eq. intros i. rewrite list_lookup_fmap.
    destruct (decide (Z.of_nat i < nx)) as [Hi|Hi].
    - destruct (Forall2_lookup_l _ _ _ i (0 + Z.of_nat i) Htops)
        as (w & Hw & rest & Hport); [apply lookup_seqZ; lia|].
      rewrite Hw, lookup_seqZ_lt by lia. cbn.
      rewrite top_port_pins in Hport by lia. by injection Hport as <- _.
    - rewrite lookup_seqZ_ge by lia. by rewrite (proj2 (lookup_ge_None tops i)) by lia. }
  split; [done|]. split; [|done].
  rewrite Hpins, length_app, !length_fmap, !length_app, !length_fmap, length_app,
    !length_seqZ. lia.
Qed.

Lemma load_pins_and_reexports_witness :
  Z.of_nat (length (CMLLoadSingle.pins Z Sample.load_state)) = 0 + 2 * 1 + 2
  /\ CMLLoadSingle.reexports Z Sample.load_state
     = [] ++ ((fun i => (indexed_name "bot" i, indexed_name "out" i)) <$> seqZ 0 2).
Proof.
  destruct (load_pins_and_reexports Z Sample.port_col (Raise KeyError) 4 (1, 1, 2, 2)
              "VSS" [SubPin 0] 2 1 true (CMLLoadSingle.__init__ Z) Sample.load_state
              ltac:(lia) ltac:(lia) eq_refl) as (_ & Hlen & Hre & _).
  split; [exact Hlen | exact Hre].
Defined.

(** X7: a load without dummy columns asks for a port that is not there.
    With [ndum <= 0] the resistor array has no pin named ['dummy'], and
    [draw_layout] asks the instance for that port before anything else:
    with a framework that raises [e] for a port its master does not have,
    [draw_layout] raises [e], whatever [nx] is. *)
Theorem load_without_dummies_raises (track_index : Type) (base_index : warr -> track_index)
    (e : exn) (bot_layer_id : Z) (w_tracks : Z * Z * Z * Z)
    (port_name : string) (sub_warrs : list warr) (nx ndum : Z) (show_pins : bool)
    (self : CMLLoadSingle.state track_index) :
  ndum <= 0 ->
  CMLLoadSingle.draw_layout track_index base_index (Raise e) bot_layer_id w_tracks
    port_name sub_warrs nx ndum show_pins self = Raise e.
Proof.
  intros Hndum.
  unfold CMLLoadSingle.draw_layout, CMLLoadSingle._draw_layout_helper, get_all_port_pins.
  by rewrite no_dummy_pin.
Qed.

Lemma load_without_dummies_raises_witness :
  CMLLoadSingle.draw_layout Z Sample.port_col (Raise KeyError) 4 (1, 1, 2, 2) "VSS"
    [SubPin 0] 2 0 true (CMLLoadSingle.__init__ Z) = Raise KeyError.
Proof.
  apply (load_without_dummies_raises Z Sample.port_col KeyError 4 (1, 1, 2, 2) "VSS"
           [SubPin 0] 2 0 true). lia.
Defined.

(** ** The driver as a composition *)

(** X8: in the driver, the number of segments of the core is the number
    of columns of the load.  When [draw_layout] completes, for
    [nx >= 0], the core has been drawn on [nx] output tracks, the
    caller's [em_specs] dictionary is unchanged, and the reference specs
    of the core are those entries with ['idc'], ['iac_rms'] and
    ['iac_peak'] multiplied, as floats, by the float [nx / cur_ratio],
    where [cur_ratio] is the float [fg / fg_ref], and every other entry
    as it was. *)
Theorem driver_scales_by_columns (track_index : Type) (base_index : warr -> track_index)
    (missing_port : result (list warr)) (bot_layer_id : Z) (w_tracks : Z * Z * Z * Z)
    (port_name : string) (sub_warrs : list warr) (grid : CMLCorePMOS.RoutingGrid)
    (new_AnalogBaseInfo : Q -> Z -> CMLCorePMOS.AnalogBaseInfo)
    (load_tot_width_unit load_height core_height : Z)
    (fuel : nat) (p : CMLDriverPMOS.params) (self self' : CMLDriverPMOS.state track_index)
    (h h' : gmap positive (gmap string float)) (d : gmap string float)
    (tracks : list track_index) (core : CMLCorePMOS.base_layout) :
  let nx := CMLDriverPMOS.nx (CMLDriverPMOS.res p) in
  let em_specs := CMLDriverPMOS.em_specs (CMLDriverPMOS.res p) in
  0 <= nx ->
  h !! em_specs = Some d ->
  CMLDriverPMOS.draw_layout track_index base_index missing_port bot_layer_id w_tracks
    port_name sub_warrs grid new_AnalogBaseInfo load_tot_width_unit load_height
    core_height fuel p self h = Some (Ok (self', tracks, core), h') ->
  Z.of_nat (length tracks) = nx /\
  h' !! em_specs = Some d /\
  exists cur_ratio d',
    py_int_truediv (CMLDriverPMOS.fg p) (CMLDriverPMOS.fg_ref p) = Ok cur_ratio /\
    h' !! CMLCorePMOS.ref_em_specs core = Some d' /\
    (forall key, key ∉ ["idc"; "iac_rms"; "iac_peak"] -> d' !! key = d !! key) /\
    (forall key, key ∈ ["idc"; "iac_rms"; "iac_peak"] ->
       d' !! key = (fun v => (v * (float_of_len nx / cur_ratio))%float) <$> d !! key).
Proof.
  intros nx em_specs Hnx Hem H.
  apply draw_layout_Ok in H as (load & Hload & Htracks & Hcore & _).
  assert (Z.of_nat (length tracks) = nx) as Hlen.
  { unfold CMLDriverPMOS.load_master in Hload.
    apply draw_layout_inv in Hload as (_ & tops & _ & Htops & Hout & _).
    unfold CMLLoadSingle.output_tracks in Htracks. rewrite Hout in Htracks.
    injection Htracks as <-. rewrite length_fmap.
    apply Forall2_length in Htops. rewrite length_seqZ in Htops. fold nx in Htops. lia. }
  split; [done|].
  unfold Store.copy_at in Hcore. cbn [fst snd] in Hcore.
  fold em_specs in Hcore. rewrite (lookup_total_correct _ _ _ Hem) in Hcore.
  set (em1 := fresh (dom h)) in Hcore.
  set (h1 := <[em1 := d]> h) in Hcore.
  assert (em1 <> em_specs) as Hne1.
  { intros E. enough (Some d = None) by discriminate.
    rewrite <- Hem, <- E. apply fresh_not_allocated. }
  assert (h1 !! em_specs = Some d) as Hem1 by (unfold h1; by rewrite lookup_insert_ne).
  assert (fresh (dom h1) <> em_specs) as Hne2.
  { intros E. enough (Some d = None) by discriminate.
    rewrite <- Hem1, <- E. apply fresh_not_allocated. }
  destruct (helper_inv _ _ _ _ _ _ _ _ Hcore) as [(e & _ & [=] & _)|(fgt & _ & Ht)].
  destruct (tracks_from_em_specs_inv _ _ _ _ _ _ _ d _
              ltac:(cbn; unfold h1; apply lookup_insert_eq) Ht)
    as [(_ & [[=]|[[=]|[=]]])
       |[(_ & [=])|(d' & cur_ratio & _ & Hratio & -> & [Hout Hin] & Hnz & [= ->])]].
  cbn [CMLCorePMOS.ref_em_specs CoreSpec.layout_from].
  split; [by rewrite lookup_insert_ne|].
  exists cur_ratio, d'. rewrite lookup_insert_eq.
  split; [exact Hratio|]. split; [done|]. split; [done|].
  intros key Hkey. rewrite (Hin key Hkey).
  cbn [CMLDriverPMOS.core_params CMLCorePMOS.output_tracks CMLCorePMOS.fg
       CMLCorePMOS.fg_ref]. by rewrite Hlen.
Qed.

Lemma driver_scales_by_columns_witness :
  Z.of_nat (length Sample.driver_tracks) = 2
  /\ Sample.driver_heap_after !! 1%positive
     = Some {[ "idc" := 2%float; "iac_rms" := 3%float; "dc_temp" := 70%float ]}
  /\ exists d',
       Sample.driver_heap_after !! CMLCorePMOS.ref_em_specs Sample.driver_core = Some d' /\
       d' !! "iac_rms" = Some 3%float.
Proof.
  destruct (driver_scales_by_columns Z Sample.port_col (Raise KeyError) 4 (1, 1, 2, 2)
              "VSS" [SubPin 0] Sample.grid (fun _ _ => Sample.info) 1800 500 700 4
              Sample.driver_params (CMLDriverPMOS.__init__ Z) Sample.driver_state
              Sample.heap Sample.driver_heap_after
              {[ "idc" := 2%float; "iac_rms" := 3%float; "dc_temp" := 70%float ]}
              Sample.driver_tracks Sample.driver_core ltac:(cbn; lia) eq_refl)
    as (Hlen & Hkept & cur_ratio & d' & Hratio & Hd' & _ & Hin).
  - vm_compute. reflexivity.
  - split; [exact Hlen|]. split; [exact Hkept|].
    exists d'. split; [exact Hd'|].
    rewrite (Hin "iac_rms") by (by apply (bool_decide_unpack _)).
    vm_compute in Hratio. injection Hratio as <-. reflexivity.
Defined.

(** ** More on AmpBaseChain and the script *)

(** X9: where X2 goes.  If [master2.size] is [None], X2 is placed at the
    right edge [x0] of X1 and the block width is not looked at.
    Otherwise, with a block width [xblk > 0], its x-coordinate is the
    greatest multiple of [xblk] that is at most [-x0]: it lies in
    [(-x0 - xblk, -x0]], so for [x0 > 0] it is negative; and with a block
    width of zero the floor division raises ZeroDivisionError. *)
Theorem x2_coord_cases (x0 xblk : Z) (size2 : Z * Z * Z) :
  AmpBaseChain.draw_layout x0 None xblk = Ok [("X1", (0, 0)); ("X2", (x0, 0))] /\
  (0 < xblk ->
   exists x,
     AmpBaseChain.draw_layout x0 (Some size2) xblk = Ok [("X1", (0, 0)); ("X2", (x, 0))] /\
     x <= - x0 < x + xblk /\
     (exists k, x = k * xblk) /\
     (forall k, k * xblk <= - x0 -> k * xblk <= x) /\
     (0 < x0 -> x < 0)) /\
  (xblk = 0 -> AmpBaseChain.draw_layout x0 (Some size2) xblk = Raise ZeroDivisionError).
Proof.
  split; [done|]. split.
  - intros Hblk. exists (- x0 / xblk * xblk).
    pose proof (Z.div_mod (- x0) xblk ltac:(lia)) as Hdm.
    pose proof (Z.mod_pos_bound (- x0) xblk Hblk) as Hmod.
    split; [|split; [|split; [|split]]].
    + unfold AmpBaseChain.draw_layout, AmpBaseChain.x2_coord, py_floordiv.
      destruct (Z.eqb_spec xblk 0); [lia | done].
    + lia.
    + by eexists.
    + intros k Hk.
      assert (k <= - x0 / xblk) by (apply Z.div_le_lower_bound; lia). nia.
    + lia.
  - intros ->. done.
Qed.

Lemma x2_coord_cases_witness :
  exists x,
    AmpBaseChain.draw_layout 100 (Some (5, 2, 3)) 30
    = Ok [("X1", (0, 0)); ("X2", (x, 0))] /\
    x <= - 100 < x + 30.
Proof.
  destruct (proj1 (proj2 (x2_coord_cases 100 30 (5, 2, 3))) ltac:(lia))
    as (x & Hdraw & Hx & _).
  exists x. split; [exact Hdraw | exact Hx].
Defined.

(** X10: schematic parameters that already name [fg_tot] clash with the
    keyword [rxcore_sch] passes itself: the design module is created,
    the call of [design_specs] raises TypeError, and neither
    [design_specs] nor [implement_design] is reached. *)
Theorem rxcore_sch_keyword_clash (sch_params : gmap string Serdes.pyval) (tot_fg : Z) :
  is_Some (sch_params !! "fg_tot") ->
  Serdes.rxcore_sch sch_params tot_fg
  = ([Serdes.CreateDesignModule "serdes_bm_templates" "rxcore_ffe1_dfe4"],
     Raise TypeError) /\
  (forall kwargs, Serdes.DesignSpecs kwargs ∉ fst (Serdes.rxcore_sch sch_params tot_fg)) /\
  (forall lib cell erase,
     Serdes.ImplementDesign lib cell erase ∉ fst (Serdes.rxcore_sch sch_params tot_fg)).
Proof.
  intros [v Hv].
  assert (Serdes.rxcore_sch sch_params tot_fg
          = ([Serdes.CreateDesignModule "serdes_bm_templates" "rxcore_ffe1_dfe4"],
             Raise TypeError)) as ->.
  { unfold Serdes.rxcore_sch, Serdes.keyword_call. by rewrite Hv. }
  split; [done|]. split.
  - intros kwargs Hin. by apply list_elem_of_singleton in Hin.
  - intros lib cell erase Hin. by apply list_elem_of_singleton in Hin.
Qed.

Lemma rxcore_sch_keyword_clash_witness :
  Serdes.rxcore_sch (<["fg_tot" := Serdes.PyInt 10]> Serdes.rxcore_params) 84
  = ([Serdes.CreateDesignModule "serdes_bm_templates" "rxcore_ffe1_dfe4"],
     Raise TypeError).
Proof.
  apply (rxcore_sch_keyword_clash (<["fg_tot" := Serdes.PyInt 10]> Serdes.rxcore_params) 84).
  rewrite lookup_insert_eq. by eexists.
Defined.

(** ** The transistors and pins of the core *)

Lemma outp_name_not_outn (i j : Z) : indexed_name "outp" i <> indexed_name "outn" j.
Proof. unfold indexed_name. cbn. discriminate. Qed.

Lemma outp_name_not_VDD (i j : Z) : indexed_name "outp" i <> indexed_name "VDD" j.
Proof. unfold indexed_name. cbn. discriminate. Qed.

Lemma outn_name_not_VDD (i j : Z) : indexed_name "outn" i <> indexed_name "VDD" j.
Proof. unfold indexed_name. cbn. discriminate. Qed.

(** An indexed name is none of the five plain pin names. *)
Lemma indexed_name_not_plain (base : string) (i : Z) :
  base ∈ ["outp"; "outn"; "VDD"] ->
  indexed_name base i ∉ ["inp"; "inn"; "ibias"; "VSS"; "VDD"].
Proof.
  intros Hbase Hin. unfold indexed_name in Hin.
  repeat (apply elem_of_cons in Hbase as [->|Hbase]);
    [| | |by apply elem_of_nil in Hbase];
    repeat (apply elem_of_cons in Hin as [Hin|Hin]; [cbn in Hin; discriminate|]);
    by apply elem_of_nil in Hin.
Qed.

Section CoreDrawFacts.

Import CoreDraw.

Variable track_index : Type.
Variable track_to_coord : Z -> track_index -> Z.
Variable coord_to_col : Z -> Z.

Abbreviation segment fg fg_ref vm_layer vm_width show_pins tids :=
  (draw_segment track_index track_to_coord coord_to_col fg fg_ref vm_layer vm_width
     show_pins tids).

(** What the loop over the output tracks adds to the transistors and to
    the pins. *)
Lemma draw_segments_inv (fg fg_ref vm_layer vm_width : Z) (show_pins : bool)
    (tids : track_ids) (items : list (Z * track_index)) (st : drawing track_index) :
  let st' := fold_left (segment fg fg_ref vm_layer vm_width show_pins tids) items st in
  draws _ st'
  = draws _ st
    ++ (items ≫= fun item =>
          segment_conns fg fg_ref (coord_to_col (track_to_coord vm_layer item.2))) /\
  cpin_name _ <$> pins _ st'
  = (cpin_name _ <$> pins _ st) ++ (items ≫= fun item => segment_names item.1) /\
  (Forall (fun pin => cpin_show _ pin = show_pins) (pins _ st) ->
   Forall (fun pin => cpin_show _ pin = show_pins) (pins _ st')).
Proof.
  revert st. induction items as [|[idx vm_idx] items IH]; intros st.
  - cbn. by rewrite !app_nil_r.
  - cbn [fold_left]. destruct (IH (segment fg fg_ref vm_layer vm_width show_pins tids
                                     st (idx, vm_idx))) as (Hdraws & Hnames & Hshow).
    split; [|split].
    + rewrite Hdraws. cbn [draw_segment draws]. rewrite bind_cons, <- app_assoc. done.
    + rewrite Hnames. cbn [draw_segment pins]. rewrite bind_cons, fmap_app, <- app_assoc.
      done.
    + intros Hst. apply Hshow. cbn [draw_segment pins]. apply Forall_app. split; [done|].
      by repeat constructor.
Qed.

Lemma enumerate_fst {A : Type} (xs : list A) :
  (enumerate xs).*1 = seqZ 0 (Z.of_nat (length xs)).
Proof. unfold enumerate. apply fst_zip. rewrite length_seqZ. lia. Qed.

Lemma enumerate_snd {A : Type} (xs : list A) : (enumerate xs).*2 = xs.
Proof. unfold enumerate. apply snd_zip. rewrite length_seqZ. lia. Qed.

Lemma segment_names_NoDup (n : Z) : NoDup (seqZ 0 n ≫= segment_names).
Proof.
  apply NoDup_bind; [| | apply NoDup_seqZ].
  - intros i j name _ _ Hi Hj. unfold segment_names in Hi, Hj.
    repeat (apply elem_of_cons in Hi as [->|Hi]);
      [| | |by apply elem_of_nil in Hi];
      repeat (apply elem_of_cons in Hj as [Hj|Hj]);
      try (by apply elem_of_nil in Hj);
      try (by apply indexed_name_inj in Hj);
      try (by apply outp_name_not_outn in Hj);
      try (by apply outp_name_not_VDD in Hj);
      try (by apply outn_name_not_VDD in Hj);
      symmetry in Hj;
      try (by apply outp_name_not_outn in Hj);
      try (by apply outp_name_not_VDD in Hj);
      by apply outn_name_not_VDD in Hj.
  - intros i _. unfold segment_names.
    apply NoDup_cons. split.
    { intros Hin. apply elem_of_cons in Hin as [Hin|Hin];
        [by apply outp_name_not_outn in Hin|].
      apply list_elem_of_singleton in Hin. by apply outp_name_not_VDD in Hin. }
    apply NoDup_cons. split; [|apply NoDup_singleton].
    intros Hin%list_elem_of_singleton. by apply outn_name_not_VDD in Hin.
Qed.

End CoreDrawFacts.

(** X11: the pins of the core.  For [n] output tracks the helper adds
    the pins ['outp<i>'], ['outn<i>'] and ['VDD<i>'] for [i] from 0 to
    [n - 1], then ['inp'], ['inn'], ['ibias'], ['VSS'] and ['VDD']:
    [3*n + 5] pins whose names are pairwise distinct, each shown as
    [show_pins] says. *)
Theorem core_pin_names (track_index : Type) (track_to_coord : Z -> track_index -> Z)
    (coord_to_col : Z -> Z) (p : CMLCorePMOS.params track_index)
    (mconn_port_layer : Z) (r : CMLCorePMOS.base_layout) :
  let pins :=
    CoreDraw.core_pins _
      (CoreDraw.draw_transistors track_index track_to_coord coord_to_col p
         mconn_port_layer r) in
  let n := Z.of_nat (length (CMLCorePMOS.output_tracks _ p)) in
  CoreDraw.cpin_name _ <$> pins
  = (seqZ 0 n ≫= CoreDraw.segment_names) ++ ["inp"; "inn"; "ibias"; "VSS"; "VDD"] /\
  NoDup (CoreDraw.cpin_name _ <$> pins) /\
  Z.of_nat (length pins) = 3 * n + 5 /\
  Forall (fun pin => CoreDraw.cpin_show _ pin = CMLCorePMOS.show_pins _ p) pins.
Proof.
  intros pins n.
  destruct (draw_segments_inv track_index track_to_coord coord_to_col
              (CMLCorePMOS.fg _ p) (CMLCorePMOS.fg_ref _ p) (mconn_port_layer + 1 + 1)
              (CMLCorePMOS.vm_width r) (CMLCorePMOS.show_pins _ p)
              (CoreDraw.compute_track_ids (CMLCorePMOS.input_width _ p) r)
              (CoreDraw.enumerate (CMLCorePMOS.output_tracks _ p))
              (CoreDraw.empty_drawing track_index)) as (_ & Hnames & Hshow).
  assert (CoreDraw.cpin_name _ <$> pins
          = (seqZ 0 n ≫= CoreDraw.segment_names)
            ++ ["inp"; "inn"; "ibias"; "VSS"; "VDD"]) as Heq.
  { unfold pins, CoreDraw.draw_transistors. cbn [CoreDraw.core_pins].
    rewrite fmap_app, Hnames. cbn [CoreDraw.empty_drawing CoreDraw.pins fmap list_fmap app].
    f_equal. unfold n. rewrite <- enumerate_fst. by rewrite list_fmap_bind. }
  split; [done|]. split; [|split].
  - rewrite Heq. apply NoDup_app. split; [apply segment_names_NoDup|]. split.
    + intros name Hname. apply list_elem_of_bind in Hname as (i & Hname & _).
      unfold CoreDraw.segment_names in Hname.
      repeat (apply elem_of_cons in Hname as [->|Hname]);
        [| | |by apply elem_of_nil in Hname];
        apply indexed_name_not_plain; by apply (bool_decide_unpack _).
    + by apply (bool_decide_unpack _).
  - rewrite <- (length_fmap (CoreDraw.cpin_name _)), Heq, length_app.
    assert (forall l : list Z,
              length (l ≫= CoreDraw.segment_names) = (3 * length l)%nat) as Hlen.
    { induction l as [|i l IH]; [done|].
      rewrite bind_cons, length_app, IH. cbn. lia. }
    rewrite Hlen, length_seqZ. cbn. lia.
  - unfold pins, CoreDraw.draw_transistors. cbn [CoreDraw.core_pins].
    apply Forall_app. split; [by apply Hshow|]. by repeat constructor.
Qed.

(** X12: the transistors of the core.  For each output track, in order,
    the helper draws three transistors of [fg] fingers in rows 2, 1 and 0
    starting at column [col_center - fg // 2], and the diode-connected
    reference of [fg_ref] fingers in row 1 starting where they end.  For
    [fg >= 1] the column of the track is one of the columns of the main
    transistors, the reference shares no column with them, and two
    segments whose track columns are at least [fg + fg_ref] apart share
    no column at all. *)
Theorem core_transistor_columns (track_index : Type)
    (track_to_coord : Z -> track_index -> Z) (coord_to_col : Z -> Z)
    (p : CMLCorePMOS.params track_index) (mconn_port_layer : Z)
    (r : CMLCorePMOS.base_layout) :
  let fg := CMLCorePMOS.fg _ p in
  let fg_ref := CMLCorePMOS.fg_ref _ p in
  let center vm_idx := coord_to_col (track_to_coord (mconn_port_layer + 1 + 1) vm_idx) in
  CoreDraw.mos_conns _
    (CoreDraw.draw_transistors track_index track_to_coord coord_to_col p
       mconn_port_layer r)
  = (CMLCorePMOS.output_tracks _ p ≫= fun vm_idx =>
       CoreDraw.segment_conns fg fg_ref (center vm_idx)) /\
  (forall c,
     CoreDraw.segment_conns fg fg_ref c
     = [ CoreDraw.draw_mos_conn 2 (c - fg / 2) fg 0 2 false;
         CoreDraw.draw_mos_conn 1 (c - fg / 2) fg 1 1 false;
         CoreDraw.draw_mos_conn 0 (c - fg / 2) fg 2 0 false;
         CoreDraw.draw_mos_conn 1 (c - fg / 2 + fg) fg_ref 1 1 true ]) /\
  (1 <= fg ->
   forall c m, m ∈ CoreDraw.segment_conns fg fg_ref c ->
     (CoreDraw.diode_conn m = false -> CoreDraw.covers m c) /\
     (CoreDraw.diode_conn m = true ->
      forall m' col, m' ∈ CoreDraw.segment_conns fg fg_ref c ->
        CoreDraw.diode_conn m' = false ->
        CoreDraw.covers m col -> ~ CoreDraw.covers m' col)) /\
  (0 <= fg -> 0 <= fg_ref ->
   forall c1 c2 m1 m2 col, c1 + fg + fg_ref <= c2 ->
     m1 ∈ CoreDraw.segment_conns fg fg_ref c1 ->
     m2 ∈ CoreDraw.segment_conns fg fg_ref c2 ->
     CoreDraw.covers m1 col -> ~ CoreDraw.covers m2 col).
Proof.
  intros fg fg_ref center. split; [|split; [done|split]].
  - destruct (draw_segments_inv track_index track_to_coord coord_to_col fg fg_ref
                (mconn_port_layer + 1 + 1) (CMLCorePMOS.vm_width r)
                (CMLCorePMOS.show_pins _ p)
                (CoreDraw.compute_track_ids (CMLCorePMOS.input_width _ p) r)
                (CoreDraw.enumerate (CMLCorePMOS.output_tracks _ p))
                (CoreDraw.empty_drawing track_index)) as (Hdraws & _ & _).
    unfold CoreDraw.draw_transistors. cbn [CoreDraw.mos_conns].
    fold fg fg_ref. rewrite Hdraws. cbn [CoreDraw.empty_drawing CoreDraw.draws app].
    rewrite <- (enumerate_snd (CMLCorePMOS.output_tracks _ p)) at 2.
    by rewrite list_fmap_bind.
  - intros Hfg c m Hm.
    pose proof (Z.div_mod fg 2 ltac:(lia)) as Hdm.
    pose proof (Z.mod_pos_bound fg 2 ltac:(lia)) as Hmod.
    unfold CoreDraw.segment_conns in Hm.
    repeat (apply elem_of_cons in Hm as [->|Hm]); [| | | |by apply elem_of_nil in Hm];
      (split; [intros Hd; try discriminate; unfold CoreDraw.covers; cbn; lia|]);
      intros Hd; try discriminate.
    intros m' col Hm' Hd'. unfold CoreDraw.segment_conns in Hm'.
    repeat (apply elem_of_cons in Hm' as [->|Hm']); [| | | |by apply elem_of_nil in Hm'];
      try discriminate; unfold CoreDraw.covers; cbn; lia.
  - intros Hfg Href c1 c2 m1 m2 col Hfar Hm1 Hm2.
    unfold CoreDraw.segment_conns in Hm1, Hm2.
    repeat (apply elem_of_cons in Hm1 as [->|Hm1]); [| | | |by apply elem_of_nil in Hm1];
      repeat (apply elem_of_cons in Hm2 as [->|Hm2]);
      try (by apply elem_of_nil in Hm2);
      unfold CoreDraw.covers; cbn; lia.
Qed.

Lemma core_transistor_columns_witness :
  CoreDraw.draw_mos_conn 2 (10 - 4 / 2) 4 0 2 false ∈ CoreDraw.segment_conns 4 2 10 /\
  CoreDraw.covers (CoreDraw.draw_mos_conn 2 (10 - 4 / 2) 4 0 2 false) 10.
Proof.
  assert (CoreDraw.draw_mos_conn 2 (10 - 4 / 2) 4 0 2 false
          ∈ CoreDraw.segment_conns 4 2 10) as Hm by apply list_elem_of_here.
  split; [exact Hm|].
  apply (proj1 (proj2 (proj2 (core_transistor_columns Z (fun _ vm_idx => 90 * vm_idx)
                                (fun x => x / 90) (Sample.core_params 1800) 3
                                Sample.layout))) ltac:(cbn; lia) 10 _ Hm).
  reflexivity.
Defined.

Lemma half_width_sum (w : Z) :
  (inject_Z (w - 1) / 2 + inject_Z (w - 1) / 2 + 1 == inject_Z w)%Q.
Proof.
  unfold Z.sub. rewrite inject_Z_plus. change (inject_Z (- (1))) with (- (1))%Q. field.
Qed.

(** X13: the track ids fill the tracks reserved in [draw_base].  When the
    helper reaches [draw_base], count the tracks a wire covers from its
    centre and width.  In rows 0 and 2 the output wire leaves
    [input_space] drain/source tracks free below it and ends on the last
    of the [input_space + hm_width] tracks reserved; in row 1 the VDD
    wire starts at track 0, [hm_space] tracks are left free, then comes
    the tail wire, and [input_space] tracks remain above it; the input
    wires take all [input_width] gate tracks of rows 0 and 2, and the
    bias wire leaves [input_space] gate tracks below and [hm_space]
    above it.  [input_space] is the widened one. *)
Theorem track_ids_fill_rows (track_index : Type) (grid : CMLCorePMOS.RoutingGrid)
    (new_AnalogBaseInfo : Q -> Z -> CMLCorePMOS.AnalogBaseInfo)
    (fuel : nat) (p : CMLCorePMOS.params track_index)
    (h h' : gmap positive (gmap string float)) (d : gmap string float)
    (r : CMLCorePMOS.base_layout) :
  let tids := CoreDraw.compute_track_ids (CMLCorePMOS.input_width _ p) r in
  let space := inject_Z (CMLCorePMOS.eff_input_space r) in
  let hm_space := inject_Z (CMLCorePMOS.hm_space r) in
  let lower := CoreDraw.tid_lower in
  let upper := CoreDraw.tid_upper in
  h !! CMLCorePMOS.em_specs _ p = Some d ->
  CMLCorePMOS._draw_layout_helper track_index grid new_AnalogBaseInfo fuel p h
  = Some (Ok r, h') ->
  exists g0 g1 g2 ds0 ds1 ds2,
    CMLCorePMOS.pg_tracks r = [g0; g1; g2] /\
    CMLCorePMOS.pds_tracks r = [ds0; ds1; ds2] /\
    (lower (CoreDraw.outn_tid tids) == space /\
     upper (CoreDraw.outn_tid tids) + 1 == inject_Z ds0 /\
     lower (CoreDraw.outp_tid tids) == space /\
     upper (CoreDraw.outp_tid tids) + 1 == inject_Z ds2 /\
     lower (CoreDraw.vdd_tid tids) == 0 /\
     upper (CoreDraw.vdd_tid tids) + 1 + hm_space == lower (CoreDraw.tail_tid tids) /\
     upper (CoreDraw.tail_tid tids) + 1 + space == inject_Z ds1 /\
     lower (CoreDraw.inp_tid tids) == 0 /\
     upper (CoreDraw.inp_tid tids) + 1 == inject_Z g0 /\
     lower (CoreDraw.inn_tid tids) == 0 /\
     upper (CoreDraw.inn_tid tids) + 1 == inject_Z g2 /\
     lower (CoreDraw.bias_tid tids) == space /\
     upper (CoreDraw.bias_tid tids) + 1 + hm_space == inject_Z g1)%Q.
Proof.
  intros tids space hm_space lower upper Hem H.
  destruct (helper_inv _ _ _ _ _ _ _ _ H) as [(e & _ & [=] & _)|(fgt & _ & Ht)].
  destruct (tracks_from_em_specs_inv _ _ _ _ _ _ _ _ _ Hem Ht)
    as [(_ & [[=]|[[=]|[=]]])|[(_ & [=])|(d' & cur_ratio & _ & _ & _ & _ & _ & [= Hr])]].
  subst tids space hm_space lower upper. rewrite Hr.
  unfold CoreSpec.layout_from.
  cbn [CMLCorePMOS.pg_tracks CMLCorePMOS.pds_tracks].
  do 6 eexists. split; [reflexivity|]. split; [reflexivity|].
  unfold CoreDraw.tid_lower, CoreDraw.tid_upper, CoreDraw.compute_track_ids,
    CoreDraw.make_track_id.
  cbn [CoreDraw.outn_tid CoreDraw.outp_tid CoreDraw.vdd_tid CoreDraw.tail_tid
       CoreDraw.inp_tid CoreDraw.inn_tid CoreDraw.bias_tid CoreDraw.tid_index
       CoreDraw.tid_width CMLCorePMOS.hm_width CMLCorePMOS.hm_space
       CMLCorePMOS.hm_width_ref CMLCorePMOS.eff_input_space].
  set (hw := CMLCorePMOS.get_min_track_width grid _ None d).
  set (hwr := CMLCorePMOS.get_min_track_width grid _ None d').
  set (hs := CMLCorePMOS.get_num_space_tracks grid _ hw).
  set (sp := Z.max _ hs).
  pose proof (half_width_sum hw) as Hhw.
  pose proof (half_width_sum hwr) as Hhwr.
  pose proof (half_width_sum (CMLCorePMOS.input_width _ p)) as Hiw.
  rewrite !inject_Z_plus, inject_Z_mult.
  change (inject_Z 2) with 2%Q.
  repeat split; try ring;
    try (rewrite <- Hhw; ring); try (rewrite <- Hhwr; ring); try (rewrite <- Hiw; ring).
Qed.

Lemma track_ids_fill_rows_witness :
  exists ds0 ds1 ds2,
    CMLCorePMOS.pds_tracks Sample.layout = [ds0; ds1; ds2] /\
    (CoreDraw.tid_upper (CoreDraw.outn_tid (CoreDraw.compute_track_ids 1 Sample.layout)) + 1
     == inject_Z ds0)%Q.
Proof.
  destruct (track_ids_fill_rows Z Sample.grid (fun _ _ => Sample.info) 4
              (Sample.core_params 1800) Sample.heap Sample.heap_after
              {[ "idc" := 2%float; "iac_rms" := 3%float; "dc_temp" := 70%float ]}
              Sample.layout eq_refl eq_refl)
    as (g0 & g1 & g2 & ds0 & ds1 & ds2 & _ & Hds & _ & Hupper & _).
  exists ds0, ds1, ds2. split; [exact Hds | exact Hupper].
Defined.

(** ** The script test_scripts/analogbase.py *)

Section ScriptFacts.

Import AnalogBaseScript.

Lemma fresh_not_in_heap (h : gmap positive (gmap string Serdes.pyval)) :
  h !! fresh (dom h) = None.
Proof. apply not_elem_of_dom, is_fresh. Qed.

Lemma unpack2_Ok (xs : list Serdes.pyval) :
  (exists ab, unpack2 xs = Ok ab) <-> length xs = 2%nat.
Proof.
  split.
  - intros [ab H]. destruct xs as [|a [|b [|c xs]]]; cbn in H; try discriminate.
    reflexivity.
  - intros H. destruct xs as [|a [|b [|c xs]]]; cbn in H; try discriminate.
    eexists. reflexivity.
Qed.

Lemma unpack2_Raise (xs : list Serdes.pyval) :
  length xs <> 2%nat -> unpack2 xs = Raise ValueError.
Proof.
  intros H. destruct xs as [|a [|b [|c xs]]]; cbn; try reflexivity.
  contradiction H. reflexivity.
Qed.

End ScriptFacts.

(** X14: [generate] builds the two parameter dictionaries as copies:
    when [specs['params']] is a dictionary [d] and [lch], [top_layer]
    have two items each, it makes the routing grid and the template
    database, then two [AmpBase] templates from two new dictionaries at
    distinct addresses, the first holding [d] with [lch], [top_layer]
    set to the first items and the second holding [d] with them set to
    the second items, and lays both out.  Writing the second dictionary
    leaves the first as the first template got it, and the dictionary of
    [specs] and every other dictionary are unchanged. *)
Theorem generate_copies_do_not_alias
    (s : AnalogBaseScript.specs) (h : gmap positive (gmap string Serdes.pyval))
    (d : gmap string Serdes.pyval) (lch1 lch2 top_lay1 top_lay2 : Serdes.pyval) :
  h !! AnalogBaseScript.params s = Some d ->
  AnalogBaseScript.lch s = [lch1; lch2] ->
  AnalogBaseScript.top_layer s = [top_lay1; top_lay2] ->
  let d1 := <["top_layer" := top_lay1]> (<["lch" := lch1]> d) in
  let d2 := <["top_layer" := top_lay2]> (<["lch" := lch2]> d) in
  exists (params1 params2 : positive) (h' : gmap positive (gmap string Serdes.pyval)),
    AnalogBaseScript.generate s h =
      (AnalogBaseScript.make_tdb "AAAFOO_ANALOGBASE" s ++
       [AnalogBaseScript.NewTemplate "AmpBase" params1 d1;
        AnalogBaseScript.NewTemplate "AmpBase" params2 d2;
        AnalogBaseScript.BatchLayout [params1; params2]
          ["ANALOGBASE_TEST1"; "ANALOGBASE_TEST2"]],
       Ok tt, h') /\
    h !! params1 = None /\ h !! params2 = None /\ params1 <> params2 /\
    h' !! params1 = Some d1 /\ h' !! params2 = Some d2 /\
    (forall l, l <> params1 -> l <> params2 -> h' !! l = h !! l).
Proof.
  intros Hd Hlch Htop d1 d2.
  set (p1 := fresh (dom h)).
  assert (h !! p1 = None) as Hp1 by apply fresh_not_in_heap.
  set (h1 := <[p1 := d1]> h).
  set (p2 := fresh (dom h1)).
  assert (h1 !! p2 = None) as Hp2 by apply fresh_not_in_heap.
  assert (p2 <> p1) as Hne.
  { intros E. rewrite E in Hp2. unfold h1 in Hp2.
    rewrite lookup_insert_eq in Hp2. discriminate. }
  assert (h !! p2 = None) as Hp2'.
  { unfold h1 in Hp2. rewrite lookup_insert_ne in Hp2 by congruence. exact Hp2. }
  assert (forall (l : positive) (m : gmap positive (gmap string Serdes.pyval)) x,
            m !! l = Some x -> m !!! l = x) as Htot.
  { intros l m x E. apply lookup_total_correct. exact E. }
  assert (<["top_layer" := top_lay2]> (<["lch" := lch2]> d1) = d2) as Hd2.
  { unfold d1, d2. apply map_eq. intros key.
    destruct (decide (key = "top_layer")) as [->|Hk1].
    - rewrite !lookup_insert_eq. reflexivity.
    - rewrite !(lookup_insert_ne _ "top_layer") by congruence.
      destruct (decide (key = "lch")) as [->|Hk2].
      + rewrite !lookup_insert_eq. reflexivity.
      + repeat (rewrite lookup_insert_ne by congruence). reflexivity. }
  exists p1, p2, (<[p2 := d2]> h1).
  split; [|repeat split].
  - unfold AnalogBaseScript.generate. rewrite Hlch, Htop.
    cbn [AnalogBaseScript.unpack2].
    unfold AnalogBaseScript.copy_params, AnalogBaseScript.set_param.
    fold p1. rewrite (Htot _ _ _ Hd).
    rewrite !lookup_total_insert_eq, !insert_insert_eq.
    fold d1. fold h1. fold p2.
    rewrite Hd2. reflexivity.
  - exact Hp1.
  - exact Hp2'.
  - congruence.
  - rewrite lookup_insert_ne by congruence. unfold h1.
    apply lookup_insert_eq.
  - apply lookup_insert_eq.
  - intros l Hl1 Hl2. rewrite lookup_insert_ne by congruence.
    unfold h1. rewrite lookup_insert_ne by congruence. reflexivity.
Qed.

Lemma generate_copies_do_not_alias_witness :
  exists (params1 params2 : positive) (h' : gmap positive (gmap string Serdes.pyval)),
    params1 <> params2 /\
    h' !! params1 =
      Some (<["top_layer" := Serdes.PyInt 5]>
              (<["lch" := Serdes.PyFloat (16 # 1000000000)]>
                 ({[ "fg_tot" := Serdes.PyInt 16; "guard_ring_nf" := Serdes.PyInt 0;
                     "lch" := Serdes.PyFloat (1 # 1) ]}))) /\
    h' !! 1%positive = AnalogBaseScript.sample_heap !! 1%positive.
Proof.
  destruct (generate_copies_do_not_alias AnalogBaseScript.sample_specs
              AnalogBaseScript.sample_heap _ _ _ _ _ eq_refl eq_refl eq_refl)
    as (p1 & p2 & h' & _ & Hp1 & Hp2 & Hne & H1 & _ & Hrest).
  exists p1, p2, h'. split; [exact Hne|]. split; [exact H1|].
  apply Hrest; intros E; rewrite <- E in *; discriminate.
Defined.

(** X15: [generate] completes exactly when [specs['lch']] and
    [specs['top_layer']] have two items each; otherwise the unpacking
    raises ValueError before the template database or any template is
    made, and no dictionary has been copied or written. *)
Theorem generate_needs_pairs
    (s : AnalogBaseScript.specs) (h : gmap positive (gmap string Serdes.pyval)) :
  (snd (fst (AnalogBaseScript.generate s h)) = Ok tt <->
   length (AnalogBaseScript.lch s) = 2%nat /\
   length (AnalogBaseScript.top_layer s) = 2%nat) /\
  (snd (fst (AnalogBaseScript.generate s h)) <> Ok tt ->
   AnalogBaseScript.generate s h = ([], Raise ValueError, h)).
Proof.
  unfold AnalogBaseScript.generate.
  destruct (AnalogBaseScript.lch s) as [|a [|b [|c xs]]];
    cbn [AnalogBaseScript.unpack2 length];
    try (split; [split; [discriminate | intros [? _]; discriminate] | reflexivity]).
  destruct (AnalogBaseScript.top_layer s) as [|a' [|b' [|c' ys]]];
    cbn [AnalogBaseScript.unpack2 length];
    try (split; [split; [discriminate | intros [_ ?]; discriminate] | reflexivity]).
  unfold AnalogBaseScript.copy_params. cbn [fst snd].
  split; [split; [intros _; split; reflexivity | reflexivity] |].
  intros H. contradiction H. reflexivity.
Qed.
